(** * wt_binary_decode: a shallow embedding of the WiredTiger block decoder

    The development follows [src/third_party/wiredtiger/tools/wt_binary_decode.py].
    Python integers are unbounded, so every integer is a [Z]; a [bytes] or
    [bytearray] object is a [list byte]; an exception is a value of [exn]. *)

From Stdlib Require Import ZArith List String Bool Lia.
From Stdlib Require Import Strings.Byte Strings.Ascii.
Import ListNotations.
Open Scope Z_scope.

(** ** Bytes and exceptions *)

Definition bytes := list byte.

(** The Python exceptions the decoder can raise. *)
Inductive exn : Type :=
| IndexError
| ValueError (msg : string)
| Exception (msg : string)
| OverflowError.

(** Indexing a [bytes] object yields an [int]; [_ord] is the identity in the
    source, here it is the injection of a byte into [Z]. *)
Definition _ord (b : byte) : Z := Z.of_N (Byte.to_N b).

(** [b[i]]: the byte at index [i], [IndexError] out of range. *)
Definition getitem (b : bytes) (i : nat) : exn + Z :=
  match nth_error b i with
  | Some x => inr (_ord x)
  | None => inl IndexError
  end.

(** [int.from_bytes(bs, byteorder='little')]; the empty string gives 0. *)
Fixpoint from_bytes_little (bs : bytes) : Z :=
  match bs with
  | [] => 0
  | x :: r => _ord x + 256 * from_bytes_little r
  end.

(** ** Variable-length integer packing (lines 152-237) *)

Module Varint.

Definition NEG_MULTI_MARKER : Z := 0x10.
Definition NEG_2BYTE_MARKER : Z := 0x20.
Definition NEG_1BYTE_MARKER : Z := 0x40.
Definition POS_1BYTE_MARKER : Z := 0x80.
Definition POS_2BYTE_MARKER : Z := 0xc0.
Definition POS_MULTI_MARKER : Z := 0xe0.

Definition NEG_1BYTE_MIN : Z := - 2 ^ 6.
Definition NEG_2BYTE_MIN : Z := - 2 ^ 13 + NEG_1BYTE_MIN.
Definition POS_1BYTE_MAX : Z := 2 ^ 6 - 1.
Definition POS_2BYTE_MAX : Z := 2 ^ 13 + POS_1BYTE_MAX.

(** [getbits(x, start, end)]: [(x & ((1 << start) - 1)) >> end]. *)
Definition getbits (x start end_ : Z) : Z :=
  Z.shiftr (Z.land x (Z.shiftl 1 start - 1)) end_.

(** [get_int(b, size)]: the loop reads [b[0]], [b[1]], ... in order, so the
    accumulator walks down the list; running off the end is the
    [IndexError] of [b[i]]. *)
Fixpoint get_int_acc (r : Z) (b : bytes) (size : nat) {struct size} : exn + Z :=
  match size with
  | O => inr r
  | S n =>
      match b with
      | [] => inl IndexError
      | x :: b' => get_int_acc (Z.lor (Z.shiftl r 8) (_ord x)) b' n
      end
  end.

Definition get_int (b : bytes) (size : Z) : exn + Z :=
  get_int_acc 0 b (Z.to_nat size).

(** [unpack_int(b)]: the decoded value and the rest of the input. *)
Definition unpack_int (b : bytes) : exn + (Z * bytes) :=
  match getitem b 0 with
  | inl e => inl e
  | inr marker =>
      if (marker <? NEG_MULTI_MARKER) || (marker >=? 0xf0) then
        inl (ValueError "Not a packed integer")
      else if marker <? NEG_2BYTE_MARKER then
        let sz := 8 - getbits marker 4 0 in
        if sz <? 0 then inl (ValueError "Not a valid packed integer")
        else
          let part1 := Z.shiftl (-1) (Z.shiftl sz 3) in
          match get_int (skipn 1 b) sz with
          | inl e => inl e
          | inr part2 =>
              let part3 := skipn (Z.to_nat (sz + 1)) b in
              inr (Z.lor part1 part2, part3)
          end
      else if marker <? NEG_1BYTE_MARKER then
        match getitem b 1 with
        | inl e => inl e
        | inr b1 =>
            inr (NEG_2BYTE_MIN + Z.lor (Z.shiftl (getbits marker 5 0) 8) b1,
                 skipn 2 b)
        end
      else if marker <? POS_1BYTE_MARKER then
        inr (NEG_1BYTE_MIN + getbits marker 6 0, skipn 1 b)
      else if marker <? POS_2BYTE_MARKER then
        inr (getbits marker 6 0, skipn 1 b)
      else if marker <? POS_MULTI_MARKER then
        match getitem b 1 with
        | inl e => inl e
        | inr b1 =>
            inr (POS_1BYTE_MAX + 1 + Z.lor (Z.shiftl (getbits marker 5 0) 8) b1,
                 skipn 2 b)
        end
      else
        let sz := getbits marker 4 0 in
        match get_int (skipn 1 b) sz with
        | inl e => inl e
        | inr v => inr (POS_2BYTE_MAX + 1 + v, skipn (Z.to_nat (sz + 1)) b)
        end
  end.

(** *** The marker table, as the specification words it

    These two definitions follow the table of the specification, not the
    code; the theorems below compare [unpack_int] with them. *)

(** Big-endian zero-extension of a run of bytes. *)
Definition be_uint (bs : bytes) : Z :=
  fold_left (fun acc x => acc * 256 + _ord x) bs 0.

(** The number of following bytes a marker calls for. *)
Definition table_following (marker : Z) : Z :=
  if (0x10 <=? marker) && (marker <=? 0x1F) then 8 - marker mod 16
  else if (0x20 <=? marker) && (marker <=? 0x3F) then 1
  else if (0xC0 <=? marker) && (marker <=? 0xDF) then 1
  else if (0xE0 <=? marker) && (marker <=? 0xEF) then marker mod 16
  else 0.

(** The value the table assigns to a marker and its following bytes. *)
Definition table_value (marker : Z) (following : bytes) : Z :=
  if (0x40 <=? marker) && (marker <=? 0x7F) then - 2 ^ 6 + marker mod 2 ^ 6
  else if (0x80 <=? marker) && (marker <=? 0xBF) then marker mod 2 ^ 6
  else if (0x20 <=? marker) && (marker <=? 0x3F) then
    (- 2 ^ 13 - 2 ^ 6) + ((marker mod 2 ^ 5) * 2 ^ 8 + be_uint following)
  else if (0xC0 <=? marker) && (marker <=? 0xDF) then
    2 ^ 6 + ((marker mod 2 ^ 5) * 2 ^ 8 + be_uint following)
  else if (0xE0 <=? marker) && (marker <=? 0xEF) then
    (2 ^ 13 + 2 ^ 6) + be_uint following
  else
    (* 0x10-0x1F: every bit above the following bytes is 1 *)
    - 2 ^ (8 * Z.of_nat (List.length following)) + be_uint following.

End Varint.

Import Varint.

(** ** Byte streams: [BinFile] over a file object or an [io.BytesIO]

    The stream is the whole content together with the read position, which
    is never negative. The [saved] buffer of [BinFile] only feeds the split
    view of the printer and is left out. *)

Record BinFile : Type := mkBinFile { fileobj : bytes; position : nat }.

(** [io.BytesIO(data)]: a stream positioned at 0. *)
Definition BytesIO (data : bytes) : BinFile := mkBinFile data 0%nat.

(** The bytes from the read position to the end of the stream. *)
Definition unread (b : BinFile) : bytes := skipn (position b) (fileobj b).

(** [sys.maxsize]: a read length above it does not fit an index. *)
Definition sys_maxsize : Z := 2 ^ 63 - 1.

(** ** Page statistics (lines 69-149) *)

Record PageStats : Type := mkPageStats {
  num_keys : Z;
  keys_sz : Z;
  num_d_start_ts : Z;
  d_start_ts_sz : Z;
  num_d_stop_ts : Z;
  d_stop_ts_sz : Z;
  num_start_ts : Z;
  start_ts_sz : Z;
  num_stop_ts : Z;
  stop_ts_sz : Z;
  num_start_txn : Z;
  start_txn_sz : Z;
  num_stop_txn : Z;
  stop_txn_sz : Z
}.

(** [PageStats()]: every field defaults to 0. *)
Definition PageStats_new : PageStats :=
  mkPageStats 0 0 0 0 0 0 0 0 0 0 0 0 0 0.

Definition num_ts (s : PageStats) : Z :=
  num_d_start_ts s + num_d_stop_ts s + num_start_ts s + num_stop_ts s.
Definition ts_sz (s : PageStats) : Z :=
  d_start_ts_sz s + d_stop_ts_sz s + start_ts_sz s + stop_ts_sz s.
Definition num_txn (s : PageStats) : Z := num_start_txn s + num_stop_txn s.
Definition txn_sz (s : PageStats) : Z := start_txn_sz s + stop_txn_sz s.

Definition to_csv_cols (s : PageStats) : list Z :=
  [ num_keys s; keys_sz s; num_d_start_ts s; d_start_ts_sz s;
    num_d_stop_ts s; d_stop_ts_sz s; num_start_ts s; start_ts_sz s;
    num_stop_ts s; stop_ts_sz s; num_ts s; ts_sz s;
    num_start_txn s; start_txn_sz s; num_stop_txn s; stop_txn_sz s;
    num_txn s; txn_sz s ].

(** [pagestats.num_keys += 1; pagestats.keys_sz += l] *)
Definition count_key (l : Z) (s : PageStats) : PageStats :=
  mkPageStats (num_keys s + 1) (keys_sz s + l)
    (num_d_start_ts s) (d_start_ts_sz s) (num_d_stop_ts s) (d_stop_ts_sz s)
    (num_start_ts s) (start_ts_sz s) (num_stop_ts s) (stop_ts_sz s)
    (num_start_txn s) (start_txn_sz s) (num_stop_txn s) (stop_txn_sz s).

(** The six timestamp and transaction counters of [process_timestamps]. *)
Inductive ts_field : Type :=
| F_d_start_ts | F_d_stop_ts | F_start_ts | F_stop_ts | F_start_txn | F_stop_txn.

(** [pagestats.X_sz += sz; pagestats.num_X += 1] for the field [f]. *)
Definition count_ts (f : ts_field) (sz : Z) (s : PageStats) : PageStats :=
  match f with
  | F_d_start_ts =>
      mkPageStats (num_keys s) (keys_sz s)
        (num_d_start_ts s + 1) (d_start_ts_sz s + sz)
        (num_d_stop_ts s) (d_stop_ts_sz s)
        (num_start_ts s) (start_ts_sz s) (num_stop_ts s) (stop_ts_sz s)
        (num_start_txn s) (start_txn_sz s) (num_stop_txn s) (stop_txn_sz s)
  | F_d_stop_ts =>
      mkPageStats (num_keys s) (keys_sz s)
        (num_d_start_ts s) (d_start_ts_sz s)
        (num_d_stop_ts s + 1) (d_stop_ts_sz s + sz)
        (num_start_ts s) (start_ts_sz s) (num_stop_ts s) (stop_ts_sz s)
        (num_start_txn s) (start_txn_sz s) (num_stop_txn s) (stop_txn_sz s)
  | F_start_ts =>
      mkPageStats (num_keys s) (keys_sz s)
        (num_d_start_ts s) (d_start_ts_sz s) (num_d_stop_ts s) (d_stop_ts_sz s)
        (num_start_ts s + 1) (start_ts_sz s + sz)
        (num_stop_ts s) (stop_ts_sz s)
        (num_start_txn s) (start_txn_sz s) (num_stop_txn s) (stop_txn_sz s)
  | F_stop_ts =>
      mkPageStats (num_keys s) (keys_sz s)
        (num_d_start_ts s) (d_start_ts_sz s) (num_d_stop_ts s) (d_stop_ts_sz s)
        (num_start_ts s) (start_ts_sz s)
        (num_stop_ts s + 1) (stop_ts_sz s + sz)
        (num_start_txn s) (start_txn_sz s) (num_stop_txn s) (stop_txn_sz s)
  | F_start_txn =>
      mkPageStats (num_keys s) (keys_sz s)
        (num_d_start_ts s) (d_start_ts_sz s) (num_d_stop_ts s) (d_stop_ts_sz s)
        (num_start_ts s) (start_ts_sz s) (num_stop_ts s) (stop_ts_sz s)
        (num_start_txn s + 1) (start_txn_sz s + sz)
        (num_stop_txn s) (stop_txn_sz s)
  | F_stop_txn =>
      mkPageStats (num_keys s) (keys_sz s)
        (num_d_start_ts s) (d_start_ts_sz s) (num_d_stop_ts s) (d_stop_ts_sz s)
        (num_start_ts s) (start_ts_sz s) (num_stop_ts s) (stop_ts_sz s)
        (num_start_txn s) (start_txn_sz s)
        (num_stop_txn s + 1) (stop_txn_sz s + sz)
  end.

(** ** Headers *)

(** [PageHeader]: the fields of WT_PAGE_HEADER set by [block_decode]. *)
Record PageHeader : Type := mkPageHeader {
  recno : Z;
  writegen : Z;
  memsize : Z;
  ncells : Z;
  type : Z;
  flags : Z;
  version : Z
}.

(** [BlockHeader]: the dataclass of WT_BLOCK_HEADER. *)
Record BlockHeader : Type := mkBlockHeader {
  disk_size : Z;
  checksum : Z;
  block_flags : Z
}.

Definition WT_PAGE_INVALID : Z := 0.
Definition WT_PAGE_BLOCK_MANAGER : Z := 1.
Definition WT_PAGE_COL_FIX : Z := 2.
Definition WT_PAGE_COL_INT : Z := 3.
Definition WT_PAGE_COL_VAR : Z := 4.
Definition WT_PAGE_OVFL : Z := 5.
Definition WT_PAGE_ROW_INT : Z := 6.
Definition WT_PAGE_ROW_LEAF : Z := 7.

Definition pagetype_string (b : Z) : string :=
  if b =? WT_PAGE_INVALID then "WT_PAGE_INVALID"
  else if b =? WT_PAGE_BLOCK_MANAGER then "WT_PAGE_BLOCK_MANAGER"
  else if b =? WT_PAGE_COL_FIX then "WT_PAGE_COL_FIX"
  else if b =? WT_PAGE_COL_INT then "WT_PAGE_COL_INT"
  else if b =? WT_PAGE_COL_VAR then "WT_PAGE_COL_VAR"
  else if b =? WT_PAGE_OVFL then "WT_PAGE_OVFL"
  else if b =? WT_PAGE_ROW_INT then "WT_PAGE_ROW_INT"
  else if b =? WT_PAGE_ROW_LEAF then "WT_PAGE_ROW_LEAF"
  else "*** unknown page type ***".

Definition celltype_string (b : Z) : string :=
  if b =? 0 then "WT_CELL_ADDR_DEL"
  else if b =? 1 then "WT_CELL_ADDR_INT"
  else if b =? 2 then "WT_CELL_ADDR_LEAF"
  else if b =? 3 then "WT_CELL_ADDR_LEAF_NO"
  else if b =? 4 then "WT_CELL_DEL"
  else if b =? 5 then "WT_CELL_KEY"
  else if b =? 6 then "WT_CELL_KEY_OVFL"
  else if b =? 12 then "WT_CELL_KEY_OVFL_RM"
  else if b =? 7 then "WT_CELL_KEY_PFX"
  else if b =? 8 then "WT_CELL_VALUE"
  else if b =? 9 then "WT_CELL_VALUE_COPY"
  else if b =? 10 then "WT_CELL_VALUE_OVFL"
  else if b =? 11 then "WT_CELL_VALUE_OVFL_RM"
  else "*** unknown cell type ***".

(** ** Output: the calls made on the printer

    The printer, standard output and the CSV file are collaborators of the
    decoder. The model records each call as an [event]; a [line] keeps the
    literal text of the source and the values formatted into it. *)

(** The description [s] of a decoded cell ('key {} bytes' and the like). *)
Inductive cell_s : Type :=
| s_val (l : Z)                      (* 'val {} bytes' *)
| s_key (l : Z)                      (* 'key {} bytes' *)
| s_addr_leaf_no (l : Z)             (* 'addr (leaf no-overflow) {} bytes' *)
| s_key_prefix (prefix l : Z)        (* 'key prefix={} {} bytes' *)
| s_overflow_key (l : Z)             (* 'overflow key {} bytes' *)
| s_overflow_val (l : Z)             (* 'overflow val {} bytes' *)
| s_short_key_prefix (pfx l : Z)     (* 'short key prefix={} {} bytes' *)
| s_short_key (l : Z)                (* 'short key {} bytes' *)
| s_short_val (l : Z).               (* 'short val {} bytes' *)

(** The length [l] formatted into a cell description. *)
Definition cell_length (s : cell_s) : Z :=
  match s with
  | s_val l | s_key l | s_addr_leaf_no l | s_key_prefix _ l
  | s_overflow_key l | s_overflow_val l | s_short_key_prefix _ l
  | s_short_key l | s_short_val l => l
  end.

(** [desc_str] is [Some desc] for 'desc: 0x.. ' and [None] for ''. *)
Inductive line : Type :=
| Text (s : string)
| Num (label : string) (n : Z)
| PageType (n : Z) (name : string)
| CellExtra (desc_str : option Z) (extra : Z)
| CellRunlength (desc_str : option Z) (runlength : Z)
| CellNotImplemented (desc_str : option Z) (celltype_int : Z) (celltype : string)
| CellHead (desc_str : option Z) (s : cell_s)
| Pretty (x : bytes)
| DumpLine (addr : Z) (chunk : bytes).

Inductive csv : Type :=
| CsvHeader
| CsvStart (blockid : Z)
| CsvEnd (writegen ncells : Z) (pagetype : string) (disk_size : Z) (cols : list Z).

(** [Begin_cell] also records [cellpos], the value of [b.tell()] taken at the
    top of the iteration that makes the call. *)
Inductive event : Type :=
| Print (l : line)
| Rint (l : line)
| Rint_v (l : line)
| Begin_cell (cellnum cellpos : Z)
| End_cell
| Output_write (o : csv).

(** What reaches the terminal: [rint_v] prints only when [verbose] is set. *)
Definition printed (verbose : bool) (e : event) : option line :=
  match e with
  | Print l | Rint l => Some l
  | Rint_v l => if verbose then Some l else None
  | _ => None
  end.

(** ** The decoding monad: a stream, the output so far, a value or an exception

    The stream and the output survive an exception, as they do in Python. *)

Record result (A : Type) : Type := mkResult {
  res_file : BinFile;
  res_out : list event;
  res_val : exn + A
}.
Arguments mkResult {A} _ _ _.
Arguments res_file {A} _.
Arguments res_out {A} _.
Arguments res_val {A} _.

Definition M (A : Type) : Type := BinFile -> result A.

Definition ret {A} (a : A) : M A := fun b => mkResult b [] (inr a).
Definition raise {A} (e : exn) : M A := fun b => mkResult b [] (inl e).

Definition bind {A B} (m : M A) (k : A -> M B) : M B := fun b =>
  let r := m b in
  match res_val r with
  | inl e => mkResult (res_file r) (res_out r) (inl e)
  | inr a =>
      let r' := k a (res_file r) in
      mkResult (res_file r') (res_out r ++ res_out r') (res_val r')
  end.

Notation "x <- m ;; k" := (bind m (fun x => k))
  (at level 61, m at next level, right associativity).
Notation "m ;; k" := (bind m (fun _ => k))
  (at level 61, right associativity).

(** A pure computation that may raise. *)
Definition lift {A} (x : exn + A) : M A :=
  match x with
  | inl e => raise e
  | inr a => ret a
  end.

(** [try: m except <handled>: h] *)
Definition try_except {A} (m : M A) (handled : exn -> bool) (h : M A) : M A :=
  fun b =>
    let r := m b in
    match res_val r with
    | inl e =>
        if handled e then
          let r' := h (res_file r) in
          mkResult (res_file r') (res_out r ++ res_out r') (res_val r')
        else r
    | inr _ => r
    end.

(** [try: m finally: fin], for a [fin] that does not raise. *)
Definition try_finally {A} (m : M A) (fin : M unit) : M A := fun b =>
  let r := m b in
  let r' := fin (res_file r) in
  mkResult (res_file r') (res_out r ++ res_out r') (res_val r).

(** Run [m] on the in-memory page stream [bp] ([b_page] in the source): its
    output and exceptions are those of the caller, the file stream is not
    touched and the page stream is dropped afterwards. *)
Definition on_page {A} (bp : BinFile) (m : M A) : M A := fun b =>
  let r := m bp in
  mkResult b (res_out r) (res_val r).

Definition emit (e : event) : M unit := fun b => mkResult b [e] (inr tt).

Definition print (l : line) : M unit := emit (Print l).
Definition rint (l : line) : M unit := emit (Rint l).
Definition rint_v (l : line) : M unit := emit (Rint_v l).
Definition begin_cell (cellnum cellpos : Z) : M unit :=
  emit (Begin_cell cellnum cellpos).
Definition end_cell : M unit := emit End_cell.

(** *** [BinFile] methods *)

Definition tell : M Z := fun b => mkResult b [] (inr (Z.of_nat (position b))).

(** [seek(n)]: any position from 0 on, also past the end. A negative one is
    refused ([ValueError] by [io.BytesIO]; a file on disk raises [OSError],
    which the callers treat alike). *)
Definition seek (n : Z) : M unit := fun b =>
  if n <? 0 then mkResult b [] (inl (ValueError "negative seek value"))
  else mkResult (mkBinFile (fileobj b) (Z.to_nat n)) [] (inr tt).

(** [read(n)]: at most [n] bytes, fewer at the end of the stream. *)
Definition read (n : Z) : M bytes := fun b =>
  if n <? 0 then mkResult b [] (inl (Exception "The read length must be >= 0"))
  else if n >? sys_maxsize then mkResult b [] (inl OverflowError)
  else
    let r := firstn (Z.to_nat n) (unread b) in
    mkResult (mkBinFile (fileobj b) (position b + List.length r)) [] (inr r).

Definition uint8 : M Z := x <- read 1 ;; ret (from_bytes_little x).
Definition uint16 : M Z := x <- read 2 ;; ret (from_bytes_little x).
Definition uint32 : M Z := x <- read 4 ;; ret (from_bytes_little x).
Definition uint64 : M Z := x <- read 8 ;; ret (from_bytes_little x).

(** [b.read(1)[0]] *)
Definition read1_0 : M Z := x <- read 1 ;; lift (getitem x 0).

(** [unpack_uint64_with_sz(b)]. [file_as_array] serves [arr[i]] by reading one
    byte from the stream, and seeks only when the index is not the next one;
    [unpack_int] and [get_int] index in order, and a slice [arr[n:]] restarts
    the count without reading, so the indices are served by consecutive
    reads: the array is the unread part of the stream and the stream
    advances by the bytes that were indexed. *)
Definition unpack_uint64_with_sz : M (Z * Z) := fun b =>
  let start := position b in
  match unpack_int (unread b) with
  | inr (val, rest) =>
      let b' := mkBinFile (fileobj b)
                  (start + (List.length (unread b) - List.length rest)) in
      mkResult b' [] (inr (val, Z.of_nat (position b') - Z.of_nat start))
  | inl IndexError =>
      mkResult (mkBinFile (fileobj b) (start + List.length (unread b)))
               [] (inl IndexError)
  | inl e => mkResult (mkBinFile (fileobj b) (start + 1)) [] (inl e)
  end.

Definition unpack_uint64 : M Z :=
  r <- unpack_uint64_with_sz ;; ret (fst r).

(** ** Rendering helpers that can raise (lines 424-508) *)

(** [raw_bytes(b)]: only the loop over leading packed integers can raise; the
    rendered text is kept abstract as [Pretty b]. Each [unpack_int] consumes
    at least the marker, so [len(b)] iterations are enough. *)
Fixpoint raw_bytes_loop (fuel : nat) (s : bytes) : exn + unit :=
  match fuel with
  | O => inr tt
  | S f =>
      match s with
      | [] => inr tt
      | c :: _ =>
          if _ord c >=? 0x7f then
            match unpack_int s with
            | inl e => inl e
            | inr (_, s') => raw_bytes_loop f s'
            end
          else inr tt
      end
  end.

Definition raw_bytes (b : bytes) : exn + line :=
  match raw_bytes_loop (List.length b) b with
  | inl e => inl e
  | inr _ => inr (Pretty b)
  end.

(** [long_length(p, b)] *)
Definition long_length : M Z :=
  v <- unpack_uint64 ;;
  let l := v + 64 in
  (if l <? 0 then rint (Num "? unexpected negative length: " l) else ret tt) ;;
  ret l.

(** The lines of [binary_to_pretty_string(..., per_line=16)], one call of
    [rint_v] each. *)
Fixpoint dump_lines (fuel : nat) (addr : Z) (data : bytes) : M unit :=
  match fuel with
  | O => ret tt
  | S f =>
      match data with
      | [] => ret tt
      | _ :: _ =>
          rint_v (DumpLine addr (firstn 16 data)) ;;
          dump_lines f (addr + 16) (skipn 16 data)
      end
  end.

(** [dumpraw(p, b, pos)] *)
Definition dumpraw (pos : Z) : M unit :=
  savepos <- tell ;;
  seek pos ;;
  data <- read 256 ;;
  dump_lines (List.length data) pos data ;;
  seek savepos.

(** ** Cells (lines 536-582 and 755-882) *)

Definition WT_CELL_PREPARE : Z := 0x01.
Definition WT_CELL_TS_DURABLE_START : Z := 0x02.
Definition WT_CELL_TS_DURABLE_STOP : Z := 0x04.
Definition WT_CELL_TS_START : Z := 0x08.
Definition WT_CELL_TS_STOP : Z := 0x10.
Definition WT_CELL_TXN_START : Z := 0x20.
Definition WT_CELL_TXN_STOP : Z := 0x40.

(** One of the six blocks [if extra & MASK != 0: t, sz = ...] of
    [process_timestamps]. *)
Definition timestamp_field (extra mask : Z) (f : ts_field) (label : string)
    (pagestats : PageStats) : M PageStats :=
  if negb (Z.land extra mask =? 0) then
    r <- unpack_uint64_with_sz ;;
    rint_v (Num label (fst r)) ;;
    ret (count_ts f (snd r) pagestats)
  else ret pagestats.

Definition process_timestamps (extra : Z) (pagestats : PageStats) : M PageStats :=
  if negb (extra =? 0) then
    rint_v (Text "cell has timestamps:") ;;
    (if negb (Z.land extra WT_CELL_PREPARE =? 0)
     then rint_v (Text " prepared") else ret tt) ;;
    pagestats <- timestamp_field extra WT_CELL_TS_DURABLE_START F_d_start_ts
                   " durable start ts: " pagestats ;;
    pagestats <- timestamp_field extra WT_CELL_TS_DURABLE_STOP F_d_stop_ts
                   " durable stop ts: " pagestats ;;
    pagestats <- timestamp_field extra WT_CELL_TS_START F_start_ts
                   " start ts: " pagestats ;;
    pagestats <- timestamp_field extra WT_CELL_TS_STOP F_stop_ts
                   " stop ts: " pagestats ;;
    pagestats <- timestamp_field extra WT_CELL_TXN_START F_start_txn
                   " start txn: " pagestats ;;
    pagestats <- timestamp_field extra WT_CELL_TXN_STOP F_stop_txn
                   " stop txn: " pagestats ;;
    (if negb (Z.land extra 0x80 =? 0)
     then rint_v (Num " *** JUNK in extra descriptor: " extra) else ret tt) ;;
    ret pagestats
  else ret pagestats.

(** What one cell leaves in the local variables of the loop body:
    [desc_str], the pair of [s] and [x] ([None] while [s] is '?'), and the
    statistics. *)
Definition cell_locals : Type := (option Z * option (cell_s * bytes) * PageStats)%type.

(** Long form, lines 784-800: the optional extra descriptor byte with its
    timestamps, then the optional run length. Returns [extra], [desc_str] and
    the statistics. *)
Definition cell_long_fields (desc : Z) (pagestats : PageStats)
  : M (Z * option Z * PageStats) :=
  r <- (if negb (Z.land desc 0x8 =? 0) then
          extra <- read1_0 ;;
          rint_v (CellExtra (Some desc) extra) ;;
          pagestats' <- process_timestamps extra pagestats ;;
          ret (extra, None, pagestats')
        else ret (0, Some desc, pagestats)) ;;
  let '(extra, desc_str, pagestats') := r in
  desc_str' <- (if negb (Z.land desc 0x4 =? 0) then
                  runlength <- unpack_uint64 ;;
                  rint_v (CellRunlength desc_str runlength) ;;
                  ret None
                else ret desc_str) ;;
  ret (extra, desc_str', pagestats').

(** Long form, lines 802-853: the dispatch on the cell type. *)
Definition cell_long_type (desc extra : Z) (desc_str : option Z)
    (pagestats : PageStats) : M cell_locals :=
  let celltype_int := Z.shiftr (Z.land desc 0xf0) 4 in
  let celltype := celltype_string celltype_int in
  if (celltype =? "WT_CELL_VALUE")%string then
    l <- (if negb (extra =? 0) then unpack_uint64 else long_length) ;;
    x <- read l ;;
    ret (desc_str, Some (s_val l, x), pagestats)
  else if (celltype =? "WT_CELL_KEY")%string then
    l <- long_length ;;
    x <- read l ;;
    ret (desc_str, Some (s_key l, x), count_key l pagestats)
  else if (celltype =? "WT_CELL_ADDR_LEAF_NO")%string then
    l <- long_length ;;
    x <- read l ;;
    ret (desc_str, Some (s_addr_leaf_no l, x), count_key l pagestats)
  else if (celltype =? "WT_CELL_KEY_PFX")%string then
    prefix <- uint8 ;;
    l <- long_length ;;
    x <- read l ;;
    ret (desc_str, Some (s_key_prefix prefix l, x), count_key l pagestats)
  else if (celltype =? "WT_CELL_KEY_OVFL")%string then
    l <- unpack_uint64 ;;
    x <- read l ;;
    ret (desc_str, Some (s_overflow_key l, x), count_key l pagestats)
  else if (celltype =? "WT_CELL_VALUE_OVFL")%string then
    l <- unpack_uint64 ;;
    x <- read l ;;
    ret (desc_str, Some (s_overflow_val l, x), pagestats)
  else
    rint (CellNotImplemented desc_str celltype_int celltype) ;;
    ret (None, None, pagestats).

(** Lines 774-869: everything read for the cell after its descriptor byte. *)
Definition cell_body (desc : Z) (pagestats : PageStats) : M cell_locals :=
  let short := Z.land desc 0x3 in
  if short =? 0 then
    r <- cell_long_fields desc pagestats ;;
    let '(extra, desc_str, pagestats') := r in
    cell_long_type desc extra desc_str pagestats'
  else if short =? 2 then
    let l := Z.shiftr (Z.land desc 0xfc) 2 in
    pfx_compress_byte <- read1_0 ;;
    x <- read l ;;
    ret (Some desc, Some (s_short_key_prefix pfx_compress_byte l, x),
         count_key l pagestats)
  else
    let l := Z.shiftr (Z.land desc 0xfc) 2 in
    if short =? 1 then
      x <- read l ;;
      ret (Some desc, Some (s_short_key l, x), count_key l pagestats)
    else
      x <- read l ;;
      ret (Some desc, Some (s_short_val l, x), pagestats).

(** Lines 773-869: the descriptor byte, then the cell it announces. *)
Definition cell_read (pagestats : PageStats) : M cell_locals :=
  desc <- uint8 ;;
  cell_body desc pagestats.

(** Lines 871-879: the cell is shown; [IndexError] and [ValueError] from the
    rendering are swallowed. *)
Definition cell_show (cellpos : Z) (desc_str : option Z)
    (sx : option (cell_s * bytes)) : M unit :=
  try_except
    match sx with
    | Some (s, x) =>
        rint_v (CellHead desc_str s) ;;
        l <- lift (raw_bytes x) ;;
        rint_v l
    | None => dumpraw cellpos
    end
    (fun e => match e with IndexError | ValueError _ => true | _ => false end)
    (ret tt).

(** One iteration of the loop, from [p.begin_cell] to the [finally]. *)
Definition decode_cell (cellnum cellpos : Z) (pagestats : PageStats)
  : M PageStats :=
  begin_cell cellnum cellpos ;;
  try_finally
    (r <- cell_read pagestats ;;
     let '(desc_str, sx, pagestats') := r in
     cell_show cellpos desc_str sx ;;
     ret pagestats')
    end_cell.

(** [for cellnum in range(0, pagehead.ncells)]: [n] iterations are left and
    the next one is number [cellnum]. *)
Fixpoint row_decode_loop (n : nat) (cellnum : Z) (pagehead : PageHeader)
    (pagestats : PageStats) : M PageStats :=
  match n with
  | O => ret pagestats
  | S n' =>
      cellpos <- tell ;;
      if cellpos >=? memsize pagehead then
        rint_v (Text "** OVERFLOW memsize **") ;;
        ret pagestats
      else
        pagestats' <- decode_cell cellnum cellpos pagestats ;;
        row_decode_loop n' (cellnum + 1) pagehead pagestats'
  end.

(** [row_decode(p, b, pagehead, blockhead, pagestats)]; the statistics object
    is mutated in place in the source and returned here. *)
Definition row_decode (pagehead : PageHeader) (blockhead : BlockHeader)
    (pagestats : PageStats) : M PageStats :=
  row_decode_loop (Z.to_nat (ncells pagehead)) 0 pagehead pagestats.

(** ** File header (lines 510-534) *)

Definition file_header_decode : M unit :=
  magic <- uint32 ;;
  major <- uint16 ;;
  minor <- uint16 ;;
  checksum' <- uint32 ;;
  unused <- uint32 ;;
  rint (Num "magic: " magic) ;;
  rint (Num "major: " major) ;;
  rint (Num "minor: " minor) ;;
  rint (Num "checksum: " checksum') ;;
  if negb (magic =? 120897) then rint (Text "bad magic number")
  else if negb (major =? 1) then rint (Text "bad major number")
  else if negb (minor =? 0) then rint (Text "bad minor number")
  else if negb (unused =? 0) then rint (Text "garbage in unused bytes")
  else rint (Text "").

(** ** Blocks (lines 614-752) *)

(** The command-line options the decoder reads. [split] and [debug] only
    change what the printer shows and are left out. *)
Record Opts : Type := mkOpts {
  verbose : bool;
  skip_data : bool;
  offset : Z;
  fragment : bool;
  pages : Z;
  output : bool          (* [opts.output != None] *)
}.

(** [data[i] = v] on a [bytearray]. *)
Definition setitem (data : bytes) (i : nat) (v : byte) : exn + bytes :=
  if (i <? List.length data)%nat
  then inr (firstn i data ++ v :: skipn (S i) data)
  else inl IndexError.

Definition outfile_header (opts : Opts) : M unit :=
  if output opts then emit (Output_write CsvHeader) else ret tt.

Definition outfile_stats_start (opts : Opts) (blockid : Z) : M unit :=
  if output opts then emit (Output_write (CsvStart blockid)) else ret tt.

Definition outfile_stats_end (opts : Opts) (pagehead : PageHeader)
    (blockhead : BlockHeader) (pagestats : PageStats) : M unit :=
  if output opts then
    emit (Output_write (CsvEnd (writegen pagehead) (ncells pagehead)
                          (pagetype_string (type pagehead))
                          (disk_size blockhead) (to_csv_cols pagestats)))
  else ret tt.

(** Lines 626-673, run on the 40 bytes of [page_data]: both headers and their
    sanity checks. [None] stands for the early [return]s. *)
Definition block_headers : M (option (PageHeader * BlockHeader)) :=
  recno' <- uint64 ;;
  writegen' <- uint64 ;;
  memsize' <- uint32 ;;
  ncells' <- uint32 ;;
  type' <- uint8 ;;
  flags' <- uint8 ;;
  unused <- uint8 ;;
  version' <- uint8 ;;
  let pagehead :=
    mkPageHeader recno' writegen' memsize' ncells' type' flags' version' in
  if negb (unused =? 0) then
    rint (Text "? garbage in unused bytes") ;; ret None
  else if type' =? 0 then
    rint (Text "? invalid page") ;; ret None
  else
    rint (Text "Page Header:") ;;
    rint (Num "  recno: " recno') ;;
    rint (Num "  writegen: " writegen') ;;
    rint (Num "  memsize: " memsize') ;;
    rint (Num "  ncells (oflow len): " ncells') ;;
    rint (PageType type' (pagetype_string type')) ;;
    rint (Num "  page flags: " flags') ;;
    rint (Num "  version: " version') ;;
    disk_size' <- uint32 ;;
    checksum' <- uint32 ;;
    bflags <- uint8 ;;
    let blockhead := mkBlockHeader disk_size' checksum' bflags in
    (* uint8(b_page) != 0 or uint8(b_page) != 0 or uint8(b_page) != 0 *)
    u1 <- uint8 ;;
    garbage <- (if negb (u1 =? 0) then ret true
                else u2 <- uint8 ;;
                     if negb (u2 =? 0) then ret true
                     else u3 <- uint8 ;; ret (negb (u3 =? 0))) ;;
    if garbage : bool then
      rint (Text "garbage in unused bytes") ;; ret None
    else if disk_size' >? 17 * 1024 * 1024 then
      rint (Text "the block is too big") ;; ret None
    else if disk_size' <? 40 then
      ret None
    else
      rint (Text "Block Header:") ;;
      rint (Num "  disk_size: " disk_size') ;;
      rint (Num "  checksum: " checksum') ;;
      rint (Num "  block flags: " bflags) ;;
      ret (Some (pagehead, blockhead)).

Section Decoder.

(** The optional dependencies: whether [crc32c] and [snappy] were imported,
    and the two library functions. *)
Variable have_crc32c : bool.
Variable crc32c : bytes -> Z.
Variable have_snappy : bool.
Variable snappy_uncompress : bytes -> exn + bytes.

(** Lines 678-695. [true]: the checksum matches; [false]: [block_decode]
    returns. *)
Definition verify_checksum (disk_pos : Z) (blockhead : BlockHeader) : M bool :=
  savepos <- tell ;;
  seek disk_pos ;;
  let check_size :=
    if negb (Z.land (block_flags blockhead) 1 =? 0)
    then disk_size blockhead else 64 in
  data <- read check_size ;;
  seek savepos ;;
  (* data[32] = data[33] = data[34] = data[35] = 0 *)
  data <- lift (setitem data 32 x00) ;;
  data <- lift (setitem data 33 x00) ;;
  data <- lift (setitem data 34 x00) ;;
  data <- lift (setitem data 35 x00) ;;
  if Z.of_nat (List.length data) <? check_size then
    rint (Text "? reached EOF before the end of the block") ;; ret false
  else
    let checksum' := crc32c data in
    if negb (checksum' =? checksum blockhead) then
      rint (Num "? the checksum does not match " checksum') ;; ret false
    else ret true.

(** Lines 703-726: the payload; [None] stands for the early [return]s. *)
Definition read_payload (disk_pos header_length : Z) (pagehead : PageHeader)
    (blockhead : BlockHeader) : M (option bytes) :=
  if negb (Z.land (flags pagehead) 1 =? 0) then
    if negb have_snappy then
      rint (Text "? the page is compressed (install python-snappy to parse)") ;;
      ret None
    else
      try_except
        (let compress_skip := 64 in
         payload_data <- read (compress_skip - header_length) ;;
         u <- uint64 ;;
         let length := Z.min u (disk_size blockhead - compress_skip - 8) in
         compressed_data <- read length ;;
         seek (disk_pos + disk_size blockhead) ;;
         d <- lift (snappy_uncompress compressed_data) ;;
         ret (Some (payload_data ++ d)))
        (fun _ => true)
        (rint (Text "? the page failed to uncompress") ;; ret None)
  else
    payload_data <- read (memsize pagehead - header_length) ;;
    seek (disk_pos + disk_size blockhead) ;;
    ret (Some payload_data).

(** Lines 734-750, run on the whole page: the dispatch on the page type. *)
Definition page_decode (pagehead : PageHeader) (blockhead : BlockHeader)
    (payload_data : bytes) (pagestats : PageStats) : M PageStats :=
  if type pagehead =? WT_PAGE_INVALID then ret pagestats
  else if type pagehead =? WT_PAGE_BLOCK_MANAGER then
    rint_v (Text "? unimplemented decode for page type WT_PAGE_BLOCK_MANAGER") ;;
    rint_v (Pretty payload_data) ;;
    ret pagestats
  else if type pagehead =? WT_PAGE_COL_VAR then
    rint_v (Text "? unimplemented decode for page type WT_PAGE_COLUMN_VARIABLE") ;;
    rint_v (Pretty payload_data) ;;
    ret pagestats
  else if (type pagehead =? WT_PAGE_ROW_INT) || (type pagehead =? WT_PAGE_ROW_LEAF) then
    row_decode pagehead blockhead pagestats
  else if type pagehead =? WT_PAGE_OVFL then
    x <- read (Z.of_nat (List.length payload_data)) ;;
    l <- lift (raw_bytes x) ;;
    rint_v l ;;
    ret pagestats
  else
    rint_v (Num "? unimplemented decode for page type " (type pagehead)) ;;
    rint_v (Pretty payload_data) ;;
    ret pagestats.

(** [block_decode(p, b, opts)], on the file stream. *)
Definition block_decode (opts : Opts) : M unit :=
  disk_pos <- tell ;;
  page_data <- read 40 ;;
  hdrs <- on_page (BytesIO page_data) block_headers ;;
  match hdrs with
  | None => ret tt
  | Some (pagehead, blockhead) =>
      let pagestats := PageStats_new in
      ok <- (if have_crc32c then verify_checksum disk_pos blockhead
             else ret true) ;;
      if negb ok then ret tt
      else if skip_data opts then seek (disk_pos + disk_size blockhead)
      else
        payload_pos <- tell ;;
        let header_length := payload_pos - disk_pos in
        payload <- read_payload disk_pos header_length pagehead blockhead ;;
        match payload with
        | None => ret tt
        | Some payload_data =>
            pagestats' <- on_page (mkBinFile (page_data ++ payload_data)
                                     (Z.to_nat header_length))
                            (page_decode pagehead blockhead payload_data pagestats) ;;
            outfile_stats_end opts pagehead blockhead pagestats'
        end
  end.

(** ** The scan of a file (lines 923-955) *)

(** [(pos + 0x1FF) & ~(0x1FF)] *)
Definition align512 (pos : Z) : Z := Z.land (pos + 0x1FF) (Z.lnot 0x1FF).

(** The body of the [while] loop: one block, then the next [startblock].
    [except Exception] catches every exception of [exn]; [BrokenPipeError]
    comes from the terminal and is not modelled. *)
Definition scan_block (opts : Opts) (startblock : Z) : M Z :=
  outfile_stats_start opts startblock ;;
  print (Num "Decode at " startblock) ;;
  seek startblock ;;
  try_except (block_decode opts) (fun _ => true)
    (rint (Num "ERROR decoding block at " startblock)) ;;
  rint (Text "") ;;
  pos <- tell ;;
  let pos := align512 pos in
  ret (if startblock =? pos then startblock + 0x200 else pos).

(** The [while] loop. With [nbytes = 0] and [pages = 0] it never ends in the
    source, so the model takes a bound on the iterations and returns [false]
    when the bound is used up before the loop condition fails. *)
Fixpoint wtdecode_loop (fuel : nat) (opts : Opts) (nbytes startblock pagecount : Z)
  : M bool :=
  if ((nbytes =? 0) || (startblock <? nbytes))
     && ((pages opts =? 0) || (pagecount <? pages opts)) then
    match fuel with
    | O => ret false
    | S fuel' =>
        startblock' <- scan_block opts startblock ;;
        wtdecode_loop fuel' opts nbytes startblock' (pagecount + 1)
    end
  else ret true.

(** Lines 932-955 of [wtdecode_file_object]: the CSV header, the loop over
    the blocks from [startblock], and the closing empty line. *)
Definition wtdecode_blocks (fuel : nat) (opts : Opts) (nbytes startblock : Z)
  : M bool :=
  outfile_header opts ;;
  finished <- wtdecode_loop fuel opts nbytes startblock 0 ;;
  (if finished : bool then rint (Text "") else ret tt) ;;
  ret finished.

(** [wtdecode_file_object(b, opts, nbytes)]; the value of [file_header_decode]
    is not looked at. *)
Definition wtdecode_file_object (fuel : nat) (opts : Opts) (nbytes : Z) : M bool :=
  startblock <- (if (offset opts =? 0) && negb (fragment opts) then
                   file_header_decode ;;
                   pos <- tell ;;
                   ret (align512 pos)
                 else ret (offset opts)) ;;
  wtdecode_blocks fuel opts nbytes startblock.

End Decoder.
(** ** Notions used in the statements

    The definitions of this section are not taken from the code: they word
    the properties that are proved of it. *)

(** The cell kinds that count as keys, read off the descriptor byte: the
    short key forms, and in long form the type tags of key (5), key-prefix
    (7), address-leaf-no-overflow (3) and key-overflow (6). *)
Definition key_like (desc : Z) : bool :=
  let short := Z.land desc 0x3 in
  let tag := Z.shiftr (Z.land desc 0xf0) 4 in
  if short =? 0 then (tag =? 5) || (tag =? 7) || (tag =? 3) || (tag =? 6)
  else (short =? 1) || (short =? 2).

(** The byte of value [z], for [0 <= z < 256]. *)
Definition byte_of_Z (z : Z) : byte :=
  match Byte.of_N (Z.to_N z) with
  | Some b => b
  | None => x00
  end.

(** A short key cell holding [data] (at most 63 bytes): the descriptor
    [(len << 2) | 1], then the data. *)
Definition short_key_cell (data : bytes) : bytes :=
  byte_of_Z (4 * Z.of_nat (List.length data) + 1) :: data.

(** [sum_lengths cells]: the total length of the data of [cells]. *)
Definition sum_lengths (cells : list bytes) : Z :=
  fold_right (fun d acc => Z.of_nat (List.length d) + acc) 0 cells.

(** [post m Q]: whenever [m] returns a value, the value satisfies [Q]. *)
Definition post {A} (m : M A) (Q : A -> Prop) : Prop :=
  forall b a, res_val (m b) = inr a -> Q a.

(** [emits P m]: every event [m] puts out satisfies [P]. *)
Definition emits {A} (P : event -> Prop) (m : M A) : Prop :=
  forall b, Forall P (res_out (m b)).

(** [returns m]: [m] never raises. *)
Definition returns {A} (m : M A) : Prop :=
  forall b, exists a, res_val (m b) = inr a.

(** The stream over [d] after [j] bytes were asked for: the position stops
    at the end of [d]. *)
Definition cursor (d : bytes) (j : nat) : BinFile :=
  mkBinFile d (Nat.min j (List.length d)).

(** The little-endian integer of the [n] bytes of [d] at offset [off]; fewer
    bytes when [d] ends before. *)
Definition field (d : bytes) (off n : nat) : Z :=
  from_bytes_little (firstn n (skipn off d)).

(** [prepend o r]: the result [r] after the output [o]. *)
Definition prepend {A} (o : list event) (r : result A) : result A :=
  mkResult (res_file r) (o ++ res_out r) (res_val r).

(** The two statistics of keys are the same in [s] and [s']. *)
Definition same_keys (s s' : PageStats) : Prop :=
  num_keys s' = num_keys s /\ keys_sz s' = keys_sz s.

(** What a cell does to the statistics of keys, given its descriptor: a key
    adds one to [num_keys] and its decoded length to [keys_sz], any other
    cell leaves both alone. [r] is what the cell left in the locals. *)
Definition key_accounting (desc : Z) (s : PageStats) (r : cell_locals) : Prop :=
  if key_like desc then
    exists c x, snd (fst r) = Some (c, x)
                /\ num_keys (snd r) = num_keys s + 1
                /\ keys_sz (snd r) = keys_sz s + cell_length c
  else same_keys s (snd r).

(** The events of the body of a cell: anything but the start of a cell and
    the overflow line of the loop. *)
Definition inner_event (e : event) : bool :=
  match e with
  | Begin_cell _ _ => false
  | Rint_v (Text s) => negb (s =? "** OVERFLOW memsize **")%string
  | _ => true
  end.

Definition inner (e : event) : Prop := inner_event e = true.

Definition is_begin_cell (e : event) : bool :=
  match e with
  | Begin_cell _ _ => true
  | _ => false
  end.

(** The number of cells begun in an output: the iterations of the loop of
    [row_decode] that got past the overflow test. *)
Definition cells_begun (t : list event) : nat :=
  List.length (filter is_begin_cell t).

(** The shape of the output of the loop of [row_decode] with [n] iterations
    left: it ends, or it stops on the overflow line, or a cell is begun at a
    position below [memsize] and the loop goes on after the body. *)
Inductive loop_trace (memsize : Z) : nat -> list event -> Prop :=
| loop_end (n : nat) : loop_trace memsize n []
| loop_overflow (n : nat) :
    loop_trace memsize (S n) [Rint_v (Text "** OVERFLOW memsize **")]
| loop_cell (n : nat) (cellnum cellpos : Z) (body t : list event) :
    cellpos < memsize ->
    Forall inner body ->
    loop_trace memsize n t ->
    loop_trace memsize (S n) (Begin_cell cellnum cellpos :: body ++ t).

(** The lines [block_decode] prints for a page header held in the first 28
    bytes of [pd]. *)
Definition page_header_lines (pd : bytes) : list event :=
  [ Rint (Text "Page Header:");
    Rint (Num "  recno: " (field pd 0 8));
    Rint (Num "  writegen: " (field pd 8 8));
    Rint (Num "  memsize: " (field pd 16 4));
    Rint (Num "  ncells (oflow len): " (field pd 20 4));
    Rint (PageType (field pd 24 1) (pagetype_string (field pd 24 1)));
    Rint (Num "  page flags: " (field pd 25 1));
    Rint (Num "  version: " (field pd 27 1)) ].

(** The lines with which [block_decode] rejects a header. *)
Definition header_diagnostics : list string :=
  [ "? garbage in unused bytes"; "? invalid page"; "garbage in unused bytes";
    "the block is too big" ]%string.

(** ** Inputs of the examples *)

(** No option set: offset 0, no page limit, not a fragment, no CSV file. *)
Definition no_opts : Opts := mkOpts false false 0 false 0 false.

(** The 40 bytes of an empty row-leaf page: memsize 40, no cell, type 7,
    version 1, disk_size 40, every other field 0. *)
Definition empty_leaf_block : bytes :=
  repeat x00 16 ++ [x28; x00; x00; x00] ++ repeat x00 4
  ++ [x07; x00; x00; x01] ++ [x28; x00; x00; x00] ++ repeat x00 8.

(** The 40 bytes of a row-leaf page whose block header declares a
    [disk_size] of 0; its other fields pass every check of [block_decode]. *)
Definition zero_size_block : bytes :=
  repeat x00 16 ++ [x28; x00; x00; x00] ++ repeat x00 4
  ++ [x07; x00; x00; x01] ++ repeat x00 12.

(** The first 30 bytes of [empty_leaf_block]: a block cut short inside
    its block header. The two bytes left of [disk_size] still read as 40. *)
Definition truncated_block : bytes := firstn 30 empty_leaf_block.

(** A file whose first 512 bytes are zeros, so that the magic of its header
    is 0, followed by an empty row-leaf page at offset 512. *)
Definition bad_magic_file : bytes := repeat x00 512 ++ empty_leaf_block.


(** ** [file_as_array] and [unpack_int] over it (lines 272-300, 412-422)

    [unpack_int] indexes and slices its argument, which is a [bytes] object
    in [raw_bytes] and a [file_as_array] in [unpack_uint64]. The class
    [Indexable] is that interface; an object it returns beside a value is
    the receiver after the call. *)

Class Indexable (T : Type) : Type := {
  index : T -> Z -> M (Z * T);          (* [b[i]] *)
  slice_from : T -> Z -> T * T          (* [b[n:]]: the slice, the receiver *)
}.

(** [bytes]: an index below 0 counts from the end, as does the start of a
    slice; neither changes the object or touches a stream. *)
#[export] Instance Indexable_bytes : Indexable bytes := {
  index b i :=
    let j := if i <? 0 then Z.of_nat (List.length b) + i else i in
    if j <? 0 then raise IndexError
    else v <- lift (getitem b (Z.to_nat j)) ;; ret (v, b);
  slice_from b n :=
    let j := if n <? 0 then Z.max 0 (Z.of_nat (List.length b) + n) else n in
    (skipn (Z.to_nat j) b, b)
}.

(** [file_as_array]: the fields [pos] and [slicepos]; [fileobj] is the
    stream the computation runs on. *)
Record file_as_array : Type := mk_file_as_array { faa_pos : Z; slicepos : Z }.

(** [file_as_array(fileobj)] *)
Definition file_as_array_new : file_as_array := mk_file_as_array 0 0.

(** [__getitem__] with an [int] key: seek unless the key is the next
    position, read one byte, step the position. *)
Definition faa_getitem (self : file_as_array) (key : Z)
  : M (Z * file_as_array) :=
  self' <- (if negb (faa_pos self =? key) then
              seek (key + slicepos self) ;;
              ret (mk_file_as_array key (slicepos self))
            else ret self) ;;
  x <- read 1 ;;
  v <- lift (getitem x 0) ;;
  ret (v, mk_file_as_array (faa_pos self' + 1) (slicepos self')).

(** [__getitem__] with the slice [n:]: a new object whose [slicepos] is [n];
    the receiver's [pos] becomes -1. *)
Definition faa_slice (self : file_as_array) (start : Z)
  : file_as_array * file_as_array :=
  (mk_file_as_array 0 start, mk_file_as_array (-1) (slicepos self)).

#[export] Instance Indexable_file_as_array : Indexable file_as_array := {
  index := faa_getitem;
  slice_from := faa_slice
}.

(** [get_int(b, size)] over the interface: [i] is the next index, [r] the
    accumulator, [n] the iterations left. *)
Fixpoint get_int_loop {T} `{Indexable T} (n : nat) (i r : Z) (b : T)
  : M (Z * T) :=
  match n with
  | O => ret (r, b)
  | S n' =>
      x <- index b i ;;
      get_int_loop n' (i + 1) (Z.lor (Z.shiftl r 8) (fst x)) (snd x)
  end.

Definition get_int_on {T} `{Indexable T} (b : T) (size : Z) : M (Z * T) :=
  get_int_loop (Z.to_nat size) 0 0 b.

(** [unpack_int(b)] over the interface, statement by statement. *)
Definition unpack_int_on {T} `{Indexable T} (b : T) : M (Z * T) :=
  x <- index b 0 ;;
  let marker := fst x in
  let b := snd x in
  if (marker <? NEG_MULTI_MARKER) || (marker >=? 0xf0) then
    raise (ValueError "Not a packed integer")
  else if marker <? NEG_2BYTE_MARKER then
    let sz := 8 - getbits marker 4 0 in
    if sz <? 0 then raise (ValueError "Not a valid packed integer")
    else
      let part1 := Z.shiftl (-1) (Z.shiftl sz 3) in
      let s1 := slice_from b 1 in
      part2 <- get_int_on (fst s1) sz ;;
      let s3 := slice_from (snd s1) (sz + 1) in
      ret (Z.lor part1 (fst part2), fst s3)
  else if marker <? NEG_1BYTE_MARKER then
    y <- index b 1 ;;
    ret (NEG_2BYTE_MIN + Z.lor (Z.shiftl (getbits marker 5 0) 8) (fst y),
         fst (slice_from (snd y) 2))
  else if marker <? POS_1BYTE_MARKER then
    ret (NEG_1BYTE_MIN + getbits marker 6 0, fst (slice_from b 1))
  else if marker <? POS_2BYTE_MARKER then
    ret (getbits marker 6 0, fst (slice_from b 1))
  else if marker <? POS_MULTI_MARKER then
    y <- index b 1 ;;
    ret (POS_1BYTE_MAX + 1 + Z.lor (Z.shiftl (getbits marker 5 0) 8) (fst y),
         fst (slice_from (snd y) 2))
  else
    let sz := getbits marker 4 0 in
    let s1 := slice_from b 1 in
    v <- get_int_on (fst s1) sz ;;
    ret (POS_2BYTE_MAX + 1 + fst v, fst (slice_from (snd s1) (sz + 1))).

(** [unpack_uint64_with_sz(b)] as the source writes it: through a
    [file_as_array] over the stream. *)
Definition unpack_uint64_with_sz_faa : M (Z * Z) :=
  start <- tell ;;
  r <- unpack_int_on file_as_array_new ;;
  stop <- tell ;;
  ret (fst r, stop - start).

(** ** Notions used in the further properties *)

(** The bit of the extra descriptor byte that announces the field [f]. *)
Definition ts_mask (f : ts_field) : Z :=
  match f with
  | F_d_start_ts => WT_CELL_TS_DURABLE_START
  | F_d_stop_ts => WT_CELL_TS_DURABLE_STOP
  | F_start_ts => WT_CELL_TS_START
  | F_stop_ts => WT_CELL_TS_STOP
  | F_start_txn => WT_CELL_TXN_START
  | F_stop_txn => WT_CELL_TXN_STOP
  end.

(** 1 when the bit [mask] is set in [extra], else 0. *)
Definition ts_ind (extra mask : Z) : Z :=
  if Z.land extra mask =? 0 then 0 else 1.

(** The counter and the byte total of the field [f] in the statistics. *)
Definition ts_count (f : ts_field) (s : PageStats) : Z :=
  match f with
  | F_d_start_ts => num_d_start_ts s
  | F_d_stop_ts => num_d_stop_ts s
  | F_start_ts => num_start_ts s
  | F_stop_ts => num_stop_ts s
  | F_start_txn => num_start_txn s
  | F_stop_txn => num_stop_txn s
  end.

Definition ts_size (f : ts_field) (s : PageStats) : Z :=
  match f with
  | F_d_start_ts => d_start_ts_sz s
  | F_d_stop_ts => d_stop_ts_sz s
  | F_start_ts => start_ts_sz s
  | F_stop_ts => stop_ts_sz s
  | F_start_txn => start_txn_sz s
  | F_stop_txn => stop_txn_sz s
  end.

Definition ts_field_eqb (f g : ts_field) : bool :=
  match f, g with
  | F_d_start_ts, F_d_start_ts | F_d_stop_ts, F_d_stop_ts
  | F_start_ts, F_start_ts | F_stop_ts, F_stop_ts
  | F_start_txn, F_start_txn | F_stop_txn, F_stop_txn => true
  | _, _ => false
  end.

(** [stays_above p m Q]: run on a stream at position [p] or beyond, [m]
    leaves the bytes of the stream alone and the position at [p] or beyond,
    whether it returns or raises, and a value it returns satisfies [Q]. *)
Definition stays_above {A} (p : Z) (m : M A) (Q : A -> Prop) : Prop :=
  forall b, p <= Z.of_nat (position b) ->
    fileobj (res_file (m b)) = fileobj b
    /\ p <= Z.of_nat (position (res_file (m b)))
    /\ forall a, res_val (m b) = inr a -> Q a.

(** What [row_decode] prints for [n] cells, numbered from [cellnum], read at
    the end of the page stream, at position [pos]. *)
Fixpoint cells_at_end (pos cellnum : Z) (n : nat) : list event :=
  match n with
  | O => []
  | S n' =>
      [ Begin_cell cellnum pos;
        Rint (CellNotImplemented (Some 0) 0 "WT_CELL_ADDR_DEL");
        End_cell ]
      ++ cells_at_end pos (cellnum + 1) n'
  end.

(** ** The CSV file (lines 106-148 and 884-921) *)

(** [PageStats.csv_cols()] *)
Definition csv_cols : list string :=
  [ "num keys"; "keys size"; "num durable start ts"; "durable start ts size";
    "num durable stop ts"; "durable stop ts size"; "num start ts";
    "start ts size"; "num stop ts"; "stop ts size"; "num ts"; "ts size";
    "num start txn"; "start txn size"; "num stop txn"; "stop txn size";
    "num txn"; "txn size" ]%string.

(** A field of the CSV file: a name, or a number written with [str]. The
    block id, which the source writes as decimal and hexadecimal in one
    field, is held as its number. *)
Inductive csv_value : Type :=
| CsvStr (s : string)
| CsvInt (n : Z).

(** The fields of one [opts.output.write]: the list [fields] of
    [outfile_header], the block id that [outfile_stats_start] writes after a
    newline and before a comma, the list [line] of [outfile_stats_end]. *)
Definition csv_fields (o : csv) : list csv_value :=
  match o with
  | CsvHeader =>
      map CsvStr
        (["block id"; "writegen"; "memsize"; "ncells"; "page type";
          "disk size"]%string ++ csv_cols)
  | CsvStart blockid => [CsvInt blockid]
  | CsvEnd writegen ncells pagetype disk_size cols =>
      [CsvInt writegen; CsvInt ncells; CsvStr pagetype; CsvInt disk_size]
      ++ map CsvInt cols
  end.

(** The writes to the CSV file among the events. *)
Definition outputs (t : list event) : list csv :=
  flat_map (fun e => match e with Output_write o => [o] | _ => [] end) t.

(** The events that do not write to the CSV file. *)
Definition quiet_event (e : event) : bool :=
  match e with
  | Output_write _ => false
  | _ => true
  end.

Definition quiet (e : event) : Prop := quiet_event e = true.

(** [ends_row m]: [m] writes nothing to the CSV file, or only the end of a
    row, with the 18 statistics of a page. *)
Definition ends_row {A} (m : M A) : Prop :=
  forall b,
    outputs (res_out (m b)) = []
    \/ exists writegen ncells pagetype disk_size s,
         outputs (res_out (m b))
         = [CsvEnd writegen ncells pagetype disk_size (to_csv_cols s)].

(** ** The bytes [BinFile] saves (lines 304-328)

    [BinFile] keeps in [saved] the bytes read since the last [seek] or
    [saved_bytes]; the printer shows them in its split view. *)
Record BinFile_saved : Type := mkBinFile_saved {
  binfile : BinFile;
  saved : bytes
}.

(** [BinFile(io.BytesIO(f))] *)
Definition BinFile_new (f : bytes) : BinFile_saved :=
  mkBinFile_saved (BytesIO f) [].

(** The calls of the methods of [BinFile]. *)
Inductive call : Type :=
| Call_read (n : Z)
| Call_seek (n : Z)
| Call_tell
| Call_saved_bytes.

(** What a call leaves of the object: [read] appends what it read, nothing
    when it raises; [seek] empties [saved] before it seeks, so also when the
    seek raises; [saved_bytes] empties [saved]. *)
Definition do_call (s : BinFile_saved) (c : call) : BinFile_saved :=
  match c with
  | Call_read n =>
      let r := read n (binfile s) in
      mkBinFile_saved (res_file r)
        (match res_val r with
         | inr x => saved s ++ x
         | inl _ => saved s
         end)
  | Call_seek n => mkBinFile_saved (res_file (seek n (binfile s))) []
  | Call_tell => s
  | Call_saved_bytes => mkBinFile_saved (binfile s) []
  end.

(** [saved_bytes()]: the value returned. *)
Definition saved_bytes (s : BinFile_saved) : bytes := saved s.

(** ** The printer (lines 336-391), without the split view

    [cellpfx] is [Some n] for the prefix 'n: ' and [None] for ''. *)
Record Printer : Type := mkPrinter {
  p_verbose : bool;
  cellpfx : option Z;
  in_cell : bool
}.

(** What is put before a printed line: 'n: ', two spaces, or nothing. *)
Inductive prefix : Type :=
| Pfx_cell (n : Z)
| Pfx_indent
| Pfx_none.

(** [Printer.rint(s)] with [issplit] false: the printer afterwards and the
    line printed. *)
Definition Printer_rint (p : Printer) (s : line)
  : Printer * list (prefix * line) :=
  let pfx := cellpfx p in
  (mkPrinter (p_verbose p) None (in_cell p),
   [(match pfx with
     | Some n => Pfx_cell n
     | None => if in_cell p then Pfx_indent else Pfx_none
     end, s)]).

(** One call on the printer; [Print] is the builtin [print], which does not
    go through the printer. *)
Definition Printer_call (p : Printer) (e : event)
  : Printer * list (prefix * line) :=
  match e with
  | Begin_cell n _ => (mkPrinter (p_verbose p) (Some n) true, [])
  | End_cell => (mkPrinter (p_verbose p) None false, [])
  | Rint s => Printer_rint p s
  | Rint_v s => if p_verbose p then Printer_rint p s else (p, [])
  | Print s => (p, [(Pfx_none, s)])
  | Output_write _ => (p, [])
  end.

(** The lines a sequence of calls prints. *)
Fixpoint Printer_run (p : Printer) (t : list event) : list (prefix * line) :=
  match t with
  | [] => []
  | e :: t' =>
      snd (Printer_call p e) ++ Printer_run (fst (Printer_call p e)) t'
  end.

(** The lines of the [rint] and [rint_v] calls of [t] that are shown. *)
Definition shown (verbose : bool) (t : list event) : list line :=
  flat_map (fun e => match printed verbose e with
                     | Some l => [l]
                     | None => []
                     end) t.

(** The calls [rint] and [rint_v]. *)
Definition is_rint (e : event) : bool :=
  match e with
  | Rint _ | Rint_v _ => true
  | _ => false
  end.

Definition rint_only (e : event) : Prop := is_rint e = true.

(** The lines that tell of a problem in a cell: a cell type that is not
    decoded, a negative length. *)
Definition anomaly (l : line) : bool :=
  match l with
  | CellNotImplemented _ _ _ => true
  | Num label _ => (label =? "? unexpected negative length: ")%string
  | _ => false
  end.

(** What the decoding of a cell puts out: verbose lines, and with [rint]
    only the lines that tell of a problem. *)
Definition cell_event (e : event) : bool :=
  match e with
  | Rint_v _ => true
  | Rint l => anomaly l
  | _ => false
  end.

Definition cell_only (e : event) : Prop := cell_event e = true.

(** What the decoding of a page puts out: the marks of the cells, verbose
    lines, and with [rint] only the lines that tell of a problem. *)
Definition page_event (e : event) : bool :=
  match e with
  | Rint l => anomaly l
  | Print _ | Output_write _ => false
  | _ => true
  end.

Definition page_only (e : event) : Prop := page_event e = true.

(** The lines [ls] of a cell: the first one under [first], the others
    indented. *)
Definition cell_lines (first : prefix) (ls : list line)
  : list (prefix * line) :=
  match ls with
  | [] => []
  | l :: ls' => (first, l) :: map (pair Pfx_indent) ls'
  end.

(** No statistic of [s'] is below that of [s]. *)
Definition stats_le (s s' : PageStats) : Prop :=
  num_keys s <= num_keys s'
  /\ keys_sz s <= keys_sz s'
  /\ (forall f, ts_count f s <= ts_count f s')
  /\ (forall f, ts_size f s <= ts_size f s').

(** ** Hex dumps as input (lines 957-970) *)

(** The text after the last colon of [s], when [s] has a colon: the third
    part of [s.rpartition(':')]. *)
Fixpoint after_last_colon (s : string) : option string :=
  match s with
  | EmptyString => None
  | String c r =>
      match after_last_colon r with
      | Some t => Some t
      | None => if Ascii.eqb c ":"%char then Some r else None
      end
  end.

(** [s.replace(c, '')] for a character [c]. *)
Fixpoint remove_char (c : ascii) (s : string) : string :=
  match s with
  | EmptyString => EmptyString
  | String x r =>
      if Ascii.eqb x c then remove_char c r else String x (remove_char c r)
  end.

(** The value of a hexadecimal digit, of either case. *)
Definition hex_value (c : ascii) : option Z :=
  let n := Z.of_nat (nat_of_ascii c) in
  if (48 <=? n) && (n <=? 57) then Some (n - 48)
  else if (97 <=? n) && (n <=? 102) then Some (n - 87)
  else if (65 <=? n) && (n <=? 70) then Some (n - 55)
  else None.

Fixpoint a2b_hex_pairs (s : string) : exn + bytes :=
  match s with
  | EmptyString => inr []
  | String _ EmptyString => inl (ValueError "Odd-length string")
  | String c1 (String c2 r) =>
      match hex_value c1, hex_value c2 with
      | Some a, Some b =>
          match a2b_hex_pairs r with
          | inl e => inl e
          | inr bs => inr (byte_of_Z (16 * a + b) :: bs)
          end
      | _, _ => inl (ValueError "Non-hexadecimal digit found")
      end
  end.

(** [codecs.decode(s, 'hex')]: [binascii.Error] is a [ValueError]. *)
Definition hex_decode (s : string) : exn + bytes :=
  if Nat.odd (String.length s) then inl (ValueError "Odd-length string")
  else a2b_hex_pairs s.

(** The loop of [encode_bytes(f)] over [f.readlines()]; the two lines it
    prints for every line read are left out. *)
Fixpoint encode_bytes_loop (lines : list string) (allbytes : bytes)
  : exn + bytes :=
  match lines with
  | [] => inr allbytes
  | line :: lines' =>
      let line := match after_last_colon line with
                  | Some t => t
                  | None => line
                  end in
      let nospace := remove_char "010"%char (remove_char " "%char line) in
      if (0 <? String.length nospace)%nat then
        match hex_decode nospace with
        | inl e => inl e
        | inr b => encode_bytes_loop lines' (allbytes ++ b)
        end
      else encode_bytes_loop lines' allbytes
  end.

Definition encode_bytes (lines : list string) : exn + bytes :=
  encode_bytes_loop lines [].

(** [bytes.hex(' ')], as the split view of the printer writes the bytes it
    shows: two lower-case digits for a byte, a space between bytes. *)
Definition hex_digit (n : Z) : ascii :=
  match String.get (Z.to_nat n) "0123456789abcdef" with
  | Some c => c
  | None => "0"%char
  end.

Definition hex_byte (b : byte) (rest : string) : string :=
  String (hex_digit (_ord b / 16)) (String (hex_digit (_ord b mod 16)) rest).

Fixpoint hex_sep (bs : bytes) : string :=
  match bs with
  | [] => EmptyString
  | [b] => hex_byte b EmptyString
  | b :: r => hex_byte b (String " "%char (hex_sep r))
  end.

(** A line of a dump: any text, a colon and a space, the bytes in
    hexadecimal, the end of the line. *)
Definition dump_line (text : string) (bs : bytes) : string :=
  (text ++ ": " ++ hex_sep bs ++ String "010"%char EmptyString)%string.

(** The digits of [bs] with nothing between them. *)
Fixpoint hex_cat (bs : bytes) : string :=
  match bs with
  | [] => EmptyString
  | b :: r => hex_byte b (hex_cat r)
  end.

(** * Properties *)

(** ** Arithmetic of the packed integers *)

Lemma _ord_range (b : byte) : 0 <= _ord b < 256.
Proof.
  unfold _ord. pose proof (Byte.to_N_bounded b) as H. lia.
Qed.

Lemma getbits_low (x n : Z) : 0 <= n -> getbits x n 0 = x mod 2 ^ n.
Proof.
  intros Hn. unfold getbits. rewrite Z.shiftr_0_r.
  replace (Z.shiftl 1 n - 1) with (Z.ones n)
    by (unfold Z.ones; rewrite Z.sub_1_r; reflexivity).
  apply Z.land_ones; assumption.
Qed.

Lemma land_high_low (a v k : Z) :
  0 <= k -> 0 <= v < 2 ^ k -> Z.land (Z.shiftl a k) v = 0.
Proof.
  intros Hk Hv. apply Z.bits_inj'. intros i Hi.
  rewrite Z.land_spec, Z.bits_0.
  destruct (Z.lt_ge_cases i k) as [Hlt | Hge].
  - rewrite Z.shiftl_spec_low by assumption. reflexivity.
  - rewrite <- (Z.mod_small v (2 ^ k)) by assumption.
    rewrite Z.mod_pow2_bits_high by lia. apply andb_false_r.
Qed.

Lemma lor_shiftl_add (a v k : Z) :
  0 <= k -> 0 <= v < 2 ^ k -> Z.lor (Z.shiftl a k) v = a * 2 ^ k + v.
Proof.
  intros Hk Hv.
  rewrite <- Z.lxor_lor by (apply land_high_low; assumption).
  rewrite <- Z.add_nocarry_lxor by (apply land_high_low; assumption).
  rewrite Z.shiftl_mul_pow2 by assumption. reflexivity.
Qed.

Lemma be_uint_acc (bs : bytes) (acc : Z) :
  fold_left (fun a x => a * 256 + _ord x) bs acc
  = acc * 2 ^ (8 * Z.of_nat (List.length bs)) + be_uint bs.
Proof.
  unfold be_uint. revert acc.
  induction bs as [| x bs IH]; intros acc.
  - simpl. lia.
  - cbn [fold_left List.length]. rewrite IH. rewrite (IH (0 * 256 + _ord x)).
    replace (8 * Z.of_nat (S (List.length bs)))
      with (8 + 8 * Z.of_nat (List.length bs)) by lia.
    rewrite Z.pow_add_r by lia. change (2 ^ 8) with 256. ring.
Qed.

Lemma be_uint_cons (x : byte) (bs : bytes) :
  be_uint (x :: bs) = _ord x * 2 ^ (8 * Z.of_nat (List.length bs)) + be_uint bs.
Proof.
  unfold be_uint at 1. cbn [fold_left]. rewrite be_uint_acc. reflexivity.
Qed.

Lemma be_uint_range (bs : bytes) :
  0 <= be_uint bs < 2 ^ (8 * Z.of_nat (List.length bs)).
Proof.
  induction bs as [| x bs IH].
  - cbn. lia.
  - rewrite be_uint_cons. pose proof (_ord_range x) as Hx.
    replace (8 * Z.of_nat (List.length (x :: bs)))
      with (8 + 8 * Z.of_nat (List.length bs)) by (cbn [List.length]; lia).
    rewrite Z.pow_add_r by lia. change (2 ^ 8) with 256.
    set (p := 2 ^ (8 * Z.of_nat (List.length bs))) in *.
    assert (0 < p) by (apply Z.pow_pos_nonneg; lia). nia.
Qed.

Lemma get_int_acc_spec (n : nat) : forall (b : bytes) (r : Z),
  (n <= List.length b)%nat ->
  get_int_acc r b n
  = inr (fold_left (fun a x => a * 256 + _ord x) (firstn n b) r).
Proof.
  induction n as [| n IH]; intros b r Hlen.
  - reflexivity.
  - destruct b as [| x b]; [cbn in Hlen; lia |].
    cbn [get_int_acc firstn fold_left].
    rewrite IH by (cbn in Hlen; lia).
    rewrite lor_shiftl_add by (pose proof (_ord_range x); lia).
    reflexivity.
Qed.

Lemma get_int_acc_short (n : nat) : forall (b : bytes) (r : Z),
  (List.length b < n)%nat -> get_int_acc r b n = inl IndexError.
Proof.
  induction n as [| n IH]; intros b r Hlen; [lia |].
  destruct b as [| x b]; [reflexivity |].
  cbn [get_int_acc]. apply IH. cbn in Hlen. lia.
Qed.

Lemma get_int_spec (b : bytes) (sz : Z) :
  0 <= sz <= Z.of_nat (List.length b) ->
  get_int b sz = inr (be_uint (firstn (Z.to_nat sz) b)).
Proof.
  intros H. unfold get_int. rewrite get_int_acc_spec by lia. reflexivity.
Qed.

Lemma lor_ones_above (k v : Z) :
  0 <= k -> 0 <= v < 2 ^ k -> Z.lor (Z.shiftl (-1) k) v = - 2 ^ k + v.
Proof.
  intros Hk Hv. rewrite lor_shiftl_add by assumption. lia.
Qed.

(** Decide every comparison with a literal that occurs in the goal. *)
Ltac split_tests :=
  repeat match goal with
  | |- context [?a <? ?b] => destruct (Z.ltb_spec a b); try lia
  | |- context [?a <=? ?b] => destruct (Z.leb_spec a b); try lia
  | |- context [?a >=? ?b] =>
      rewrite (Z.geb_leb a b); destruct (Z.leb_spec b a); try lia
  end;
  cbn [orb andb negb].

Ltac markers :=
  unfold NEG_MULTI_MARKER, NEG_2BYTE_MARKER, NEG_1BYTE_MARKER,
    POS_1BYTE_MARKER, POS_2BYTE_MARKER, POS_MULTI_MARKER,
    NEG_2BYTE_MIN, NEG_1BYTE_MIN, POS_2BYTE_MAX, POS_1BYTE_MAX in *.

Ltac value_eq :=
  match goal with
  | |- inr (?a, ?r) = inr (?b, ?r) => replace a with b; [reflexivity |]
  end.

Lemma unpack_int_head (m : byte) (rest : bytes) :
  getitem (m :: rest) 0 = inr (_ord m).
Proof. reflexivity. Qed.

(** The six rows of the table, one lemma each. *)

Lemma unpack_int_neg1 (m : byte) (rest : bytes) :
  0x40 <= _ord m <= 0x7F ->
  unpack_int (m :: rest) = inr (- 2 ^ 6 + _ord m mod 2 ^ 6, rest).
Proof.
  intros H. unfold unpack_int. rewrite unpack_int_head. markers.
  split_tests. rewrite getbits_low by lia. reflexivity.
Qed.

Lemma unpack_int_pos1 (m : byte) (rest : bytes) :
  0x80 <= _ord m <= 0xBF ->
  unpack_int (m :: rest) = inr (_ord m mod 2 ^ 6, rest).
Proof.
  intros H. unfold unpack_int. rewrite unpack_int_head. markers.
  split_tests. rewrite getbits_low by lia. reflexivity.
Qed.

Lemma unpack_int_neg2 (m b1 : byte) (rest : bytes) :
  0x20 <= _ord m <= 0x3F ->
  unpack_int (m :: b1 :: rest)
  = inr ((- 2 ^ 13 - 2 ^ 6) + (_ord m mod 2 ^ 5 * 2 ^ 8 + _ord b1), rest).
Proof.
  intros H. unfold unpack_int. rewrite unpack_int_head. markers.
  split_tests. cbn [getitem nth_error skipn].
  rewrite getbits_low by lia.
  rewrite lor_shiftl_add by (pose proof (_ord_range b1); lia).
  value_eq. lia.
Qed.

Lemma unpack_int_pos2 (m b1 : byte) (rest : bytes) :
  0xC0 <= _ord m <= 0xDF ->
  unpack_int (m :: b1 :: rest)
  = inr (2 ^ 6 + (_ord m mod 2 ^ 5 * 2 ^ 8 + _ord b1), rest).
Proof.
  intros H. unfold unpack_int. rewrite unpack_int_head. markers.
  split_tests. cbn [getitem nth_error skipn].
  rewrite getbits_low by lia.
  rewrite lor_shiftl_add by (pose proof (_ord_range b1); lia).
  value_eq. lia.
Qed.

Lemma skipn_succ_cons (sz : Z) (m : byte) (rest : bytes) :
  0 <= sz -> skipn (Z.to_nat (sz + 1)) (m :: rest) = skipn (Z.to_nat sz) rest.
Proof.
  intros H. replace (Z.to_nat (sz + 1)) with (S (Z.to_nat sz)) by lia.
  reflexivity.
Qed.

Lemma unpack_int_posmulti (m : byte) (rest : bytes) :
  0xE0 <= _ord m <= 0xEF ->
  _ord m mod 16 <= Z.of_nat (List.length rest) ->
  unpack_int (m :: rest)
  = inr ((2 ^ 13 + 2 ^ 6) + be_uint (firstn (Z.to_nat (_ord m mod 16)) rest),
         skipn (Z.to_nat (_ord m mod 16)) rest).
Proof.
  intros H Hlen. unfold unpack_int. rewrite unpack_int_head. markers.
  split_tests. rewrite getbits_low by lia. change (2 ^ 4) with 16.
  assert (0 <= _ord m mod 16) by (apply Z.mod_pos_bound; lia).
  cbn [skipn]. rewrite get_int_spec by lia.
  rewrite skipn_succ_cons by lia. value_eq. lia.
Qed.

Lemma unpack_int_negmulti (m : byte) (rest : bytes) :
  0x10 <= _ord m <= 0x18 ->
  8 - _ord m mod 16 <= Z.of_nat (List.length rest) ->
  let following := firstn (Z.to_nat (8 - _ord m mod 16)) rest in
  unpack_int (m :: rest)
  = inr (- 2 ^ (8 * Z.of_nat (List.length following)) + be_uint following,
         skipn (Z.to_nat (8 - _ord m mod 16)) rest).
Proof.
  intros H Hlen following. unfold unpack_int. rewrite unpack_int_head. markers.
  cbv zeta. rewrite getbits_low by lia. change (2 ^ 4) with 16.
  assert (0 <= 8 - _ord m mod 16) by (Z.to_euclidean_division_equations; lia).
  split_tests.
  cbn [skipn]. rewrite get_int_spec by lia.
  rewrite skipn_succ_cons by lia. fold following.
  assert (Hl : Z.of_nat (List.length following) = 8 - _ord m mod 16)
    by (unfold following; rewrite length_firstn; lia).
  rewrite (Z.shiftl_mul_pow2 (8 - _ord m mod 16) 3) by lia. change (2 ^ 3) with 8.
  pose proof (be_uint_range following) as Hr.
  rewrite lor_ones_above.
  - value_eq. rewrite Hl. f_equal. f_equal. f_equal. lia.
  - lia.
  - replace ((8 - _ord m mod 16) * 8)
      with (8 * Z.of_nat (List.length following)) by lia.
    exact Hr.
Qed.

Lemma unpack_int_reserved (m : byte) (rest : bytes) :
  _ord m <= 0x0F \/ 0xF0 <= _ord m ->
  unpack_int (m :: rest) = inl (ValueError "Not a packed integer").
Proof.
  intros H. unfold unpack_int. rewrite unpack_int_head. markers.
  destruct H; split_tests; reflexivity.
Qed.

Lemma unpack_int_negmulti_bad (m : byte) (rest : bytes) :
  0x19 <= _ord m <= 0x1F ->
  unpack_int (m :: rest) = inl (ValueError "Not a valid packed integer").
Proof.
  intros H. unfold unpack_int. rewrite unpack_int_head. markers.
  cbv zeta. rewrite getbits_low by lia. change (2 ^ 4) with 16.
  assert (8 - _ord m mod 16 < 0) by (Z.to_euclidean_division_equations; lia).
  split_tests. reflexivity.
Qed.

(** The code and the table agree on every marker the code accepts. *)
Lemma unpack_int_table (m : byte) (rest : bytes) :
  0x10 <= _ord m <= 0x18 \/ 0x20 <= _ord m <= 0xEF ->
  table_following (_ord m) <= Z.of_nat (List.length rest) ->
  unpack_int (m :: rest)
  = inr (table_value (_ord m) (firstn (Z.to_nat (table_following (_ord m))) rest),
         skipn (Z.to_nat (table_following (_ord m))) rest).
Proof.
  intros Hm Hlen.
  assert (Hcases : 0x10 <= _ord m <= 0x18 \/ 0x20 <= _ord m <= 0x3F
                   \/ 0x40 <= _ord m <= 0x7F \/ 0x80 <= _ord m <= 0xBF
                   \/ 0xC0 <= _ord m <= 0xDF \/ 0xE0 <= _ord m <= 0xEF) by lia.
  destruct Hcases as [H | [H | [H | [H | [H | H]]]]].
  - revert Hlen. unfold table_following, table_value. split_tests. intros Hlen.
    apply unpack_int_negmulti; assumption.
  - revert Hlen. unfold table_following, table_value. split_tests. intros Hlen.
    destruct rest as [| b1 rest]; [cbn in Hlen; lia |].
    change (Z.to_nat 1) with 1%nat. cbn [firstn skipn].
    rewrite be_uint_cons. cbn. rewrite Z.mul_1_r, Z.add_0_r.
    apply unpack_int_neg2; assumption.
  - revert Hlen. unfold table_following, table_value. split_tests. intros _.
    apply unpack_int_neg1; assumption.
  - revert Hlen. unfold table_following, table_value. split_tests. intros _.
    apply unpack_int_pos1; assumption.
  - revert Hlen. unfold table_following, table_value. split_tests. intros Hlen.
    destruct rest as [| b1 rest]; [cbn in Hlen; lia |].
    change (Z.to_nat 1) with 1%nat. cbn [firstn skipn].
    rewrite be_uint_cons. cbn. rewrite Z.mul_1_r, Z.add_0_r.
    apply unpack_int_pos2; assumption.
  - revert Hlen. unfold table_following, table_value. split_tests. intros Hlen.
    apply unpack_int_posmulti; assumption.
Qed.

(** Without enough following bytes the decoder raises [IndexError], never
    a [ValueError]. *)
Lemma unpack_int_accepted_not_ValueError (m : byte) (rest : bytes) (msg : string) :
  0x10 <= _ord m <= 0x18 \/ 0x20 <= _ord m <= 0xEF ->
  unpack_int (m :: rest) <> inl (ValueError msg).
Proof.
  intros Hm.
  destruct (Z.le_gt_cases (table_following (_ord m)) (Z.of_nat (List.length rest)))
    as [Hle | Hgt].
  - rewrite unpack_int_table by assumption. discriminate.
  - unfold unpack_int. rewrite unpack_int_head. markers. cbv zeta.
    revert Hgt. unfold table_following.
    rewrite !getbits_low by lia. change (2 ^ 4) with 16.
    assert (0 <= _ord m mod 16 < 16) by (apply Z.mod_pos_bound; lia).
    assert (Hcases : 0x10 <= _ord m <= 0x18 \/ 0x20 <= _ord m <= 0x3F
                   \/ 0x40 <= _ord m <= 0x7F \/ 0x80 <= _ord m <= 0xBF
                   \/ 0xC0 <= _ord m <= 0xDF \/ 0xE0 <= _ord m <= 0xEF) by lia.
    destruct Hcases as [H' | [H' | [H' | [H' | [H' | H']]]]];
      split_tests; intros Hgt; try lia.
    + assert (0 <= 8 - _ord m mod 16)
        by (Z.to_euclidean_division_equations; lia).
      split_tests. cbn [skipn]. unfold get_int.
      rewrite get_int_acc_short by lia. discriminate.
    + destruct rest; [cbn; discriminate | cbn in Hgt; lia].
    + destruct rest; [cbn; discriminate | cbn in Hgt; lia].
    + cbn [skipn]. unfold get_int.
      rewrite get_int_acc_short by lia. discriminate.
Qed.

(** C1, as the code has it. For every marker the decoder accepts, that is
    0x10-0x18 and 0x20-0xEF, and every input that holds the following bytes
    the marker calls for, [unpack_int] returns the value of the marker table
    and the input after those bytes; the seven boundary values sit at the
    ends of their marker ranges. *)
Theorem unpack_int_marker_table :
  (forall (m : byte) (rest : bytes),
      0x10 <= _ord m <= 0x18 \/ 0x20 <= _ord m <= 0xEF ->
      table_following (_ord m) <= Z.of_nat (List.length rest) ->
      unpack_int (m :: rest)
      = inr (table_value (_ord m)
               (firstn (Z.to_nat (table_following (_ord m))) rest),
             skipn (Z.to_nat (table_following (_ord m))) rest))
  /\ unpack_int [x40] = inr (- 2 ^ 6, [])
  /\ unpack_int [x7f] = inr (- 1, [])
  /\ unpack_int [x80] = inr (0, [])
  /\ unpack_int [xbf] = inr (2 ^ 6 - 1, [])
  /\ unpack_int [xc0; x00] = inr (2 ^ 6, [])
  /\ unpack_int [xdf; xff] = inr (2 ^ 13 + 2 ^ 6 - 1, [])
  /\ unpack_int [xe0] = inr (2 ^ 13 + 2 ^ 6, []).
Proof.
  split; [exact unpack_int_table |].
  repeat split; reflexivity.
Qed.

Lemma unpack_int_marker_table_witness :
  unpack_int [xe2; x01; x00; x09]
  = inr (table_value (_ord xe2) [x01; x00], [x09]).
Proof.
  apply (proj1 unpack_int_marker_table xe2 [x01; x00; x09]).
  - right. vm_compute. split; discriminate.
  - vm_compute. discriminate.
Defined.

(** C1 fails at the marker 0x19: it lies in 0x10-0xEF, its low nibble 9 calls
    for 8 - 9 following bytes, which any input holds, and the decoder raises
    instead of returning a value. *)
Lemma unpack_int_marker_0x19 :
  0x10 <= _ord x19 <= 0xEF
  /\ table_following (_ord x19) <= Z.of_nat (List.length (@nil byte))
  /\ unpack_int [x19] = inl (ValueError "Not a valid packed integer").
Proof.
  repeat split; try reflexivity; vm_compute; discriminate.
Qed.

(** C2, as the code has it. [unpack_int] raises a [ValueError] exactly when
    the first byte is in 0x00-0x0F, 0x19-0x1F or 0xF0-0xFF; for every other
    first byte and enough following bytes it returns a value. *)
Theorem unpack_int_fails_iff (m : byte) (rest : bytes) :
  ((exists msg, unpack_int (m :: rest) = inl (ValueError msg))
   <-> (_ord m <= 0x0F \/ 0x19 <= _ord m <= 0x1F \/ 0xF0 <= _ord m))
  /\ (0x10 <= _ord m <= 0x18 \/ 0x20 <= _ord m <= 0xEF ->
      table_following (_ord m) <= Z.of_nat (List.length rest) ->
      exists v, unpack_int (m :: rest)
                = inr (v, skipn (Z.to_nat (table_following (_ord m))) rest)).
Proof.
  split; [split |].
  - intros [msg Hmsg].
    destruct (Z.le_gt_cases (_ord m) 0x0F); [lia |].
    destruct (Z.le_gt_cases 0xF0 (_ord m)); [lia |].
    destruct (Z.le_gt_cases 0x19 (_ord m)) as [H19 | H19];
      [destruct (Z.le_gt_cases (_ord m) 0x1F); [lia |] |];
      exfalso; apply (unpack_int_accepted_not_ValueError m rest msg); 
      try assumption; lia.
  - intros [H | [H | H]].
    + exists "Not a packed integer"%string. apply unpack_int_reserved. lia.
    + exists "Not a valid packed integer"%string.
      apply unpack_int_negmulti_bad. assumption.
    + exists "Not a packed integer"%string. apply unpack_int_reserved. lia.
  - intros Hm Hlen. eexists. apply unpack_int_table; assumption.
Qed.

Lemma unpack_int_fails_iff_witness :
  exists v, unpack_int [xc3; x07] = inr (v, []).
Proof.
  apply (proj2 (unpack_int_fails_iff xc3 [x07])).
  - right. vm_compute. split; discriminate.
  - vm_compute. discriminate.
Defined.

(** C2 fails at the first byte 0x1A: it is outside 0x00-0x0F and 0xF0-0xFF,
    and the decoder raises the malformed-integer error all the same. *)
Lemma unpack_int_first_byte_0x1a :
  0x10 <= _ord x1a <= 0xEF
  /\ unpack_int [x1a; x00; x00; x00; x00; x00; x00; x00; x00]
     = inl (ValueError "Not a valid packed integer").
Proof.
  repeat split; try reflexivity; vm_compute; discriminate.
Qed.

(** ** Reasoning in the decoding monad *)

Lemma bind_inr {A B} (m : M A) (k : A -> M B) (b : BinFile) (c : B) :
  res_val (bind m k b) = inr c ->
  exists a, res_val (m b) = inr a /\ res_val (k a (res_file (m b))) = inr c.
Proof.
  unfold bind. cbv zeta. destruct (res_val (m b)) as [e | a]; cbn.
  - discriminate.
  - intros H. exists a. split; [reflexivity | exact H].
Qed.

Lemma bind_run {A B} (m : M A) (k : A -> M B) (b : BinFile) (a : A) :
  res_val (m b) = inr a ->
  bind m k b
  = mkResult (res_file (k a (res_file (m b))))
             (res_out (m b) ++ res_out (k a (res_file (m b))))
             (res_val (k a (res_file (m b)))).
Proof. intros H. unfold bind. cbv zeta. rewrite H. reflexivity. Qed.

Lemma bind_raise {A B} (m : M A) (k : A -> M B) (b : BinFile) (e : exn) :
  res_val (m b) = inl e ->
  bind m k b = mkResult (res_file (m b)) (res_out (m b)) (inl e).
Proof. intros H. unfold bind. cbv zeta. rewrite H. reflexivity. Qed.

Lemma post_ret {A} (a : A) (Q : A -> Prop) : Q a -> post (ret a) Q.
Proof. intros H b a' E. cbn in E. injection E as <-. exact H. Qed.

Lemma post_bind {A B} (m : M A) (k : A -> M B) (Q1 : A -> Prop) (Q2 : B -> Prop) :
  post m Q1 -> (forall a, Q1 a -> post (k a) Q2) -> post (bind m k) Q2.
Proof.
  intros Hm Hk b c E. apply bind_inr in E as (a & Ea & Ec).
  exact (Hk a (Hm b a Ea) _ c Ec).
Qed.

Lemma post_any {A} (m : M A) : post m (fun _ => True).
Proof. intros b a _. exact I. Qed.

Lemma post_weaken {A} (m : M A) (Q1 Q2 : A -> Prop) :
  post m Q1 -> (forall a, Q1 a -> Q2 a) -> post m Q2.
Proof. intros H HQ b a E. apply HQ. exact (H b a E). Qed.

(** Run the binds whose first action has any result, then the final [ret]. *)
Ltac post_step :=
  first [ apply post_ret
        | eapply post_bind; [apply post_any | intros ? _] ].

(** ** Statistics of keys *)

Lemma same_keys_refl (s : PageStats) : same_keys s s.
Proof. split; reflexivity. Qed.

Lemma same_keys_count_ts (f : ts_field) (sz : Z) (s s' : PageStats) :
  same_keys s s' -> same_keys s (count_ts f sz s').
Proof. intros [H1 H2]. destruct f; split; cbn; assumption. Qed.

Lemma post_timestamp_field (extra mask : Z) (f : ts_field) (label : string)
    (s s' : PageStats) :
  same_keys s s' ->
  post (timestamp_field extra mask f label s') (same_keys s).
Proof.
  intros H. unfold timestamp_field.
  destruct (negb (Z.land extra mask =? 0)).
  - repeat post_step. apply same_keys_count_ts. exact H.
  - apply post_ret. exact H.
Qed.

Lemma post_process_timestamps (extra : Z) (s : PageStats) :
  post (process_timestamps extra s) (same_keys s).
Proof.
  unfold process_timestamps. destruct (negb (extra =? 0)).
  - do 2 post_step.
    eapply post_bind; [apply post_timestamp_field, same_keys_refl | intros s1 H1].
    eapply post_bind; [apply post_timestamp_field, H1 | intros s2 H2].
    eapply post_bind; [apply post_timestamp_field, H2 | intros s3 H3].
    eapply post_bind; [apply post_timestamp_field, H3 | intros s4 H4].
    eapply post_bind; [apply post_timestamp_field, H4 | intros s5 H5].
    eapply post_bind; [apply post_timestamp_field, H5 | intros s6 H6].
    do 2 post_step. exact H6.
  - apply post_ret, same_keys_refl.
Qed.

Lemma post_cell_long_fields (desc : Z) (s : PageStats) :
  post (cell_long_fields desc s) (fun r => same_keys s (snd r)).
Proof.
  unfold cell_long_fields.
  eapply post_bind with (Q1 := fun r => same_keys s (snd r)).
  - destruct (negb (Z.land desc 8 =? 0)).
    + do 2 post_step.
      eapply post_bind; [apply post_process_timestamps | intros s1 H1].
      apply post_ret. exact H1.
    + apply post_ret, same_keys_refl.
  - intros [[extra d] s1] H1. cbn in H1.
    destruct (negb (Z.land desc 4 =? 0)); repeat post_step; exact H1.
Qed.

Ltac split_tag t :=
  repeat match goal with
  | |- context [t =? ?k] =>
      destruct (Z.eqb_spec t k); try (exfalso; congruence); cbv beta iota
  end.

Lemma post_cell_long_type (desc extra : Z) (d : option Z) (s s1 : PageStats) :
  Z.land desc 3 = 0 -> same_keys s s1 ->
  post (cell_long_type desc extra d s1) (key_accounting desc s).
Proof.
  intros Hshort [Hn Hk]. unfold key_accounting, key_like. rewrite Hshort.
  cbv zeta. change (0 =? 0) with true. cbv beta iota.
  unfold cell_long_type, celltype_string. cbv zeta.
  set (t := Z.shiftr (Z.land desc 240) 4).
  split_tag t; cbn [String.eqb Ascii.eqb Bool.eqb orb andb];
    repeat post_step; cbn [fst snd cell_length];
    try (split; cbn; congruence);
    (do 2 eexists; split; [reflexivity | cbn; split; congruence]).
Qed.

Lemma post_cell_body (desc : Z) (s : PageStats) :
  post (cell_body desc s) (key_accounting desc s).
Proof.
  unfold cell_body. cbv zeta.
  destruct (Z.eqb_spec (Z.land desc 3) 0) as [H0 | H0].
  - eapply post_bind; [apply post_cell_long_fields | intros [[extra d] s1] H1].
    cbn in H1. apply post_cell_long_type; assumption.
  - unfold key_accounting, key_like. cbv zeta.
    destruct (Z.eqb_spec (Z.land desc 3) 0) as [| _]; [contradiction |].
    destruct (Z.eqb_spec (Z.land desc 3) 2) as [H2 | H2].
    + rewrite orb_true_r. repeat post_step.
      do 2 eexists. split; [reflexivity | split; reflexivity].
    + rewrite orb_false_r.
      destruct (Z.eqb_spec (Z.land desc 3) 1) as [H1 | H1]; repeat post_step.
      * do 2 eexists. split; [reflexivity | split; reflexivity].
      * apply same_keys_refl.
Qed.

(** ** Streams *)

Lemma unread_advance (b : BinFile) (k : nat) :
  unread (mkBinFile (fileobj b) (position b + k)) = skipn k (unread b).
Proof.
  unfold unread. cbn [fileobj position]. rewrite skipn_skipn.
  f_equal. apply Nat.add_comm.
Qed.

Lemma read_run (n : Z) (b : BinFile) :
  0 <= n <= sys_maxsize ->
  read n b
  = mkResult (mkBinFile (fileobj b)
                (position b + List.length (firstn (Z.to_nat n) (unread b))))
             [] (inr (firstn (Z.to_nat n) (unread b))).
Proof.
  intros H. unfold read.
  destruct (Z.ltb_spec n 0); [lia |].
  destruct (Z.gtb_spec n sys_maxsize); [lia |]. reflexivity.
Qed.

Lemma uint8_cons (b : BinFile) (d : byte) (rest : bytes) :
  unread b = d :: rest ->
  uint8 b = mkResult (mkBinFile (fileobj b) (position b + 1)) [] (inr (_ord d)).
Proof.
  intros H. unfold uint8, bind. cbv zeta.
  rewrite read_run by (unfold sys_maxsize; lia). rewrite H.
  change (Z.to_nat 1) with 1%nat.
  cbn [res_val res_file res_out ret firstn List.length app from_bytes_little].
  rewrite Z.mul_0_r, Z.add_0_r. reflexivity.
Qed.

Lemma ord_byte_of_Z (z : Z) : 0 <= z < 256 -> _ord (byte_of_Z z) = z.
Proof.
  intros H. unfold byte_of_Z, _ord.
  destruct (Byte.of_N (Z.to_N z)) as [x |] eqn:E.
  - apply Byte.to_of_N in E. lia.
  - apply Byte.of_N_None_iff in E. lia.
Qed.

Lemma short_desc_bits (len : Z) :
  0 <= len <= 63 ->
  Z.land (4 * len + 1) 3 = 1 /\ Z.shiftr (Z.land (4 * len + 1) 0xfc) 2 = len.
Proof.
  intros H. split.
  - change 3 with (Z.ones 2). rewrite Z.land_ones by lia.
    change (2 ^ 2) with 4. Z.to_euclidean_division_equations. lia.
  - rewrite Z.shiftr_land. change (Z.shiftr 252 2) with (Z.ones 6).
    rewrite Z.land_ones by lia. rewrite Z.shiftr_div_pow2 by lia.
    change (2 ^ 2) with 4. change (2 ^ 6) with 64.
    Z.to_euclidean_division_equations. lia.
Qed.

(** ** The only exceptions of the packed integers *)


Lemma bind_val {A B} (m : M A) (k : A -> M B) (b : BinFile) (a : A) :
  res_val (m b) = inr a ->
  res_val (bind m k b) = res_val (k a (res_file (m b))).
Proof. intros H. rewrite (bind_run m k b a H). reflexivity. Qed.

Lemma bind_file {A B} (m : M A) (k : A -> M B) (b : BinFile) (a : A) :
  res_val (m b) = inr a ->
  res_file (bind m k b) = res_file (k a (res_file (m b))).
Proof. intros H. rewrite (bind_run m k b a H). reflexivity. Qed.

(** ** The only exceptions of the packed integers *)

Lemma get_int_acc_exn (n : nat) : forall (b : bytes) (r : Z) (e : exn),
  get_int_acc r b n = inl e -> e = IndexError.
Proof.
  induction n as [| n IH]; intros b r e H; [discriminate |].
  destruct b as [| x b]; cbn in H.
  - congruence.
  - exact (IH _ _ _ H).
Qed.

Lemma unpack_int_exn (b : bytes) (e : exn) :
  unpack_int b = inl e -> e = IndexError \/ exists msg, e = ValueError msg.
Proof.
  unfold unpack_int, getitem, get_int. cbv zeta. intros H.
  repeat (cbv beta iota in H;
    match type of H with
    | context [nth_error ?l ?i] => destruct (nth_error l i)
    | (if ?c then _ else _) = _ => destruct c
    | match get_int_acc ?r ?l ?n with _ => _ end = _ =>
        let E := fresh "E" in
        destruct (get_int_acc r l n) eqn:E;
        [apply get_int_acc_exn in E; subst |]
    end);
  try discriminate; injection H as <-; eauto.
Qed.

Lemma raw_bytes_loop_exn (fuel : nat) : forall (s : bytes) (e : exn),
  raw_bytes_loop fuel s = inl e ->
  e = IndexError \/ exists msg, e = ValueError msg.
Proof.
  induction fuel as [| fuel IH]; intros s e H; [discriminate |].
  cbn [raw_bytes_loop] in H. destruct s as [| c s]; [discriminate |].
  destruct (_ord c >=? 127); [| discriminate].
  destruct (unpack_int (c :: s)) as [e' | [v s']] eqn:E.
  - injection H as <-. exact (unpack_int_exn _ _ E).
  - exact (IH _ _ H).
Qed.

Lemma raw_bytes_exn (x : bytes) (e : exn) :
  raw_bytes x = inl e -> e = IndexError \/ exists msg, e = ValueError msg.
Proof.
  unfold raw_bytes. destruct (raw_bytes_loop _ x) eqn:E; [| discriminate].
  intros H. injection H as <-. exact (raw_bytes_loop_exn _ _ _ E).
Qed.

(** Showing a decoded cell never raises and leaves the stream alone. *)
Lemma cell_show_Some (cellpos : Z) (d : option Z) (c : cell_s) (x : bytes)
    (b : BinFile) :
  res_val (cell_show cellpos d (Some (c, x)) b) = inr tt
  /\ res_file (cell_show cellpos d (Some (c, x)) b) = b.
Proof.
  unfold cell_show, try_except, bind, rint_v, emit, lift. cbv zeta.
  cbn [res_val res_file res_out].
  destruct (raw_bytes x) as [e | l] eqn:E; cbn [res_val res_file res_out raise ret].
  - apply raw_bytes_exn in E as [-> | [msg ->]]; cbn; split; reflexivity.
  - split; reflexivity.
Qed.

(** One iteration, given what [cell_read] and [cell_show] do. *)
Lemma decode_cell_run (cellnum cellpos : Z) (s s' : PageStats) (b : BinFile)
    (d : option Z) (sx : option (cell_s * bytes)) :
  res_val (cell_read s b) = inr (d, sx, s') ->
  res_val (cell_show cellpos d sx (res_file (cell_read s b))) = inr tt ->
  decode_cell cellnum cellpos s b
  = mkResult (res_file (cell_show cellpos d sx (res_file (cell_read s b))))
      (Begin_cell cellnum cellpos
       :: res_out (cell_read s b)
       ++ res_out (cell_show cellpos d sx (res_file (cell_read s b)))
       ++ [End_cell])
      (inr s').
Proof.
  intros Hr Hs. unfold decode_cell, try_finally, begin_cell, end_cell, emit, bind.
  cbv zeta. cbn [res_val res_file res_out]. rewrite Hr.
  cbn [res_val res_file res_out]. rewrite Hs.
  cbn [res_val res_file res_out ret app].
  rewrite app_nil_r, <- app_assoc. reflexivity.
Qed.

Lemma cell_read_short_key (s : PageStats) (b : BinFile) (data rest : bytes) :
  (List.length data <= 63)%nat ->
  unread b = short_key_cell data ++ rest ->
  cell_read s b
  = mkResult (mkBinFile (fileobj b) (position b + S (List.length data))) []
      (inr (Some (4 * Z.of_nat (List.length data) + 1),
            Some (s_short_key (Z.of_nat (List.length data)), data),
            count_key (Z.of_nat (List.length data)) s)).
Proof.
  intros Hlen Hun. unfold short_key_cell in Hun. cbn [app] in Hun.
  unfold cell_read, bind. cbv zeta.
  rewrite (uint8_cons b _ _ Hun). cbn [res_val res_file res_out].
  rewrite ord_byte_of_Z by lia.
  destruct (short_desc_bits (Z.of_nat (List.length data))) as [E1 E2]; [lia |].
  unfold cell_body. cbv zeta. rewrite E1, E2.
  change (1 =? 0) with false. change (1 =? 2) with false.
  change (1 =? 1) with true. cbv iota. unfold bind. cbv zeta.
  rewrite read_run by (unfold sys_maxsize; lia).
  rewrite unread_advance, Hun. cbn [skipn res_val res_file res_out ret app fileobj position].
  rewrite Nat2Z.id, firstn_app, firstn_all, Nat.sub_diag, firstn_0, app_nil_r.
  do 2 f_equal. lia.
Qed.

Lemma decode_cell_short_key (cellnum cellpos : Z) (s : PageStats) (b : BinFile)
    (data rest : bytes) :
  (List.length data <= 63)%nat ->
  unread b = short_key_cell data ++ rest ->
  res_val (decode_cell cellnum cellpos s b)
  = inr (count_key (Z.of_nat (List.length data)) s)
  /\ res_file (decode_cell cellnum cellpos s b)
     = mkBinFile (fileobj b) (position b + S (List.length data)).
Proof.
  intros Hlen Hun.
  pose proof (cell_read_short_key s b data rest Hlen Hun) as Hr.
  assert (Hv : res_val (cell_read s b)
               = inr (Some (4 * Z.of_nat (List.length data) + 1),
                      Some (s_short_key (Z.of_nat (List.length data)), data),
                      count_key (Z.of_nat (List.length data)) s))
    by (rewrite Hr; reflexivity).
  destruct (cell_show_Some cellpos (Some (4 * Z.of_nat (List.length data) + 1))
              (s_short_key (Z.of_nat (List.length data))) data
              (res_file (cell_read s b))) as [Hs1 Hs2].
  rewrite (decode_cell_run cellnum cellpos _ _ _ _ _ Hv Hs1).
  cbn [res_val res_file]. split; [reflexivity |].
  rewrite Hs2, Hr. reflexivity.
Qed.

Lemma sum_lengths_cons (d : bytes) (cells : list bytes) :
  sum_lengths (d :: cells) = Z.of_nat (List.length d) + sum_lengths cells.
Proof. reflexivity. Qed.

Lemma row_loop_short_keys (cells : list bytes) :
  forall (cellnum : Z) (ph : PageHeader) (s : PageStats) (b : BinFile)
         (rest : bytes),
  Forall (fun d => (List.length d <= 63)%nat) cells ->
  unread b = List.concat (map short_key_cell cells) ++ rest ->
  Z.of_nat (position b + List.length (List.concat (map short_key_cell cells)))
  <= memsize ph ->
  exists s',
    res_val (row_decode_loop (List.length cells) cellnum ph s b) = inr s'
    /\ num_keys s' = num_keys s + Z.of_nat (List.length cells)
    /\ keys_sz s' = keys_sz s + sum_lengths cells.
Proof.
  induction cells as [| data cells IH]; intros cellnum ph s b rest Hall Hun Hmem.
  - exists s. cbn. repeat split; lia.
  - inversion Hall as [| ? ? Hd Hall']; subst.
    cbn [map List.concat] in Hun, Hmem. rewrite <- app_assoc in Hun.
    rewrite length_app in Hmem.
    assert (Hcell : List.length (short_key_cell data) = S (List.length data))
      by reflexivity.
    destruct (decode_cell_short_key cellnum (Z.of_nat (position b)) s b data _
                Hd Hun) as [Hv Hf].
    cbn [List.length row_decode_loop].
    unfold bind at 1, tell. cbv zeta. cbn [res_val res_file res_out].
    rewrite Z.geb_leb.
    destruct (Z.leb_spec (memsize ph) (Z.of_nat (position b))); [lia |].
    cbn [app res_val]. rewrite (bind_val _ _ _ _ Hv), Hf.
    destruct (IH (cellnum + 1) ph (count_key (Z.of_nat (List.length data)) s)
                (mkBinFile (fileobj b) (position b + S (List.length data))) rest)
      as (s' & Hs' & Hn & Hk).
    + exact Hall'.
    + rewrite unread_advance, Hun. unfold short_key_cell. cbn [app skipn].
      rewrite skipn_app, skipn_all, Nat.sub_diag. reflexivity.
    + cbn [position]. lia.
    + exists s'. split; [exact Hs' |].
      rewrite Hn, Hk, sum_lengths_cons. cbn [count_key num_keys keys_sz List.length].
      split; lia.
Qed.

(** C3. A cell that decodes adds one to [num_keys] and its decoded length to
    [keys_sz] when its descriptor announces a key (short key, short key with
    prefix, key, key-prefix, address-leaf-no-overflow, key-overflow), and
    leaves both fields alone otherwise; and a page of N short-key cells ends
    with [num_keys] raised by N and [keys_sz] by the sum of their lengths. *)
Theorem key_cells_are_counted :
  (forall (desc : Z) (s : PageStats) (b : BinFile) (r : cell_locals),
      res_val (cell_body desc s b) = inr r -> key_accounting desc s r)
  /\ (forall (cells : list bytes) (pagehead : PageHeader)
             (blockhead : BlockHeader) (b : BinFile) (rest : bytes),
         Forall (fun d => (List.length d <= 63)%nat) cells ->
         unread b = List.concat (map short_key_cell cells) ++ rest ->
         ncells pagehead = Z.of_nat (List.length cells) ->
         Z.of_nat (position b + List.length (List.concat (map short_key_cell cells)))
         <= memsize pagehead ->
         exists s',
           res_val (row_decode pagehead blockhead PageStats_new b) = inr s'
           /\ num_keys s' = Z.of_nat (List.length cells)
           /\ keys_sz s' = sum_lengths cells).
Proof.
  split.
  - intros desc s b r H. exact (post_cell_body desc s b r H).
  - intros cells ph bh b rest Hall Hun Hn Hmem. unfold row_decode.
    rewrite Hn, Nat2Z.id.
    destruct (row_loop_short_keys cells 0 ph PageStats_new b rest Hall Hun Hmem)
      as (s' & Hs' & Hk & Hz).
    exists s'. repeat split; assumption.
Qed.

Lemma key_cells_are_counted_witness :
  exists s',
    res_val (row_decode (mkPageHeader 0 0 47 2 7 0 1) (mkBlockHeader 47 0 0)
               PageStats_new
               (mkBinFile (repeat x00 40 ++ [x09; x61; x62; x0d; x63; x64; x65])
                  40))
    = inr s'
    /\ num_keys s' = 2 /\ keys_sz s' = 5.
Proof.
  apply (proj2 key_cells_are_counted [[x61; x62]; [x63; x64; x65]]
           (mkPageHeader 0 0 47 2 7 0 1) (mkBlockHeader 47 0 0)
           (mkBinFile (repeat x00 40 ++ [x09; x61; x62; x0d; x63; x64; x65]) 40)
           []).
  - repeat constructor.
  - reflexivity.
  - reflexivity.
  - vm_compute. discriminate.
Defined.

(** ** Lengths of long-form cells *)

Lemma unpack_uint64_inv (b : BinFile) (v : Z) :
  res_val (unpack_uint64 b) = inr v ->
  exists rest, unpack_int (unread b) = inr (v, rest).
Proof.
  unfold unpack_uint64, bind, unpack_uint64_with_sz. cbv zeta.
  destruct (unpack_int (unread b)) as [e | [v' rest]].
  - destruct e; cbn; discriminate.
  - cbn. intros H. injection H as <-. exists rest. reflexivity.
Qed.

Lemma long_length_inv (b : BinFile) (l : Z) :
  res_val (long_length b) = inr l ->
  exists v rest, unpack_int (unread b) = inr (v, rest) /\ l = v + 64.
Proof.
  unfold long_length. intros H.
  apply bind_inr in H as (v & Hv & H).
  apply unpack_uint64_inv in Hv as [rest Hv].
  apply bind_inr in H as (u & _ & H). cbn in H. injection H as <-.
  exists v, rest. split; [exact Hv | reflexivity].
Qed.

Lemma uint8_unread (b : BinFile) :
  exists p, res_val (uint8 b) = inr p
            /\ unread (res_file (uint8 b)) = skipn 1 (unread b).
Proof.
  unfold uint8, bind. cbv zeta.
  rewrite read_run by (unfold sys_maxsize; lia).
  cbn [res_val res_file res_out ret]. eexists. split; [reflexivity |].
  rewrite unread_advance. change (Z.to_nat 1) with 1%nat.
  destruct (unread b) as [| x l]; reflexivity.
Qed.

(** The length and the description of a cell whose body is [l <- len ;;
    x <- read l ;; ret (d, Some (mk l, x), s)]. *)
Lemma sized_cell_inv (len : M Z) (mk : Z -> cell_s) (d d' : option Z)
    (st : Z -> PageStats) (s'' : PageStats) (c : cell_s) (x : bytes)
    (b : BinFile) :
  res_val ((l <- len ;; x <- read l ;; ret (d, Some (mk l, x), st l)) b)
  = inr (d', Some (c, x), s'') ->
  exists l, res_val (len b) = inr l /\ c = mk l.
Proof.
  intros H. apply bind_inr in H as (l & Hl & H).
  apply bind_inr in H as (x' & _ & H). cbn in H.
  injection H as _ <- _ _. exists l. split; [exact Hl | reflexivity].
Qed.

Lemma cell_body_long_inv (desc : Z) (s : PageStats) (b : BinFile)
    (r : cell_locals) :
  Z.land desc 3 = 0 ->
  res_val (cell_body desc s b) = inr r ->
  exists extra d1 s1,
    res_val (cell_long_fields desc s b) = inr (extra, d1, s1)
    /\ res_val (cell_long_type desc extra d1 s1
                  (res_file (cell_long_fields desc s b))) = inr r.
Proof.
  intros Hs H. unfold cell_body in H. cbv zeta in H. rewrite Hs in H.
  change (0 =? 0) with true in H. cbv iota in H.
  apply bind_inr in H as ([[extra d1] s1] & Hf & H).
  exists extra, d1, s1. split; assumption.
Qed.

Lemma cell_long_fields_plain (desc : Z) (s : PageStats) (b : BinFile) :
  Z.land desc 8 = 0 -> Z.land desc 4 = 0 ->
  cell_long_fields desc s b = mkResult b [] (inr (0, Some desc, s)).
Proof.
  intros H8 H4. unfold cell_long_fields. rewrite H8, H4. reflexivity.
Qed.

(** C9. In a long-form cell that decodes, the data length of a key, an
    address-leaf-no-overflow or a key-prefix cell is the packed integer read
    at the length field plus 64, and that of a key-overflow or value-overflow
    cell is the packed integer itself. The length field starts where the
    optional fields of the descriptor end (right after the descriptor when
    there are none), after the prefix byte for a key-prefix cell. *)
Theorem long_cell_lengths (desc : Z) (s s' : PageStats) (b : BinFile)
    (d : option Z) (c : cell_s) (x : bytes) :
  Z.land desc 3 = 0 ->
  res_val (cell_body desc s b) = inr (d, Some (c, x), s') ->
  let tag := Z.shiftr (Z.land desc 0xf0) 4 in
  let b1 := res_file (cell_long_fields desc s b) in
  (Z.land desc 8 = 0 -> Z.land desc 4 = 0 -> b1 = b)
  /\ (tag = 5 \/ tag = 3 ->
      exists v rest, unpack_int (unread b1) = inr (v, rest)
                     /\ cell_length c = v + 64)
  /\ (tag = 7 ->
      exists v rest, unpack_int (skipn 1 (unread b1)) = inr (v, rest)
                     /\ cell_length c = v + 64)
  /\ (tag = 6 \/ tag = 10 ->
      exists v rest, unpack_int (unread b1) = inr (v, rest)
                     /\ cell_length c = v).
Proof.
  intros Hshort H tag b1.
  apply cell_body_long_inv in H as (extra & d1 & s1 & Hf & H);
    [| exact Hshort].
  fold b1 in H. unfold cell_long_type in H. cbv zeta in H. fold tag in H.
  split; [| split; [| split]].
  - intros H8 H4. unfold b1. rewrite cell_long_fields_plain by assumption.
    reflexivity.
  - intros [Ht | Ht]; rewrite Ht in H; cbn [celltype_string Z.eqb Pos.eqb] in H;
      cbn [String.eqb Ascii.eqb Bool.eqb] in H;
      apply sized_cell_inv in H as (l & Hl & ->);
      apply long_length_inv in Hl as (v & rest & Hv & ->);
      exists v, rest; split; [exact Hv | reflexivity | exact Hv | reflexivity].
  - intros Ht. rewrite Ht in H. cbn [celltype_string Z.eqb Pos.eqb] in H.
    cbn [String.eqb Ascii.eqb Bool.eqb] in H.
    apply bind_inr in H as (p & Hp & H).
    destruct (uint8_unread b1) as (p' & Hp' & Hun).
    apply bind_inr in H as (l & Hl & H).
    apply bind_inr in H as (x' & _ & H). cbn in H. injection H as _ <- _ _.
    apply long_length_inv in Hl as (v & rest & Hv & ->).
    rewrite Hun in Hv. exists v, rest. split; [exact Hv | reflexivity].
  - intros [Ht | Ht]; rewrite Ht in H; cbn [celltype_string Z.eqb Pos.eqb] in H;
      cbn [String.eqb Ascii.eqb Bool.eqb] in H;
      apply sized_cell_inv in H as (l & Hl & ->);
      apply unpack_uint64_inv in Hl as (rest & Hv);
      exists l, rest; split; [exact Hv | reflexivity | exact Hv | reflexivity].
Qed.

Lemma long_cell_lengths_witness :
  exists v rest,
    unpack_int (unread (BytesIO [x81])) = inr (v, rest)
    /\ cell_length (s_key 65) = v + 64.
Proof.
  apply (proj1 (proj2 (long_cell_lengths 0x50 PageStats_new
                         (count_key 65 PageStats_new) (BytesIO [x81])
                         (Some 0x50) (s_key 65) [] eq_refl eq_refl))).
  left. reflexivity.
Defined.

Lemma read1_0_inv (b : BinFile) (e : Z) :
  res_val (read1_0 b) = inr e -> getitem (unread b) 0 = inr e.
Proof.
  unfold read1_0. intros H. apply bind_inr in H as (x & Hx & H).
  rewrite read_run in Hx, H by (unfold sys_maxsize; lia).
  cbn [res_val res_file] in Hx, H. injection Hx as <-.
  change (Z.to_nat 1) with 1%nat in H.
  destruct (unread b) as [| y l]; cbn in H |- *; [discriminate | exact H].
Qed.

Lemma cell_long_fields_extra (desc : Z) (s s1 : PageStats) (b : BinFile)
    (extra : Z) (d1 : option Z) :
  res_val (cell_long_fields desc s b) = inr (extra, d1, s1) ->
  (Z.land desc 8 = 0 -> extra = 0)
  /\ (Z.land desc 8 <> 0 -> getitem (unread b) 0 = inr extra).
Proof.
  unfold cell_long_fields. intros H.
  apply bind_inr in H as ([[e dd] ss] & H1 & H2). cbv beta iota in H2.
  apply bind_inr in H2 as (dd' & _ & H2). cbn in H2. injection H2 as <- _ _.
  destruct (Z.eqb_spec (Z.land desc 8) 0) as [E | E]; cbn [negb] in H1.
  - cbn in H1. injection H1 as <- _ _. split; [reflexivity | contradiction].
  - apply bind_inr in H1 as (e' & Hr & H1).
    apply bind_inr in H1 as (u & _ & H1).
    apply bind_inr in H1 as (ps & _ & H1). cbn in H1. injection H1 as <- _ _.
    split; [contradiction |]. intros _. exact (read1_0_inv b e' Hr).
Qed.

(** C10. A long-form value cell (type tag 8) that decodes has two length
    encodings: with a nonzero extra descriptor byte (descriptor bit 0x8 set,
    the byte after the descriptor not 0) the data length is the packed
    integer at the length field, with no extra descriptor byte or a zero one
    it is that integer plus 64. *)
Theorem value_cell_length (desc : Z) (s s' : PageStats) (b : BinFile)
    (d : option Z) (c : cell_s) (x : bytes) :
  Z.land desc 3 = 0 ->
  Z.shiftr (Z.land desc 0xf0) 4 = 8 ->
  res_val (cell_body desc s b) = inr (d, Some (c, x), s') ->
  exists extra d1 s1 v rest,
    res_val (cell_long_fields desc s b) = inr (extra, d1, s1)
    /\ (Z.land desc 8 = 0 -> extra = 0)
    /\ (Z.land desc 8 <> 0 -> getitem (unread b) 0 = inr extra)
    /\ unpack_int (unread (res_file (cell_long_fields desc s b))) = inr (v, rest)
    /\ c = s_val (if extra =? 0 then v + 64 else v).
Proof.
  intros Hshort Htag H.
  apply cell_body_long_inv in H as (extra & d1 & s1 & Hf & H);
    [| exact Hshort].
  destruct (cell_long_fields_extra _ _ _ _ _ _ Hf) as [He0 He1].
  unfold cell_long_type in H. cbv zeta in H. rewrite Htag in H.
  cbn [celltype_string Z.eqb Pos.eqb] in H.
  cbn [String.eqb Ascii.eqb Bool.eqb] in H.
  apply sized_cell_inv in H as (l & Hl & ->).
  destruct (Z.eqb_spec extra 0) as [E | E]; cbn [negb] in Hl.
  - apply long_length_inv in Hl as (v & rest & Hv & ->).
    exists extra, d1, s1, v, rest.
    split; [exact Hf | split; [exact He0 | split; [exact He1 | split; [exact Hv |]]]].
    rewrite E. reflexivity.
  - apply unpack_uint64_inv in Hl as (rest & Hv).
    exists extra, d1, s1, l, rest.
    split; [exact Hf | split; [exact He0 | split; [exact He1 | split; [exact Hv |]]]].
    apply Z.eqb_neq in E. rewrite E. reflexivity.
Qed.

Lemma value_cell_length_witness :
  exists extra d1 s1 v rest,
    res_val (cell_long_fields 0x88 PageStats_new (BytesIO [x01; x85; x41]))
    = inr (extra, d1, s1)
    /\ (Z.land 0x88 8 = 0 -> extra = 0)
    /\ (Z.land 0x88 8 <> 0 -> getitem (unread (BytesIO [x01; x85; x41])) 0 = inr extra)
    /\ unpack_int (unread (res_file (cell_long_fields 0x88 PageStats_new
                                       (BytesIO [x01; x85; x41]))))
       = inr (v, rest)
    /\ s_val 5 = s_val (if extra =? 0 then v + 64 else v).
Proof.
  apply (value_cell_length 0x88 PageStats_new PageStats_new
           (BytesIO [x01; x85; x41]) None (s_val 5) [x41]);
    reflexivity.
Defined.

(** ** What a cell puts out *)

Lemma emits_ret {A} (P : event -> Prop) (a : A) : emits P (ret a).
Proof. intros b. constructor. Qed.

Lemma emits_raise {A} (P : event -> Prop) (e : exn) : emits P (@raise A e).
Proof. intros b. constructor. Qed.

Lemma emits_lift {A} (P : event -> Prop) (x : exn + A) : emits P (lift x).
Proof. destruct x; [apply emits_raise | apply emits_ret]. Qed.

Lemma emits_emit (P : event -> Prop) (e : event) : P e -> emits P (emit e).
Proof. intros H b. cbn. constructor; [exact H | constructor]. Qed.

Lemma emits_bind {A B} (P : event -> Prop) (m : M A) (k : A -> M B) :
  emits P m -> (forall a, emits P (k a)) -> emits P (bind m k).
Proof.
  intros Hm Hk b. unfold bind. cbv zeta.
  destruct (res_val (m b)) as [e | a]; cbn [res_out].
  - apply Hm.
  - apply Forall_app. split; [apply Hm | apply Hk].
Qed.

Lemma emits_try_except {A} (P : event -> Prop) (m h : M A)
    (handled : exn -> bool) :
  emits P m -> emits P h -> emits P (try_except m handled h).
Proof.
  intros Hm Hh b. unfold try_except. cbv zeta.
  destruct (res_val (m b)) as [e | a]; [destruct (handled e) |];
    cbn [res_out]; try apply Hm.
  apply Forall_app. split; [apply Hm | apply Hh].
Qed.

Lemma emits_try_finally {A} (P : event -> Prop) (m : M A) (fin : M unit) :
  emits P m -> emits P fin -> emits P (try_finally m fin).
Proof.
  intros Hm Hf b. unfold try_finally. cbv zeta. cbn [res_out].
  apply Forall_app. split; [apply Hm | apply Hf].
Qed.

Lemma emits_tell (P : event -> Prop) : emits P tell.
Proof. intros b. constructor. Qed.

Lemma emits_seek (P : event -> Prop) (n : Z) : emits P (seek n).
Proof. intros b. unfold seek. destruct (n <? 0); constructor. Qed.

Lemma emits_read (P : event -> Prop) (n : Z) : emits P (read n).
Proof.
  intros b. unfold read. destruct (n <? 0); [constructor |].
  destruct (n >? sys_maxsize); constructor.
Qed.

Lemma emits_unpack_uint64_with_sz (P : event -> Prop) :
  emits P unpack_uint64_with_sz.
Proof.
  intros b. unfold unpack_uint64_with_sz. cbv zeta.
  destruct (unpack_int (unread b)) as [[] | []]; constructor.
Qed.

(** Walk through a computation built from the actions above. *)
Create HintDb emits_db.

Ltac emits_auto :=
  repeat first
    [ solve [auto 1 with emits_db nocore]
    | apply emits_ret
    | apply emits_raise
    | apply emits_lift
    | apply emits_tell
    | apply emits_seek
    | apply emits_read
    | apply emits_unpack_uint64_with_sz
    | apply emits_emit; reflexivity
    | apply emits_bind; [| intros ?]
    | apply emits_try_except
    | apply emits_try_finally
    | match goal with
      | |- emits _ (if ?c then _ else _) => destruct c
      | |- emits _ (match ?x with _ => _ end) => destruct x
      | |- emits _ (let '(_, _) := ?x in _) => destruct x
      end ].


Ltac unfold_actions :=
  unfold uint8, uint16, uint32, uint64, read1_0, unpack_uint64, long_length,
    rint, rint_v, print, begin_cell, end_cell.

Lemma emits_dump_lines (fuel : nat) : forall (addr : Z) (data : bytes),
  emits inner (dump_lines fuel addr data).
Proof.
  induction fuel as [| fuel IH]; intros addr data; cbn [dump_lines].
  - apply emits_ret.
  - destruct data; [apply emits_ret |].
    apply emits_bind; [apply emits_emit; reflexivity | intros _; apply IH].
Qed.
#[local] Hint Resolve emits_dump_lines : emits_db.

Lemma emits_dumpraw (pos : Z) : emits inner (dumpraw pos).
Proof. unfold dumpraw. emits_auto. Qed.
#[local] Hint Resolve emits_dumpraw : emits_db.

Lemma emits_timestamp_field (extra mask : Z) (f : ts_field) (label : string)
    (s : PageStats) :
  emits inner (timestamp_field extra mask f label s).
Proof. unfold timestamp_field. unfold_actions. emits_auto. Qed.
#[local] Hint Resolve emits_timestamp_field : emits_db.

Lemma emits_process_timestamps (extra : Z) (s : PageStats) :
  emits inner (process_timestamps extra s).
Proof. unfold process_timestamps. unfold_actions. emits_auto. Qed.
#[local] Hint Resolve emits_process_timestamps : emits_db.

Lemma emits_cell_long_fields (desc : Z) (s : PageStats) :
  emits inner (cell_long_fields desc s).
Proof. unfold cell_long_fields. unfold_actions. emits_auto. Qed.
#[local] Hint Resolve emits_cell_long_fields : emits_db.

Lemma emits_cell_long_type (desc extra : Z) (d : option Z) (s : PageStats) :
  emits inner (cell_long_type desc extra d s).
Proof. unfold cell_long_type. cbv zeta. unfold_actions. emits_auto. Qed.
#[local] Hint Resolve emits_cell_long_type : emits_db.

Lemma emits_cell_body (desc : Z) (s : PageStats) :
  emits inner (cell_body desc s).
Proof. unfold cell_body. cbv zeta. unfold_actions. emits_auto. Qed.
#[local] Hint Resolve emits_cell_body : emits_db.

Lemma emits_cell_read (s : PageStats) : emits inner (cell_read s).
Proof. unfold cell_read. unfold_actions. emits_auto. Qed.
#[local] Hint Resolve emits_cell_read : emits_db.

Lemma emits_show_raw (x : bytes) :
  emits inner (l <- lift (raw_bytes x) ;; emit (Rint_v l)).
Proof.
  intros b. unfold raw_bytes, bind, lift. cbv zeta.
  destruct (raw_bytes_loop (List.length x) x); cbn; repeat constructor.
Qed.
#[local] Hint Resolve emits_show_raw : emits_db.

Lemma emits_cell_show (cellpos : Z) (d : option Z)
    (sx : option (cell_s * bytes)) :
  emits inner (cell_show cellpos d sx).
Proof. unfold cell_show. unfold_actions. emits_auto. Qed.
#[local] Hint Resolve emits_cell_show : emits_db.

(** A cell puts out [Begin_cell], then events of its body. *)
Lemma decode_cell_out (cellnum cellpos : Z) (s : PageStats) (b : BinFile) :
  exists body,
    res_out (decode_cell cellnum cellpos s b) = Begin_cell cellnum cellpos :: body
    /\ Forall inner body.
Proof.
  unfold decode_cell, begin_cell. unfold bind at 1, emit at 1. cbv zeta.
  cbn [res_val res_file res_out app].
  eexists. split; [reflexivity |].
  assert (H : emits inner
                (try_finally
                   (r <- cell_read s ;;
                    (let '(desc_str, sx, pagestats') := r in
                     cell_show cellpos desc_str sx ;; ret pagestats'))
                   end_cell)).
  { unfold end_cell. emits_auto. }
  apply H.
Qed.

(** ** The loop over the cells *)

Lemma row_loop_trace (n : nat) :
  forall (cellnum : Z) (ph : PageHeader) (s : PageStats) (b : BinFile),
  loop_trace (memsize ph) n (res_out (row_decode_loop n cellnum ph s b)).
Proof.
  induction n as [| n IH]; intros cellnum ph s b.
  - apply loop_end.
  - cbn [row_decode_loop]. unfold bind at 1, tell. cbv zeta.
    cbn [res_val res_file res_out app]. rewrite Z.geb_leb.
    destruct (Z.leb_spec (memsize ph) (Z.of_nat (position b))) as [Hge | Hlt].
    + apply loop_overflow.
    + destruct (decode_cell_out cellnum (Z.of_nat (position b)) s b)
        as (body & Hout & Hbody).
      unfold bind. cbv zeta.
      destruct (res_val (decode_cell cellnum (Z.of_nat (position b)) s b))
        as [e | s1]; cbn [res_out]; rewrite Hout.
      * rewrite <- (app_nil_r body).
        apply loop_cell; [lia | exact Hbody | apply loop_end].
      * cbn [app]. apply loop_cell; [lia | exact Hbody | apply IH].
Qed.

Lemma inner_not_begin (body : list event) :
  Forall inner body -> filter is_begin_cell body = [].
Proof.
  induction 1 as [| e body He _ IH]; [reflexivity |].
  cbn [filter]. destruct e; cbn in He |- *; try exact IH. discriminate.
Qed.

Lemma loop_trace_begun (memsize : Z) (n : nat) (t : list event) :
  loop_trace memsize n t -> (cells_begun t <= n)%nat.
Proof.
  unfold cells_begun. induction 1 as [n | n | n c p body t Hp Hbody _ IH].
  - cbn. lia.
  - cbn. lia.
  - cbn [filter is_begin_cell List.length].
    rewrite filter_app, (inner_not_begin body Hbody). cbn [app]. lia.
Qed.

Lemma loop_trace_positions (memsize : Z) (n : nat) (t : list event) :
  loop_trace memsize n t ->
  forall cellnum cellpos, In (Begin_cell cellnum cellpos) t -> cellpos < memsize.
Proof.
  induction 1 as [n | n | n c p body t Hp Hbody _ IH]; intros cellnum cellpos Hin.
  - destruct Hin.
  - destruct Hin as [Hin | []]. discriminate.
  - destruct Hin as [Hin | Hin].
    + injection Hin as _ <-. exact Hp.
    + apply in_app_or in Hin as [Hin | Hin].
      * rewrite Forall_forall in Hbody. apply Hbody in Hin. discriminate.
      * exact (IH _ _ Hin).
Qed.

Lemma inner_split (ov : event) (body : list event) :
  inner_event ov = false -> Forall inner body ->
  forall t t1 t2, body ++ t = t1 ++ ov :: t2 ->
  exists t1', t = t1' ++ ov :: t2.
Proof.
  intros Hov. induction 1 as [| e body He _ IH]; intros t t1 t2 Heq.
  - exists t1. exact Heq.
  - destruct t1 as [| y t1]; cbn in Heq; injection Heq as Hy Heq.
    + subst. unfold inner in He. congruence.
    + exact (IH _ _ _ Heq).
Qed.

Lemma loop_trace_overflow_last (memsize : Z) (n : nat) (t : list event) :
  loop_trace memsize n t ->
  forall t1 t2, t = t1 ++ Rint_v (Text "** OVERFLOW memsize **") :: t2 -> t2 = [].
Proof.
  induction 1 as [n | n | n c p body t Hp Hbody _ IH]; intros t1 t2 Heq.
  - destruct t1; discriminate.
  - destruct t1 as [| y t1]; cbn in Heq.
    + injection Heq as <-. reflexivity.
    + injection Heq as _ Heq. destruct t1; discriminate.
  - destruct t1 as [| y t1]; cbn in Heq; [discriminate |].
    injection Heq as _ Heq.
    destruct (inner_split (Rint_v (Text "** OVERFLOW memsize **")) body
                eq_refl Hbody _ _ _ Heq) as [t1' Ht].
    exact (IH _ _ Ht).
Qed.

Lemma row_loop_overflow (n : nat) (cellnum : Z) (ph : PageHeader)
    (s : PageStats) (b : BinFile) :
  memsize ph <= Z.of_nat (position b) ->
  row_decode_loop (S n) cellnum ph s b
  = mkResult b [Rint_v (Text "** OVERFLOW memsize **")] (inr s).
Proof.
  intros H. cbn [row_decode_loop]. unfold bind at 1, tell. cbv zeta.
  cbn [res_val res_file res_out app]. rewrite Z.geb_leb.
  destruct (Z.leb_spec (memsize ph) (Z.of_nat (position b))); [| lia].
  reflexivity.
Qed.



(** ** A cell of a type that is not decoded *)

Lemma dump_lines_run (fuel : nat) : forall (addr : Z) (data : bytes) (b : BinFile),
  res_val (dump_lines fuel addr data b) = inr tt
  /\ res_file (dump_lines fuel addr data b) = b.
Proof.
  induction fuel as [| fuel IH]; intros addr data b; cbn [dump_lines].
  - split; reflexivity.
  - destruct data as [| x data]; [split; reflexivity |].
    unfold bind, rint_v, emit. cbv zeta. cbn [res_val res_file res_out].
    apply IH.
Qed.

Lemma dumpraw_run (pos : Z) (b : BinFile) :
  0 <= pos ->
  res_val (dumpraw pos b) = inr tt /\ res_file (dumpraw pos b) = b.
Proof.
  intros Hpos. unfold dumpraw, bind, tell, seek. cbv zeta.
  cbn [res_val res_file res_out].
  destruct (Z.ltb_spec pos 0); [lia |]. cbn [res_val res_file res_out].
  rewrite read_run by (unfold sys_maxsize; lia).
  cbn [res_val res_file res_out].
  match goal with
  | |- context [dump_lines ?f ?a ?d ?s] =>
      destruct (dump_lines_run f a d s) as [Hv Hf]; rewrite Hv, ?Hf
  end.
  cbn [res_val res_file res_out fileobj position].
  destruct (Z.ltb_spec (Z.of_nat (position b)) 0); [lia |].
  cbn [res_val res_file res_out]. rewrite Nat2Z.id.
  destruct b; split; reflexivity.
Qed.

Lemma cell_show_None (cellpos : Z) (d : option Z) (b : BinFile) :
  0 <= cellpos ->
  res_val (cell_show cellpos d None b) = inr tt
  /\ res_file (cell_show cellpos d None b) = b.
Proof.
  intros Hpos. destruct (dumpraw_run cellpos b Hpos) as [Hv Hf].
  unfold cell_show, try_except. cbv zeta. rewrite Hv.
  split; [exact Hv | exact Hf].
Qed.

Lemma cell_long_type_unknown (desc extra : Z) (d1 : option Z) (s1 : PageStats)
    (b : BinFile) :
  13 <= Z.shiftr (Z.land desc 0xf0) 4 ->
  cell_long_type desc extra d1 s1 b
  = mkResult b
      [Rint (CellNotImplemented d1 (Z.shiftr (Z.land desc 0xf0) 4)
               "*** unknown cell type ***")]
      (inr (None, None, s1)).
Proof.
  intros Ht. unfold cell_long_type, celltype_string. cbv zeta.
  set (t := Z.shiftr (Z.land desc 240) 4) in *.
  repeat match goal with
  | |- context [t =? ?k] => destruct (Z.eqb_spec t k); [lia |]
  end.
  reflexivity.
Qed.

Lemma cell_read_unknown (s s1 : PageStats) (b : BinFile) (d : byte)
    (rest : bytes) (extra : Z) (d1 : option Z) :
  unread b = d :: rest ->
  Z.land (_ord d) 3 = 0 ->
  13 <= Z.shiftr (Z.land (_ord d) 0xf0) 4 ->
  res_val (cell_long_fields (_ord d) s (mkBinFile (fileobj b) (position b + 1)))
  = inr (extra, d1, s1) ->
  cell_read s b
  = mkResult
      (res_file (cell_long_fields (_ord d) s
                   (mkBinFile (fileobj b) (position b + 1))))
      (res_out (cell_long_fields (_ord d) s
                  (mkBinFile (fileobj b) (position b + 1)))
       ++ [Rint (CellNotImplemented d1 (Z.shiftr (Z.land (_ord d) 0xf0) 4)
                   "*** unknown cell type ***")])
      (inr (None, None, s1)).
Proof.
  intros Hun Hshort Ht Hf. unfold cell_read, bind. cbv zeta.
  rewrite (uint8_cons b d rest Hun). cbn [res_val res_file res_out app].
  unfold cell_body. cbv zeta. rewrite Hshort. change (0 =? 0) with true.
  cbv iota. unfold bind. cbv zeta. rewrite Hf.
  rewrite cell_long_type_unknown by exact Ht. reflexivity.
Qed.

(** ** The scan goes on after any block *)

Lemma returns_ret {A} (a : A) : returns (ret a).
Proof. intros b. exists a. reflexivity. Qed.

Lemma returns_emit (e : event) : returns (emit e).
Proof. intros b. exists tt. reflexivity. Qed.

Lemma returns_tell : returns tell.
Proof. intros b. eexists. reflexivity. Qed.

Lemma returns_seek (n : Z) : 0 <= n -> returns (seek n).
Proof.
  intros H b. exists tt. unfold seek.
  destruct (Z.ltb_spec n 0); [lia | reflexivity].
Qed.

Lemma returns_bind {A B} (m : M A) (k : A -> M B) :
  returns m -> (forall a, returns (k a)) -> returns (bind m k).
Proof.
  intros Hm Hk b. destruct (Hm b) as [a Ha].
  destruct (Hk a (res_file (m b))) as [c Hc].
  exists c. rewrite (bind_val m k b a Ha). exact Hc.
Qed.

Lemma returns_try_except_all {A} (m h : M A) :
  returns h -> returns (try_except m (fun _ => true) h).
Proof.
  intros Hh b. unfold try_except. cbv zeta.
  destruct (res_val (m b)) as [e | a] eqn:E.
  - destruct (Hh (res_file (m b))) as [a Ha]. exists a. exact Ha.
  - exists a. exact E.
Qed.

(** Whatever a block holds, the body of the scan loop returns. *)
Lemma scan_block_returns (have_crc32c : bool) (crc32c : bytes -> Z)
    (have_snappy : bool) (snappy_uncompress : bytes -> exn + bytes)
    (opts : Opts) (startblock : Z) :
  0 <= startblock ->
  returns (scan_block have_crc32c crc32c have_snappy snappy_uncompress
             opts startblock).
Proof.
  intros Hs. unfold scan_block, outfile_stats_start, print, rint.
  apply returns_bind; [destruct (output opts); [apply returns_emit | apply returns_ret] |].
  intros _. apply returns_bind; [apply returns_emit |].
  intros _. apply returns_bind; [apply returns_seek; exact Hs |].
  intros _. apply returns_bind;
    [apply returns_try_except_all, returns_emit |].
  intros _. apply returns_bind; [apply returns_emit |].
  intros _. apply returns_bind; [apply returns_tell |].
  intros pos. apply returns_ret.
Qed.




(** ** Reading the fixed-layout headers *)

Lemma bind_run_eq {A B} (m : M A) (k : A -> M B) (b b' : BinFile)
    (o : list event) (a : A) :
  m b = mkResult b' o (inr a) -> bind m k b = prepend o (k a b').
Proof. intros H. unfold bind, prepend. cbv zeta. rewrite H. reflexivity. Qed.

Lemma bind_assoc {A B C} (m : M A) (f : A -> M B) (g : B -> M C) (b : BinFile) :
  bind (bind m f) g b = bind m (fun a => bind (f a) g) b.
Proof.
  unfold bind. cbv zeta. destruct (res_val (m b)) as [e | a]; cbn [res_val res_file res_out].
  - reflexivity.
  - destruct (res_val (f a (res_file (m b)))) as [e | c];
      cbn [res_val res_file res_out]; [reflexivity |].
    rewrite app_assoc. reflexivity.
Qed.

Lemma prepend_nil {A} (r : result A) : prepend [] r = r.
Proof. destruct r. reflexivity. Qed.

Lemma prepend_prepend {A} (o1 o2 : list event) (r : result A) :
  prepend o1 (prepend o2 r) = prepend (o1 ++ o2) r.
Proof. unfold prepend. cbn [res_file res_out res_val]. rewrite app_assoc. reflexivity. Qed.

Lemma read_cursor (d : bytes) (j : nat) (n : nat) :
  Z.of_nat n <= sys_maxsize ->
  read (Z.of_nat n) (cursor d j)
  = mkResult (cursor d (j + n)) [] (inr (firstn n (skipn j d))).
Proof.
  intros Hn. rewrite read_run by lia. rewrite Nat2Z.id.
  unfold cursor, unread. cbn [fileobj position].
  destruct (Nat.le_gt_cases j (List.length d)) as [Hle | Hgt].
  - rewrite (Nat.min_l j) by exact Hle. f_equal. f_equal.
    rewrite length_firstn, length_skipn. lia.
  - rewrite (Nat.min_r j) by lia. rewrite skipn_all.
    rewrite (skipn_all2 (n := j)) by lia.
    rewrite firstn_nil. cbn [List.length]. f_equal. f_equal. lia.
Qed.

Lemma uint_cursor (d : bytes) (j n : nat) :
  Z.of_nat n <= sys_maxsize ->
  (x <- read (Z.of_nat n) ;; ret (from_bytes_little x)) (cursor d j)
  = mkResult (cursor d (j + n)) [] (inr (field d j n)).
Proof.
  intros Hn. rewrite (bind_run_eq _ _ _ _ _ _ (read_cursor d j n Hn)).
  reflexivity.
Qed.

Lemma uint8_cursor (d : bytes) (j : nat) :
  uint8 (cursor d j) = mkResult (cursor d (j + 1)) [] (inr (field d j 1)).
Proof. apply (uint_cursor d j 1). unfold sys_maxsize. lia. Qed.

Lemma uint16_cursor (d : bytes) (j : nat) :
  uint16 (cursor d j) = mkResult (cursor d (j + 2)) [] (inr (field d j 2)).
Proof. apply (uint_cursor d j 2). unfold sys_maxsize. lia. Qed.

Lemma uint32_cursor (d : bytes) (j : nat) :
  uint32 (cursor d j) = mkResult (cursor d (j + 4)) [] (inr (field d j 4)).
Proof. apply (uint_cursor d j 4). unfold sys_maxsize. lia. Qed.

Lemma uint64_cursor (d : bytes) (j : nat) :
  uint64 (cursor d j) = mkResult (cursor d (j + 8)) [] (inr (field d j 8)).
Proof. apply (uint_cursor d j 8). unfold sys_maxsize. lia. Qed.

Lemma rint_run (l : line) (b : BinFile) : rint l b = mkResult b [Rint l] (inr tt).
Proof. reflexivity. Qed.

Lemma ret_run {A} (a : A) (b : BinFile) : ret a b = mkResult b [] (inr a).
Proof. reflexivity. Qed.

Lemma tell_run (b : BinFile) :
  tell b = mkResult b [] (inr (Z.of_nat (position b))).
Proof. reflexivity. Qed.

(** One step of a computation on a cursor. *)
Ltac run_step :=
  first
    [ rewrite bind_assoc
    | erewrite bind_run_eq by
        first [ apply uint64_cursor | apply uint32_cursor | apply uint16_cursor
              | apply uint8_cursor | apply rint_run | apply ret_run
              | apply tell_run ] ];
  cbv beta; cbn [Nat.add].

Ltac run_done :=
  rewrite ?rint_run, ?ret_run;
  repeat rewrite prepend_prepend; unfold prepend;
  cbn [res_val res_file res_out app].

Lemma file_header_decode_run (d : bytes) :
  file_header_decode (BytesIO d)
  = mkResult (cursor d 16)
      [ Rint (Num "magic: " (field d 0 4));
        Rint (Num "major: " (field d 4 2));
        Rint (Num "minor: " (field d 6 2));
        Rint (Num "checksum: " (field d 8 4));
        Rint (Text (if negb (field d 0 4 =? 120897) then "bad magic number"
                    else if negb (field d 4 2 =? 1) then "bad major number"
                    else if negb (field d 6 2 =? 0) then "bad minor number"
                    else if negb (field d 12 4 =? 0) then "garbage in unused bytes"
                    else "")) ]
      (inr tt).
Proof.
  change (BytesIO d) with (cursor d 0). unfold file_header_decode.
  do 9 run_step.
  destruct (negb (field d 0 4 =? 120897)); [run_done; reflexivity |].
  destruct (negb (field d 4 2 =? 1)); [run_done; reflexivity |].
  destruct (negb (field d 6 2 =? 0)); [run_done; reflexivity |].
  destruct (negb (field d 12 4 =? 0)); run_done; reflexivity.
Qed.





(** ** Blocks whose declared size is out of bounds *)

Ltac leaf :=
  run_done;
  split; [reflexivity |];
  split;
  [ intros ?; first [lia | eexists; split; [reflexivity | cbn; tauto]]
  | intros; try contradiction; try lia; try reflexivity ].

Lemma block_headers_bad_size (pd : bytes) :
  field pd 28 4 < 40 \/ 17 * 1024 * 1024 < field pd 28 4 ->
  res_val (block_headers (BytesIO pd)) = inr None
  /\ (17 * 1024 * 1024 < field pd 28 4 ->
      exists diag,
        last (res_out (block_headers (BytesIO pd))) End_cell = Rint (Text diag)
        /\ In diag header_diagnostics)
  /\ (field pd 28 4 < 40 ->
      field pd 26 1 = 0 -> field pd 24 1 <> 0 ->
      field pd 37 1 = 0 -> field pd 38 1 = 0 -> field pd 39 1 = 0 ->
      res_out (block_headers (BytesIO pd)) = page_header_lines pd).
Proof.
  intros Hsz. change (BytesIO pd) with (cursor pd 0). unfold block_headers.
  repeat run_step.
  destruct (Z.eqb_spec (field pd 26 1) 0) as [Eu | Eu]; cbn [negb];
    [| repeat run_step; leaf].
  destruct (Z.eqb_spec (field pd 24 1) 0) as [Et | Et];
    [repeat run_step; leaf |].
  repeat run_step.
  destruct (Z.eqb_spec (field pd 37 1) 0) as [E1 | E1]; cbn [negb];
    [| repeat run_step; leaf].
  repeat run_step.
  destruct (Z.eqb_spec (field pd 38 1) 0) as [E2 | E2]; cbn [negb];
    [| repeat run_step; leaf].
  repeat run_step.
  destruct (Z.eqb_spec (field pd 39 1) 0) as [E3 | E3]; cbn [negb];
    [| repeat run_step; leaf].
  destruct (Z.gtb_spec (field pd 28 4) (17 * 1024 * 1024)) as [Hbig | Hbig];
    [repeat run_step; leaf |].
  destruct (Z.ltb_spec (field pd 28 4) 40) as [Hsmall | Hsmall]; [| lia].
  leaf.
Qed.

Lemma block_decode_aborted (have_crc32c : bool) (crc32c : bytes -> Z)
    (have_snappy : bool) (snappy_uncompress : bytes -> exn + bytes)
    (opts : Opts) (b : BinFile) :
  res_val (block_headers (BytesIO (firstn 40 (unread b)))) = inr None ->
  block_decode have_crc32c crc32c have_snappy snappy_uncompress opts b
  = mkResult
      (mkBinFile (fileobj b) (position b + List.length (firstn 40 (unread b))))
      (res_out (block_headers (BytesIO (firstn 40 (unread b)))))
      (inr tt).
Proof.
  intros H. unfold block_decode.
  erewrite bind_run_eq by apply tell_run. cbv beta.
  erewrite bind_run_eq by (apply read_run; unfold sys_maxsize; lia). cbv beta.
  change (Z.to_nat 40) with 40%nat.
  erewrite bind_run_eq
    by (unfold on_page; rewrite H; reflexivity).
  cbv beta iota. rewrite ret_run. unfold prepend.
  cbn [res_val res_file res_out app]. rewrite app_nil_r. reflexivity.
Qed.

Lemma align512_ge (p : Z) : p <= align512 p.
Proof.
  unfold align512. rewrite <- Z.ldiff_land.
  change (Z.ldiff (p + 511) 511) with (Z.ldiff (p + 511) (Z.ones 9)).
  rewrite Z.ldiff_ones_r by lia.
  rewrite Z.shiftr_div_pow2, Z.shiftl_mul_pow2 by lia.
  change (2 ^ 9) with 512. Z.to_euclidean_division_equations. lia.
Qed.

Lemma seek_run (n : Z) (b : BinFile) :
  0 <= n -> seek n b = mkResult (mkBinFile (fileobj b) (Z.to_nat n)) [] (inr tt).
Proof.
  intros H. unfold seek. destruct (Z.ltb_spec n 0); [lia | reflexivity].
Qed.

Lemma try_except_run {A} (m h : M A) (handled : exn -> bool) (b b' : BinFile)
    (o : list event) (a : A) :
  m b = mkResult b' o (inr a) ->
  try_except m handled h b = mkResult b' o (inr a).
Proof. intros H. unfold try_except. cbv zeta. rewrite H. reflexivity. Qed.

(** The next block after one on which [block_decode] returns having read
    [k] bytes. *)
Lemma scan_block_next (have_crc32c : bool) (crc32c : bytes -> Z)
    (have_snappy : bool) (snappy_uncompress : bytes -> exn + bytes)
    (opts : Opts) (startblock : Z) (b : BinFile) (k : nat) (o : list event) :
  0 <= startblock ->
  block_decode have_crc32c crc32c have_snappy snappy_uncompress opts
    (mkBinFile (fileobj b) (Z.to_nat startblock))
  = mkResult (mkBinFile (fileobj b) (Z.to_nat startblock + k)) o (inr tt) ->
  exists next,
    res_val (scan_block have_crc32c crc32c have_snappy snappy_uncompress
               opts startblock b) = inr next
    /\ startblock < next.
Proof.
  intros Hs Hb. unfold scan_block.
  assert (Hstart : forall b0, exists o0,
             outfile_stats_start opts startblock b0 = mkResult b0 o0 (inr tt)).
  { intros b0. unfold outfile_stats_start.
    destruct (output opts); eexists; reflexivity. }
  destruct (Hstart b) as [o0 Ho0].
  erewrite bind_run_eq by exact Ho0. cbv beta.
  erewrite bind_run_eq by reflexivity. cbv beta.
  erewrite bind_run_eq by (apply seek_run; exact Hs). cbv beta.
  erewrite bind_run_eq by (apply try_except_run; exact Hb). cbv beta.
  erewrite bind_run_eq by apply rint_run. cbv beta.
  erewrite bind_run_eq by apply tell_run. cbv beta zeta.
  rewrite ret_run. unfold prepend. cbn [res_val res_file position].
  eexists. split; [reflexivity |].
  pose proof (align512_ge (Z.of_nat (Z.to_nat startblock + k))) as Hal.
  destruct (Z.eqb_spec startblock
              (align512 (Z.of_nat (Z.to_nat startblock + k)))); lia.
Qed.

Lemma result_facts {A} (r : result A) (f : BinFile) (o : list event)
    (v : exn + A) :
  r = mkResult f o v -> res_val r = v /\ res_file r = f /\ res_out r = o.
Proof. intros ->. repeat split. Qed.




(** ** The checksum of a block *)

Lemma setitem_app (pre post : bytes) (c v : byte) :
  setitem (pre ++ c :: post) (List.length pre) v = inr (pre ++ v :: post).
Proof.
  unfold setitem.
  assert (H : (List.length pre <? List.length (pre ++ c :: post))%nat = true)
    by (apply Nat.ltb_lt; rewrite length_app; cbn [List.length]; lia).
  rewrite H. f_equal.
  rewrite firstn_app, firstn_all, Nat.sub_diag, firstn_0, app_nil_r.
  f_equal. f_equal.
  replace (S (List.length pre)) with (1 + List.length pre)%nat by lia.
  rewrite <- skipn_skipn.
  rewrite skipn_app, skipn_all, Nat.sub_diag. reflexivity.
Qed.

Lemma setitem_short (data : bytes) (i : nat) (v : byte) :
  (List.length data <= i)%nat -> setitem data i v = inl IndexError.
Proof.
  intros H. unfold setitem.
  destruct (Nat.ltb_spec i (List.length data)); [lia | reflexivity].
Qed.

(** The four assignments [data[32] = data[33] = data[34] = data[35] = 0]. *)
Lemma zero_checksum_field (data : bytes) :
  (36 <= List.length data)%nat ->
  exists d1 d2 d3,
    setitem data 32 x00 = inr d1 /\ setitem d1 33 x00 = inr d2
    /\ setitem d2 34 x00 = inr d3
    /\ setitem d3 35 x00
       = inr (firstn 32 data ++ [x00; x00; x00; x00] ++ skipn 36 data)
    /\ List.length (firstn 32 data ++ [x00; x00; x00; x00] ++ skipn 36 data)
       = List.length data.
Proof.
  intros Hlen.
  assert (Hpre : List.length (firstn 32 data) = 32%nat)
    by (rewrite length_firstn; lia).
  assert (Hsplit : data = firstn 32 data ++ skipn 32 data)
    by (symmetry; apply firstn_skipn).
  assert (Hpost : skipn 36 data = skipn 4 (skipn 32 data))
    by (rewrite skipn_skipn; reflexivity).
  assert (Hmid : (4 <= List.length (skipn 32 data))%nat)
    by (rewrite length_skipn; lia).
  rewrite Hpost. clear Hpost.
  set (pre := firstn 32 data) in *. set (tl := skipn 32 data) in *.
  destruct tl as [| c0 [| c1 [| c2 [| c3 post]]]];
    try (cbn [List.length] in Hmid; lia).
  cbn [skipn app]. rewrite Hsplit.
  exists (pre ++ x00 :: c1 :: c2 :: c3 :: post).
  exists (pre ++ x00 :: x00 :: c2 :: c3 :: post).
  exists (pre ++ x00 :: x00 :: x00 :: c3 :: post).
  split.
  { pose proof (setitem_app pre (c1 :: c2 :: c3 :: post) c0 x00) as S0.
    rewrite Hpre in S0. exact S0. }
  split.
  { pose proof (setitem_app (pre ++ [x00]) (c2 :: c3 :: post) c1 x00) as S1.
    rewrite length_app, Hpre, <- !app_assoc in S1. exact S1. }
  split.
  { pose proof (setitem_app (pre ++ [x00; x00]) (c3 :: post) c2 x00) as S2.
    rewrite length_app, Hpre, <- !app_assoc in S2. exact S2. }
  split.
  { pose proof (setitem_app (pre ++ [x00; x00; x00]) post c3 x00) as S3.
    rewrite length_app, Hpre, <- !app_assoc in S3. exact S3. }
  rewrite !length_app. cbn [List.length]. lia.
Qed.

Lemma lift_run {A} (x : A) (b : BinFile) :
  lift (inr x) b = mkResult b [] (inr x).
Proof. reflexivity. Qed.

(** The checksum check of a block of which at least the 36 bytes up to the
    end of the checksum field can be read: the range is [disk_size] bytes
    when bit 0 of the block flags is set and 64 bytes otherwise, the four
    bytes 32-35 are zeroed, a short range is reported as cut by the end of
    the file, and a CRC32C that differs from the stored one as a mismatch. *)
Lemma verify_checksum_run (crc32c : bytes -> Z) (disk_pos : Z)
    (blockhead : BlockHeader) (b : BinFile) :
  0 <= disk_pos ->
  let check_size := if negb (Z.land (block_flags blockhead) 1 =? 0)
                    then disk_size blockhead else 64 in
  0 <= check_size <= sys_maxsize ->
  let data := firstn (Z.to_nat check_size)
                (skipn (Z.to_nat disk_pos) (fileobj b)) in
  (36 <= List.length data)%nat ->
  let zeroed := firstn 32 data ++ [x00; x00; x00; x00] ++ skipn 36 data in
  verify_checksum crc32c disk_pos blockhead b
  = if Z.of_nat (List.length data) <? check_size then
      mkResult b [Rint (Text "? reached EOF before the end of the block")]
        (inr false)
    else if crc32c zeroed =? checksum blockhead then mkResult b [] (inr true)
    else mkResult b [Rint (Num "? the checksum does not match " (crc32c zeroed))]
           (inr false).
Proof.
  intros Hpos check_size Hcs data Hlen zeroed.
  destruct (zero_checksum_field data Hlen) as (d1 & d2 & d3 & E1 & E2 & E3 & E4 & El).
  fold zeroed in E4, El.
  unfold verify_checksum. fold check_size.
  erewrite bind_run_eq by apply tell_run. cbv beta.
  erewrite bind_run_eq by (apply seek_run; exact Hpos). cbv beta.
  erewrite bind_run_eq by (apply read_run; exact Hcs). cbv beta.
  unfold unread at 1 2. cbn [fileobj position]. fold data.
  erewrite bind_run_eq by (apply seek_run; lia). cbv beta.
  cbn [fileobj]. rewrite Nat2Z.id.
  replace (mkBinFile (fileobj b) (position b)) with b by (destruct b; reflexivity).
  rewrite E1. erewrite bind_run_eq by apply lift_run. cbv beta.
  rewrite E2. erewrite bind_run_eq by apply lift_run. cbv beta.
  rewrite E3. erewrite bind_run_eq by apply lift_run. cbv beta.
  rewrite E4. erewrite bind_run_eq by apply lift_run. cbv beta.
  rewrite El.
  destruct (Z.of_nat (List.length data) <? check_size).
  - erewrite bind_run_eq by apply rint_run. reflexivity.
  - cbv zeta. destruct (crc32c zeroed =? checksum blockhead); cbn [negb].
    + reflexivity.
    + erewrite bind_run_eq by apply rint_run. reflexivity.
Qed.

(** C5: the code at a block cut short inside its header. Of
    [truncated_block] only 30 bytes can be read, fewer than the 64 bytes of
    the check range; [block_decode] raises [IndexError] at [data[32] = 0],
    before it compares the length with the range, and the scan reports a
    plain decoding error, not the end of the file. *)
Theorem truncated_header_is_not_diagnosed (crc32c : bytes -> Z)
    (snappy_uncompress : bytes -> exn + bytes) :
  List.length truncated_block = 30%nat
  /\ block_decode true crc32c false snappy_uncompress no_opts
       (BytesIO truncated_block)
     = mkResult (mkBinFile truncated_block 30)
         [ Rint (Text "Page Header:"); Rint (Num "  recno: " 0);
           Rint (Num "  writegen: " 0); Rint (Num "  memsize: " 40);
           Rint (Num "  ncells (oflow len): " 0);
           Rint (PageType 7 "WT_PAGE_ROW_LEAF");
           Rint (Num "  page flags: " 0); Rint (Num "  version: " 1);
           Rint (Text "Block Header:"); Rint (Num "  disk_size: " 40);
           Rint (Num "  checksum: " 0); Rint (Num "  block flags: " 0) ]
         (inl IndexError)
  /\ last (res_out (scan_block true crc32c false snappy_uncompress no_opts 0
                      (BytesIO truncated_block)))
          End_cell
     = Rint (Text "")
  /\ In (Rint (Num "ERROR decoding block at " 0))
        (res_out (scan_block true crc32c false snappy_uncompress no_opts 0
                    (BytesIO truncated_block))).
Proof.
  split; [reflexivity |].
  split; [vm_compute; reflexivity |].
  split; [vm_compute; reflexivity |].
  vm_compute. tauto.
Qed.

(** * Further properties of the code *)

(** ** Packed integers: values, lengths and errors *)

(** X1. [get_int(b, size)] is the big-endian value of the first [size]
    bytes of [b], a number below [256 ^ size]; it raises [IndexError] when
    [b] is shorter than [size], and is 0 for a [size] of 0 or less. *)
Theorem get_int_big_endian (b : bytes) (size : Z) :
  (0 <= size <= Z.of_nat (List.length b) ->
   get_int b size = inr (be_uint (firstn (Z.to_nat size) b))
   /\ 0 <= be_uint (firstn (Z.to_nat size) b) < 2 ^ (8 * size))
  /\ (Z.of_nat (List.length b) < size -> get_int b size = inl IndexError)
  /\ (size <= 0 -> get_int b size = inr 0).
Proof.
  split; [| split].
  - intros H. split; [apply get_int_spec; exact H |].
    pose proof (be_uint_range (firstn (Z.to_nat size) b)) as Hr.
    rewrite length_firstn in Hr.
    replace (Z.of_nat (Nat.min (Z.to_nat size) (List.length b))) with size in Hr
      by lia.
    exact Hr.
  - intros H. unfold get_int. apply get_int_acc_short. lia.
  - intros H. unfold get_int.
    replace (Z.to_nat size) with 0%nat by lia. reflexivity.
Qed.

Lemma get_int_big_endian_witness :
  get_int [x01; x02; x03] 2 = inr (be_uint (firstn (Z.to_nat 2) [x01; x02; x03]))
  /\ 0 <= be_uint (firstn (Z.to_nat 2) [x01; x02; x03]) < 2 ^ (8 * 2).
Proof.
  apply (proj1 (get_int_big_endian [x01; x02; x03] 2)).
  vm_compute. split; discriminate.
Defined.

Lemma unpack_int_short (m : byte) (rest : bytes) :
  0x10 <= _ord m <= 0x18 \/ 0x20 <= _ord m <= 0xEF ->
  Z.of_nat (List.length rest) < table_following (_ord m) ->
  unpack_int (m :: rest) = inl IndexError.
Proof.
  intros Hm Hgt.
  unfold unpack_int. rewrite unpack_int_head. markers. cbv zeta.
  revert Hgt. unfold table_following.
  rewrite !getbits_low by lia. change (2 ^ 4) with 16.
  assert (0 <= _ord m mod 16 < 16) by (apply Z.mod_pos_bound; lia).
  assert (Hcases : 0x10 <= _ord m <= 0x18 \/ 0x20 <= _ord m <= 0x3F
                 \/ 0x40 <= _ord m <= 0x7F \/ 0x80 <= _ord m <= 0xBF
                 \/ 0xC0 <= _ord m <= 0xDF \/ 0xE0 <= _ord m <= 0xEF) by lia.
  destruct Hcases as [H' | [H' | [H' | [H' | [H' | H']]]]];
    split_tests; intros Hgt; try lia.
  - assert (0 <= 8 - _ord m mod 16)
      by (Z.to_euclidean_division_equations; lia).
    split_tests. cbn [skipn]. unfold get_int.
    rewrite get_int_acc_short by lia. reflexivity.
  - destruct rest; [reflexivity | cbn in Hgt; lia].
  - destruct rest; [reflexivity | cbn in Hgt; lia].
  - cbn [skipn]. unfold get_int.
    rewrite get_int_acc_short by lia. reflexivity.
Qed.

(** What a successful [unpack_int] tells about its input. *)
Lemma unpack_int_inr_inv (m : byte) (rest rest' : bytes) (v : Z) :
  unpack_int (m :: rest) = inr (v, rest') ->
  (0x10 <= _ord m <= 0x18 \/ 0x20 <= _ord m <= 0xEF)
  /\ table_following (_ord m) <= Z.of_nat (List.length rest)
  /\ v = table_value (_ord m) (firstn (Z.to_nat (table_following (_ord m))) rest)
  /\ rest' = skipn (Z.to_nat (table_following (_ord m))) rest.
Proof.
  intros H. pose proof (_ord_range m) as Hr.
  assert (Hm : 0x10 <= _ord m <= 0x18 \/ 0x20 <= _ord m <= 0xEF).
  { destruct (Z.le_gt_cases (_ord m) 0x0F);
      [rewrite unpack_int_reserved in H by lia; discriminate |].
    destruct (Z.le_gt_cases 0xF0 (_ord m));
      [rewrite unpack_int_reserved in H by lia; discriminate |].
    destruct (Z.le_gt_cases 0x19 (_ord m)); [| lia].
    destruct (Z.le_gt_cases (_ord m) 0x1F); [| lia].
    rewrite unpack_int_negmulti_bad in H by lia. discriminate. }
  split; [exact Hm |].
  destruct (Z.le_gt_cases (table_following (_ord m)) (Z.of_nat (List.length rest)))
    as [Hle | Hgt].
  - split; [exact Hle |]. rewrite unpack_int_table in H by assumption.
    injection H as <- <-. split; reflexivity.
  - rewrite unpack_int_short in H by assumption. discriminate.
Qed.

Lemma table_following_range (marker : Z) :
  0x10 <= marker <= 0x18 \/ 0x20 <= marker <= 0xEF ->
  0 <= table_following marker <= 15.
Proof.
  intros H. unfold table_following. split_tests;
    Z.to_euclidean_division_equations; lia.
Qed.

(** X2. The value [unpack_int] returns lies in the range of its marker: 
    0x20-0x3F in [-2^13-2^6, -2^6-1], 0x40-0x7F in [-2^6, -1], 0x80-0xBF in
    [0, 2^6-1], 0xC0-0xDF in [2^6, 2^13+2^6-1], 0xE0-0xEF from 2^13+2^6 up
    to that plus [256^l - 1], and 0x10-0x18 in [-256^(8-l), -1], where [l]
    is the low nibble. So the value is negative exactly when the marker is
    below 0x80. *)
Theorem unpack_int_value_range (m : byte) (rest rest' : bytes) (v : Z) :
  unpack_int (m :: rest) = inr (v, rest') ->
  (0x10 <= _ord m <= 0x18 -> - 2 ^ (8 * (8 - _ord m mod 16)) <= v <= - 1)
  /\ (0x20 <= _ord m <= 0x3F -> - 2 ^ 13 - 2 ^ 6 <= v <= - 2 ^ 6 - 1)
  /\ (0x40 <= _ord m <= 0x7F -> - 2 ^ 6 <= v <= - 1)
  /\ (0x80 <= _ord m <= 0xBF -> 0 <= v <= 2 ^ 6 - 1)
  /\ (0xC0 <= _ord m <= 0xDF -> 2 ^ 6 <= v <= 2 ^ 13 + 2 ^ 6 - 1)
  /\ (0xE0 <= _ord m <= 0xEF ->
      2 ^ 13 + 2 ^ 6 <= v < 2 ^ 13 + 2 ^ 6 + 2 ^ (8 * (_ord m mod 16)))
  /\ (v < 0 <-> _ord m < 0x80).
Proof.
  intros H.
  apply unpack_int_inr_inv in H as (Hm & Hlen & -> & _).
  set (k := table_following (_ord m)) in *.
  set (fol := firstn (Z.to_nat k) rest).
  pose proof (table_following_range (_ord m) Hm) as Hk. fold k in Hk.
  assert (Hfl : Z.of_nat (List.length fol) = k)
    by (unfold fol; rewrite length_firstn; lia).
  pose proof (be_uint_range fol) as Hb. rewrite Hfl in Hb.
  assert (H16 : 0 <= _ord m mod 16 < 16) by (apply Z.mod_pos_bound; lia).
  assert (H32 : 0 <= _ord m mod 2 ^ 5 < 2 ^ 5) by (apply Z.mod_pos_bound; lia).
  assert (H64 : 0 <= _ord m mod 2 ^ 6 < 2 ^ 6) by (apply Z.mod_pos_bound; lia).
  assert (Hcases : 0x10 <= _ord m <= 0x18 \/ 0x20 <= _ord m <= 0x3F
                   \/ 0x40 <= _ord m <= 0x7F \/ 0x80 <= _ord m <= 0xBF
                   \/ 0xC0 <= _ord m <= 0xDF \/ 0xE0 <= _ord m <= 0xEF) by lia.
  assert (Hpos : 0 < 2 ^ (8 * k)) by (apply Z.pow_pos_nonneg; lia).
  destruct Hcases as [Hc | [Hc | [Hc | [Hc | [Hc | Hc]]]]];
    unfold table_value; rewrite Hfl;
    revert Hb Hpos; unfold k, table_following; split_tests; intros Hb Hpos;
    change (2 ^ (8 * 1)) with 256 in Hb;
    repeat split; intros; try lia.
Qed.

Lemma unpack_int_value_range_witness :
  2 ^ 6 <= 64 + 256 + 7 <= 2 ^ 13 + 2 ^ 6 - 1.
Proof.
  apply (proj1 (proj2 (proj2 (proj2 (proj2
           (unpack_int_value_range xc1 [x07; x09] [x09] (64 + 256 + 7)
              eq_refl)))))).
  vm_compute. split; discriminate.
Defined.

(** X3. [unpack_int] returns exactly when the marker is one it accepts
    (0x10-0x18 or 0x20-0xEF) and the input holds the following bytes the
    marker calls for; it then consumes the marker and those bytes, 1 to 16
    bytes in all, and returns the rest of the input untouched. An accepted
    marker with too few following bytes raises [IndexError], as does the
    empty input. *)
Theorem unpack_int_consumes (m : byte) (rest : bytes) :
  let k := table_following (_ord m) in
  ((exists v rest', unpack_int (m :: rest) = inr (v, rest'))
   <-> ((0x10 <= _ord m <= 0x18 \/ 0x20 <= _ord m <= 0xEF)
        /\ k <= Z.of_nat (List.length rest)))
  /\ (forall v rest',
         unpack_int (m :: rest) = inr (v, rest') ->
         m :: rest = (m :: firstn (Z.to_nat k) rest) ++ rest'
         /\ Z.of_nat (List.length rest') = Z.of_nat (List.length rest) - k
         /\ 0 <= k <= 15)
  /\ ((0x10 <= _ord m <= 0x18 \/ 0x20 <= _ord m <= 0xEF) ->
      Z.of_nat (List.length rest) < k ->
      unpack_int (m :: rest) = inl IndexError)
  /\ unpack_int [] = inl IndexError.
Proof.
  intros k. split; [split |]; [| | split; [| split]].
  - intros (v & rest' & H). apply unpack_int_inr_inv in H as (Hm & Hlen & _).
    split; assumption.
  - intros [Hm Hlen]. do 2 eexists. apply unpack_int_table; assumption.
  - intros v rest' H. apply unpack_int_inr_inv in H as (Hm & Hlen & _ & ->).
    fold k in Hlen |- *.
    pose proof (table_following_range (_ord m) Hm) as Hk. fold k in Hk.
    split; [cbn [app]; rewrite firstn_skipn; reflexivity |].
    split; [rewrite length_skipn; lia | exact Hk].
  - intros Hm Hlt. apply unpack_int_short; assumption.
  - reflexivity.
Qed.

Lemma unpack_int_consumes_witness :
  [xe2; x01; x00; x09]
  = (xe2 :: firstn (Z.to_nat (table_following (_ord xe2))) [x01; x00; x09])
    ++ [x09]
  /\ Z.of_nat (List.length [x09])
     = Z.of_nat (List.length [x01; x00; x09]) - table_following (_ord xe2)
  /\ 0 <= table_following (_ord xe2) <= 15.
Proof.
  apply (proj1 (proj2 (unpack_int_consumes xe2 [x01; x00; x09])) 8512 [x09]).
  reflexivity.
Defined.

(** X4. When [unpack_uint64_with_sz] returns [(val, sz)], [sz] is the number
    of bytes the packed integer takes in the stream, the marker and the
    following bytes it calls for, between 1 and 16; the stream has advanced
    by [sz] bytes and nothing was printed; [val] is the value that
    [unpack_int] gives on the unread bytes. *)
Theorem unpack_uint64_with_sz_size (b : BinFile) (v sz : Z) :
  res_val (unpack_uint64_with_sz b) = inr (v, sz) ->
  exists m rest,
    unread b = m :: rest
    /\ sz = 1 + table_following (_ord m)
    /\ 1 <= sz <= 16
    /\ unpack_int (unread b) = inr (v, skipn (Z.to_nat (sz - 1)) rest)
    /\ res_file (unpack_uint64_with_sz b)
       = mkBinFile (fileobj b) (position b + Z.to_nat sz)
    /\ res_out (unpack_uint64_with_sz b) = [].
Proof.
  unfold unpack_uint64_with_sz. cbv zeta.
  destruct (unpack_int (unread b)) as [e | [v' rest']] eqn:E.
  - destruct e; cbn; discriminate.
  - cbn [res_val res_file res_out position]. intros H. injection H as <- <-.
    destruct (unread b) as [| m rest] eqn:Hun; [discriminate |].
    pose proof E as E'.
    apply unpack_int_inr_inv in E' as (Hm & Hlen & _ & ->).
    pose proof (table_following_range (_ord m) Hm) as Hk.
    set (k := table_following (_ord m)) in *.
    assert (Hd : (List.length (m :: rest)
                  - List.length (skipn (Z.to_nat k) rest))%nat
                 = Z.to_nat (1 + k))
      by (cbn [List.length]; rewrite length_skipn; lia).
    exists m, rest. rewrite Hd.
    split; [reflexivity |].
    split; [lia |]. split; [lia |].
    split; [do 3 f_equal; lia |].
    split; [do 2 f_equal; lia | reflexivity].
Qed.

Lemma unpack_uint64_with_sz_size_witness :
  exists m rest,
    unread (mkBinFile [x00; xc1; x07; x09] 1) = m :: rest
    /\ 2 = 1 + table_following (_ord m)
    /\ 1 <= 2 <= 16
    /\ unpack_int (unread (mkBinFile [x00; xc1; x07; x09] 1))
       = inr (327, skipn (Z.to_nat (2 - 1)) rest)
    /\ res_file (unpack_uint64_with_sz (mkBinFile [x00; xc1; x07; x09] 1))
       = mkBinFile (fileobj (mkBinFile [x00; xc1; x07; x09] 1))
           (position (mkBinFile [x00; xc1; x07; x09] 1) + Z.to_nat 2)
    /\ res_out (unpack_uint64_with_sz (mkBinFile [x00; xc1; x07; x09] 1)) = [].
Proof.
  apply (unpack_uint64_with_sz_size (mkBinFile [x00; xc1; x07; x09] 1) 327 2).
  reflexivity.
Defined.

(** ** [unpack_int] over a [file_as_array] *)

Lemma bind_raise_eq {A B} (m : M A) (k : A -> M B) (b b' : BinFile)
    (o : list event) (e : exn) :
  m b = mkResult b' o (inl e) -> bind m k b = mkResult b' o (inl e).
Proof. intros H. unfold bind. cbv zeta. rewrite H. reflexivity. Qed.

Lemma stream_eta (b : BinFile) : mkBinFile (fileobj b) (position b + 0) = b.
Proof. rewrite Nat.add_0_r. destruct b. reflexivity. Qed.

Lemma faa_getitem_nil (i s : Z) (b : BinFile) :
  unread b = [] ->
  faa_getitem (mk_file_as_array i s) i b = mkResult b [] (inl IndexError).
Proof.
  intros Hun. unfold faa_getitem. cbn [faa_pos]. rewrite Z.eqb_refl.
  cbn [negb]. erewrite bind_run_eq by apply ret_run. cbv beta.
  erewrite bind_run_eq by (apply read_run; unfold sys_maxsize; lia).
  cbv beta. rewrite Hun. change (Z.to_nat 1) with 1%nat.
  cbn [firstn List.length getitem nth_error lift].
  erewrite bind_raise_eq by reflexivity. rewrite stream_eta. reflexivity.
Qed.

Lemma faa_getitem_cons (i s : Z) (b : BinFile) (d : byte) (rest : bytes) :
  unread b = d :: rest ->
  faa_getitem (mk_file_as_array i s) i b
  = mkResult (mkBinFile (fileobj b) (position b + 1)) []
      (inr (_ord d, mk_file_as_array (i + 1) s)).
Proof.
  intros Hun. unfold faa_getitem. cbn [faa_pos]. rewrite Z.eqb_refl.
  cbn [negb]. erewrite bind_run_eq by apply ret_run. cbv beta.
  erewrite bind_run_eq by (apply read_run; unfold sys_maxsize; lia).
  cbv beta. rewrite Hun. change (Z.to_nat 1) with 1%nat.
  cbn [firstn List.length getitem nth_error lift].
  erewrite bind_run_eq by apply ret_run. cbv beta. reflexivity.
Qed.

Lemma get_int_acc_inr_length (n : nat) : forall (b : bytes) (r v : Z),
  get_int_acc r b n = inr v -> (n <= List.length b)%nat.
Proof.
  intros b r v H. destruct (Nat.le_gt_cases n (List.length b)) as [Hle | Hgt];
    [exact Hle |].
  rewrite get_int_acc_short in H by exact Hgt. discriminate.
Qed.

(** The loop of [get_int] over a [file_as_array] whose [pos] is the next
    index: consecutive reads, no seek. *)
Lemma get_int_loop_faa (n : nat) : forall (i r s : Z) (b : BinFile),
  get_int_loop n i r (mk_file_as_array i s) b
  = match get_int_acc r (unread b) n with
    | inr v =>
        mkResult (mkBinFile (fileobj b) (position b + n)) []
          (inr (v, mk_file_as_array (i + Z.of_nat n) s))
    | inl _ =>
        mkResult (mkBinFile (fileobj b) (position b + List.length (unread b)))
          [] (inl IndexError)
    end.
Proof.
  induction n as [| n IH]; intros i r s b.
  - cbn [get_int_loop get_int_acc]. rewrite ret_run, stream_eta.
    rewrite Z.add_0_r. reflexivity.
  - cbn [get_int_loop get_int_acc index Indexable_file_as_array].
    destruct (unread b) as [| d rest] eqn:Hun.
    + erewrite bind_raise_eq by (apply faa_getitem_nil; exact Hun).
      cbn [List.length]. rewrite stream_eta. reflexivity.
    + erewrite bind_run_eq by (apply (faa_getitem_cons i s b d rest); exact Hun).
      cbv beta. cbn [fst snd]. rewrite prepend_nil, IH.
      rewrite unread_advance, Hun. cbn [skipn fileobj position List.length].
      replace (position b + S (List.length rest))%nat
        with (position b + 1 + List.length rest)%nat by lia.
      replace (position b + S n)%nat with (position b + 1 + n)%nat by lia.
      replace (i + Z.of_nat (S n)) with (i + 1 + Z.of_nat n) by lia.
      reflexivity.
Qed.

Lemma unpack_int_on_faa (b : BinFile) :
  match unread b with
  | [] => unpack_int_on file_as_array_new b = mkResult b [] (inl IndexError)
  | d :: rest =>
      match unpack_int (d :: rest) with
      | inr (v, rest') =>
          exists arr,
            unpack_int_on file_as_array_new b
            = mkResult
                (mkBinFile (fileobj b)
                   (position b + (List.length (d :: rest) - List.length rest')))
                [] (inr (v, arr))
      | inl IndexError =>
          unpack_int_on file_as_array_new b
          = mkResult
              (mkBinFile (fileobj b) (position b + List.length (d :: rest)))
              [] (inl IndexError)
      | inl e =>
          unpack_int_on file_as_array_new b
          = mkResult (mkBinFile (fileobj b) (position b + 1)) [] (inl e)
      end
  end.
Proof.
  destruct (unread b) as [| d rest] eqn:Hun.
  - unfold unpack_int_on, file_as_array_new.
    cbn [index Indexable_file_as_array].
    erewrite bind_raise_eq by (apply faa_getitem_nil; exact Hun). reflexivity.
  - unfold unpack_int_on, file_as_array_new.
    cbn [index Indexable_file_as_array].
    erewrite bind_run_eq by (apply (faa_getitem_cons 0 0 b d rest); exact Hun).
    cbv beta zeta. cbn [fst snd]. rewrite prepend_nil.
    unfold unpack_int. rewrite unpack_int_head. cbv zeta.
    set (b1 := mkBinFile (fileobj b) (position b + 1)).
    assert (Hun1 : unread b1 = rest)
      by (unfold b1; rewrite unread_advance, Hun; reflexivity).
    destruct ((_ord d <? NEG_MULTI_MARKER) || (_ord d >=? 240));
      [reflexivity |].
    destruct (_ord d <? NEG_2BYTE_MARKER).
    { destruct (8 - getbits (_ord d) 4 0 <? 0) eqn:Esz; [reflexivity |].
      unfold get_int_on, get_int.
      cbn [slice_from Indexable_file_as_array faa_slice fst snd skipn].
      unfold bind. cbv zeta. rewrite get_int_loop_faa, Hun1.
      destruct (get_int_acc 0 rest (Z.to_nat (8 - getbits (_ord d) 4 0)))
        as [e | part2] eqn:Eg.
      - apply get_int_acc_exn in Eg. subst e.
        cbn [res_val res_file res_out List.length]. unfold b1.
        cbn [fileobj position]. do 2 f_equal. lia.
      - apply get_int_acc_inr_length in Eg.
        cbn [res_val res_file res_out ret app fst snd List.length].
        eexists. unfold b1. cbn [fileobj position].
        f_equal. f_equal. apply Z.ltb_ge in Esz.
        rewrite skipn_succ_cons by lia. rewrite length_skipn. lia. }
    destruct (_ord d <? NEG_1BYTE_MARKER).
    { cbn [getitem nth_error]. destruct rest as [| y rest].
      - erewrite bind_raise_eq by (apply faa_getitem_nil; exact Hun1).
        reflexivity.
      - erewrite bind_run_eq
          by (apply (faa_getitem_cons 1 0 b1 y rest); exact Hun1).
        cbv beta. rewrite ret_run. unfold prepend.
        cbn [res_val res_file res_out app fst snd skipn List.length].
        eexists. unfold b1. cbn [fileobj position].
        do 2 f_equal. lia. }
    destruct (_ord d <? POS_1BYTE_MARKER).
    { rewrite ret_run. eexists. unfold b1. cbn [skipn List.length].
      do 2 f_equal. lia. }
    destruct (_ord d <? POS_2BYTE_MARKER).
    { rewrite ret_run. eexists. unfold b1. cbn [skipn List.length].
      do 2 f_equal. lia. }
    destruct (_ord d <? POS_MULTI_MARKER).
    { cbn [getitem nth_error]. destruct rest as [| y rest].
      - erewrite bind_raise_eq by (apply faa_getitem_nil; exact Hun1).
        reflexivity.
      - erewrite bind_run_eq
          by (apply (faa_getitem_cons 1 0 b1 y rest); exact Hun1).
        cbv beta. rewrite ret_run. unfold prepend.
        cbn [res_val res_file res_out app fst snd skipn List.length].
        eexists. unfold b1. cbn [fileobj position].
        do 2 f_equal. lia. }
    unfold get_int_on, get_int.
    cbn [slice_from Indexable_file_as_array faa_slice fst snd skipn].
    unfold bind. cbv zeta. rewrite get_int_loop_faa, Hun1.
    destruct (get_int_acc 0 rest (Z.to_nat (getbits (_ord d) 4 0)))
      as [e | part2] eqn:Eg.
    + apply get_int_acc_exn in Eg. subst e.
      cbn [res_val res_file res_out List.length]. unfold b1.
      cbn [fileobj position]. do 2 f_equal. lia.
    + apply get_int_acc_inr_length in Eg.
      cbn [res_val res_file res_out ret app fst snd List.length].
      eexists. unfold b1. cbn [fileobj position].
      f_equal. f_equal.
      assert (0 <= getbits (_ord d) 4 0).
      { rewrite getbits_low by lia. apply Z.mod_pos_bound. lia. }
      rewrite skipn_succ_cons by lia. rewrite length_skipn. lia.
Qed.

(** X5. Reading a packed integer through [file_as_array], as
    [unpack_uint64_with_sz] does, is the same as decoding the unread bytes
    of the stream and advancing past the bytes decoded: [unpack_int] indexes
    the array in order, so every index is served by the next byte of the
    stream and the array never seeks; value, size, exception and final
    position all agree. *)
Theorem file_as_array_reads_in_order (b : BinFile) :
  unpack_uint64_with_sz_faa b = unpack_uint64_with_sz b.
Proof.
  unfold unpack_uint64_with_sz_faa, unpack_uint64_with_sz. cbv zeta.
  erewrite bind_run_eq by apply tell_run. cbv beta. rewrite prepend_nil.
  pose proof (unpack_int_on_faa b) as H.
  destruct (unread b) as [| d rest] eqn:Hun.
  - erewrite bind_raise_eq by exact H. cbn [unpack_int getitem nth_error].
    cbn [List.length]. rewrite stream_eta. reflexivity.
  - destruct (unpack_int (d :: rest)) as [e | [v rest']].
    + destruct e; erewrite bind_raise_eq by exact H; reflexivity.
    + destruct H as [arr H]. erewrite bind_run_eq by exact H. cbv beta.
      erewrite bind_run_eq by apply tell_run. cbv beta.
      rewrite ret_run. unfold prepend.
      cbn [res_val res_file res_out app fst position]. reflexivity.
Qed.

(** ** [unpack_int] over [bytes] *)

Lemma index_bytes (b : bytes) (i : nat) (s : BinFile) :
  index b (Z.of_nat i) s
  = mkResult s []
      (match nth_error b i with
       | Some x => inr (_ord x, b)
       | None => inl IndexError
       end).
Proof.
  cbn [index Indexable_bytes]. cbv zeta.
  destruct (Z.ltb_spec (Z.of_nat i) 0); [lia |].
  destruct (Z.ltb_spec (Z.of_nat i) 0); [lia |].
  rewrite Nat2Z.id. unfold getitem.
  destruct (nth_error b i); reflexivity.
Qed.

Lemma nth_error_skipn_head (b : bytes) : forall (i : nat),
  nth_error b i = hd_error (skipn i b).
Proof.
  induction b as [| x b IH]; intros [| i]; try reflexivity. apply IH.
Qed.

Lemma skipn_tail (b : bytes) : forall (i : nat) (x : byte) (l : bytes),
  skipn i b = x :: l -> skipn (S i) b = l.
Proof.
  induction b as [| y b IH]; intros [| i] x l H; try discriminate.
  - injection H as _ <-. reflexivity.
  - exact (IH i x l H).
Qed.

Lemma get_int_loop_bytes (n : nat) : forall (i : nat) (r : Z) (b : bytes)
    (s : BinFile),
  get_int_loop n (Z.of_nat i) r b s
  = mkResult s []
      (match get_int_acc r (skipn i b) n with
       | inr v => inr (v, b)
       | inl e => inl e
       end).
Proof.
  induction n as [| n IH]; intros i r b s.
  - reflexivity.
  - cbn [get_int_loop get_int_acc]. unfold bind. cbv zeta.
    rewrite index_bytes, nth_error_skipn_head.
    destruct (skipn i b) as [| x l] eqn:Hs; cbn [hd_error res_val res_file res_out].
    + reflexivity.
    + cbn [fst snd]. replace (Z.of_nat i + 1) with (Z.of_nat (S i)) by lia.
      rewrite IH, (skipn_tail b i x l Hs). reflexivity.
Qed.

Lemma index_bytes_0 (b : bytes) (s : BinFile) :
  index b 0 s
  = mkResult s []
      (match nth_error b 0 with
       | Some x => inr (_ord x, b)
       | None => inl IndexError
       end).
Proof. exact (index_bytes b 0 s). Qed.

Lemma index_bytes_1 (b : bytes) (s : BinFile) :
  index b 1 s
  = mkResult s []
      (match nth_error b 1 with
       | Some x => inr (_ord x, b)
       | None => inl IndexError
       end).
Proof. exact (index_bytes b 1 s). Qed.

Lemma get_int_on_bytes (b : bytes) (size : Z) (s : BinFile) :
  get_int_on b size s
  = mkResult s []
      (match get_int b size with
       | inr v => inr (v, b)
       | inl e => inl e
       end).
Proof. exact (get_int_loop_bytes (Z.to_nat size) 0 0 b s). Qed.

Lemma unpack_int_on_bytes (b : bytes) (s : BinFile) :
  unpack_int_on b s = mkResult s [] (unpack_int b).
Proof.
  unfold unpack_int_on, unpack_int, getitem. unfold bind at 1. cbv zeta.
  rewrite (index_bytes_0 b s).
  destruct b as [| d rest]; cbn [nth_error res_val res_file res_out fst snd];
    [reflexivity |].
  destruct ((_ord d <? NEG_MULTI_MARKER) || (_ord d >=? 240));
    [reflexivity |].
  assert (Hg : 0 <= getbits (_ord d) 4 0)
    by (rewrite getbits_low by lia; apply Z.mod_pos_bound; lia).
  destruct (_ord d <? NEG_2BYTE_MARKER).
  { destruct (8 - getbits (_ord d) 4 0 <? 0) eqn:Esz; [reflexivity |].
    apply Z.ltb_ge in Esz.
    cbn [slice_from Indexable_bytes fst snd]. cbv zeta.
    destruct (Z.ltb_spec 1 0); [lia |].
    destruct (Z.ltb_spec (8 - getbits (_ord d) 4 0 + 1) 0); [lia |].
    unfold bind. cbv zeta. rewrite get_int_on_bytes.
    change (Z.to_nat 1) with 1%nat. cbn [skipn].
    destruct (get_int rest (8 - getbits (_ord d) 4 0)); reflexivity. }
  destruct (_ord d <? NEG_1BYTE_MARKER).
  { unfold bind. cbv zeta. rewrite (index_bytes_1 (d :: rest) s).
    cbn [nth_error]. destruct rest as [| y rest]; reflexivity. }
  destruct (_ord d <? POS_1BYTE_MARKER); [reflexivity |].
  destruct (_ord d <? POS_2BYTE_MARKER); [reflexivity |].
  destruct (_ord d <? POS_MULTI_MARKER).
  { unfold bind. cbv zeta. rewrite (index_bytes_1 (d :: rest) s).
    cbn [nth_error]. destruct rest as [| y rest]; reflexivity. }
  cbn [slice_from Indexable_bytes fst snd]. cbv zeta.
  destruct (Z.ltb_spec 1 0); [lia |].
  destruct (Z.ltb_spec (getbits (_ord d) 4 0 + 1) 0); [lia |].
  unfold bind. cbv zeta. rewrite get_int_on_bytes.
  change (Z.to_nat 1) with 1%nat. cbn [skipn].
  destruct (get_int rest (getbits (_ord d) 4 0)); reflexivity.
Qed.

(** X6. The code of [unpack_int] gives the same answer on a [bytes] object
    and on a [file_as_array] over a stream whose unread bytes are that
    object: the same value, with the stream left at the bytes the [bytes]
    run returns as the rest, or the same exception. *)
Theorem unpack_int_same_on_bytes_and_file (b s : BinFile) :
  match res_val (unpack_int_on (unread b) s),
        res_val (unpack_int_on file_as_array_new b) with
  | inr (v1, rest), inr (v2, _) =>
      v1 = v2 /\ unread (res_file (unpack_int_on file_as_array_new b)) = rest
  | inl e1, inl e2 => e1 = e2
  | _, _ => False
  end.
Proof.
  rewrite unpack_int_on_bytes. cbn [res_val].
  pose proof (unpack_int_on_faa b) as H.
  destruct (unread b) as [| d rest] eqn:Hun.
  - rewrite H. reflexivity.
  - destruct (unpack_int (d :: rest)) as [e | [v rest']] eqn:E.
    + destruct e; rewrite H; reflexivity.
    + destruct H as [arr H]. rewrite H. cbn [res_val res_file].
      split; [reflexivity |].
      apply unpack_int_inr_inv in E as (Hm & Hlen & _ & ->).
      pose proof (table_following_range (_ord d) Hm) as Hk.
      rewrite unread_advance, Hun.
      replace (List.length (d :: rest)
               - List.length (skipn (Z.to_nat (table_following (_ord d))) rest))%nat
        with (S (Z.to_nat (table_following (_ord d))))
        by (cbn [List.length]; rewrite length_skipn; lia).
      reflexivity.
Qed.

(** ** Timestamps and transaction ids of a cell *)

Lemma bind_inr_file {A B} (m : M A) (k : A -> M B) (b : BinFile) (c : B) :
  res_val (bind m k b) = inr c ->
  exists a, res_val (m b) = inr a
            /\ res_val (k a (res_file (m b))) = inr c
            /\ res_file (bind m k b) = res_file (k a (res_file (m b))).
Proof.
  intros H. destruct (bind_inr m k b c H) as (a & Ha & Hc).
  exists a. split; [exact Ha |]. split; [exact Hc |].
  apply (bind_file m k b a Ha).
Qed.

(** One field of [process_timestamps]: what it does to the stream and to
    every counter. *)
Lemma timestamp_field_step (extra mask : Z) (f : ts_field) (label : string)
    (s s' : PageStats) (b : BinFile) :
  res_val (timestamp_field extra mask f label s b) = inr s' ->
  exists sz,
    fileobj (res_file (timestamp_field extra mask f label s b)) = fileobj b
    /\ Z.of_nat (position (res_file (timestamp_field extra mask f label s b)))
       = Z.of_nat (position b) + sz
    /\ ts_ind extra mask <= sz <= 16 * ts_ind extra mask
    /\ same_keys s s'
    /\ (forall g, ts_count g s'
                  = ts_count g s
                    + (if ts_field_eqb f g then ts_ind extra mask else 0))
    /\ (forall g, ts_size g s'
                  = ts_size g s + (if ts_field_eqb f g then sz else 0)).
Proof.
  unfold timestamp_field, ts_ind.
  destruct (Z.land extra mask =? 0); cbn [negb].
  - cbn [ret res_val res_file]. intros H. injection H as <-.
    exists 0. split; [reflexivity |]. split; [lia |]. split; [lia |].
    split; [apply same_keys_refl |].
    split; intros g; destruct (ts_field_eqb f g); lia.
  - intros H. apply bind_inr_file in H as ([v sz] & Hr & H & Hf).
    rewrite Hf. clear Hf.
    apply bind_inr_file in H as (u & _ & H & Hf). rewrite Hf. clear Hf.
    cbn [rint_v emit res_file ret res_val fst snd] in H |- *.
    injection H as <-.
    destruct (unpack_uint64_with_sz_size b v sz Hr)
      as (m & rest & _ & _ & Hsz & _ & Hfile & _).
    rewrite Hfile. cbn [fileobj position].
    exists sz. split; [reflexivity |]. split; [lia |]. split; [lia |].
    split; [apply same_keys_count_ts, same_keys_refl |].
    split; intros g; destruct f, g; cbn; lia.
Qed.

(** X7. When [process_timestamps] returns, every timestamp and transaction
    counter has gone up by one exactly when its bit is set in the extra
    descriptor byte, the byte totals of these fields have gone up together
    by the number of bytes read from the stream (1 to 16 for each field
    present), the statistics of keys are untouched, and a zero byte reads
    nothing and changes nothing. *)
Theorem process_timestamps_accounting (extra : Z) (s s' : PageStats)
    (b : BinFile) :
  res_val (process_timestamps extra s b) = inr s' ->
  let b' := res_file (process_timestamps extra s b) in
  fileobj b' = fileobj b
  /\ (forall f, ts_count f s' = ts_count f s + ts_ind extra (ts_mask f))
  /\ (forall f, ts_size f s + ts_ind extra (ts_mask f) <= ts_size f s'
                <= ts_size f s + 16 * ts_ind extra (ts_mask f))
  /\ ts_sz s' + txn_sz s'
     = ts_sz s + txn_sz s + (Z.of_nat (position b') - Z.of_nat (position b))
  /\ same_keys s s'
  /\ (extra = 0 -> b' = b /\ s' = s).
Proof.
  intros H b'. unfold b'. clear b'. unfold process_timestamps in H |- *.
  destruct (Z.eqb_spec extra 0) as [E0 | E0]; cbn [negb] in H |- *.
  - cbn [ret res_val res_file] in H |- *. injection H as <-. subst extra.
    split; [reflexivity |].
    split; [intros f; destruct f; cbn; lia |].
    split; [intros f; destruct f; cbn; lia |].
    split; [lia |].
    split; [apply same_keys_refl |].
    intros _. split; reflexivity.
  - apply bind_inr_file in H as (u0 & _ & H & Hf). rewrite Hf. clear Hf.
    cbn [rint_v emit res_file] in H |- *.
    apply bind_inr_file in H as (u1 & _ & H & Hf). rewrite Hf. clear Hf.
    assert (Hprep : res_file
                      ((if negb (Z.land extra WT_CELL_PREPARE =? 0)
                        then rint_v (Text " prepared") else ret tt) b) = b)
      by (destruct (negb (Z.land extra WT_CELL_PREPARE =? 0)); reflexivity).
    rewrite Hprep in H |- *. clear Hprep.
    apply bind_inr_file in H as (s1 & H1 & H & Hf). rewrite Hf. clear Hf.
    destruct (timestamp_field_step _ _ _ _ _ _ _ H1)
      as (z1 & F1 & P1 & R1 & K1 & C1 & S1).
    set (b1 := res_file (timestamp_field extra WT_CELL_TS_DURABLE_START
                           F_d_start_ts " durable start ts: " s b)) in *.
    apply bind_inr_file in H as (s2 & H2 & H & Hf). rewrite Hf. clear Hf.
    destruct (timestamp_field_step _ _ _ _ _ _ _ H2)
      as (z2 & F2 & P2 & R2 & K2 & C2 & S2).
    set (b2 := res_file (timestamp_field extra WT_CELL_TS_DURABLE_STOP
                           F_d_stop_ts " durable stop ts: " s1 b1)) in *.
    apply bind_inr_file in H as (s3 & H3 & H & Hf). rewrite Hf. clear Hf.
    destruct (timestamp_field_step _ _ _ _ _ _ _ H3)
      as (z3 & F3 & P3 & R3 & K3 & C3 & S3).
    set (b3 := res_file (timestamp_field extra WT_CELL_TS_START
                           F_start_ts " start ts: " s2 b2)) in *.
    apply bind_inr_file in H as (s4 & H4 & H & Hf). rewrite Hf. clear Hf.
    destruct (timestamp_field_step _ _ _ _ _ _ _ H4)
      as (z4 & F4 & P4 & R4 & K4 & C4 & S4).
    set (b4 := res_file (timestamp_field extra WT_CELL_TS_STOP
                           F_stop_ts " stop ts: " s3 b3)) in *.
    apply bind_inr_file in H as (s5 & H5 & H & Hf). rewrite Hf. clear Hf.
    destruct (timestamp_field_step _ _ _ _ _ _ _ H5)
      as (z5 & F5 & P5 & R5 & K5 & C5 & S5).
    set (b5 := res_file (timestamp_field extra WT_CELL_TXN_START
                           F_start_txn " start txn: " s4 b4)) in *.
    apply bind_inr_file in H as (s6 & H6 & H & Hf). rewrite Hf. clear Hf.
    destruct (timestamp_field_step _ _ _ _ _ _ _ H6)
      as (z6 & F6 & P6 & R6 & K6 & C6 & S6).
    set (b6 := res_file (timestamp_field extra WT_CELL_TXN_STOP
                           F_stop_txn " stop txn: " s5 b5)) in *.
    apply bind_inr_file in H as (u2 & _ & H & Hf). rewrite Hf. clear Hf.
    assert (Hjunk : res_file
                      ((if negb (Z.land extra 128 =? 0)
                        then rint_v (Num " *** JUNK in extra descriptor: " extra)
                        else ret tt) b6) = b6)
      by (destruct (negb (Z.land extra 128 =? 0)); reflexivity).
    rewrite Hjunk in H |- *. clear Hjunk.
    cbn [ret res_val res_file] in H |- *. injection H as <-.
    split; [congruence |].
    split.
    { intros f. rewrite (C6 f), (C5 f), (C4 f), (C3 f), (C2 f), (C1 f).
      destruct f; cbn [ts_field_eqb ts_mask]; lia. }
    split.
    { intros f. rewrite (S6 f), (S5 f), (S4 f), (S3 f), (S2 f), (S1 f).
      destruct f; cbn [ts_field_eqb ts_mask]; lia. }
    split.
    { assert (T : forall f, ts_size f s6
                = ts_size f s
                  + (if ts_field_eqb F_d_start_ts f then z1 else 0)
                  + (if ts_field_eqb F_d_stop_ts f then z2 else 0)
                  + (if ts_field_eqb F_start_ts f then z3 else 0)
                  + (if ts_field_eqb F_stop_ts f then z4 else 0)
                  + (if ts_field_eqb F_start_txn f then z5 else 0)
                  + (if ts_field_eqb F_stop_txn f then z6 else 0))
        by (intros f; rewrite (S6 f), (S5 f), (S4 f), (S3 f), (S2 f), (S1 f);
            reflexivity).
      pose proof (T F_d_start_ts) as A1. pose proof (T F_d_stop_ts) as A2.
      pose proof (T F_start_ts) as A3. pose proof (T F_stop_ts) as A4.
      pose proof (T F_start_txn) as A5. pose proof (T F_stop_txn) as A6.
      cbn [ts_field_eqb ts_size] in A1, A2, A3, A4, A5, A6.
      unfold ts_sz, txn_sz. lia. }
    split.
    { destruct K1, K2, K3, K4, K5, K6. split; congruence. }
    intros E. contradiction.
Qed.

Lemma process_timestamps_accounting_witness :
  fileobj (res_file (process_timestamps 0x0a PageStats_new
                       (BytesIO [x85; xc1; x07; x09])))
  = fileobj (BytesIO [x85; xc1; x07; x09])
  /\ (forall f, ts_count f (count_ts F_start_ts 2 (count_ts F_d_start_ts 1 PageStats_new))
                = ts_count f PageStats_new + ts_ind 0x0a (ts_mask f))
  /\ (forall f, ts_size f PageStats_new + ts_ind 0x0a (ts_mask f)
                <= ts_size f (count_ts F_start_ts 2 (count_ts F_d_start_ts 1 PageStats_new))
                <= ts_size f PageStats_new + 16 * ts_ind 0x0a (ts_mask f))
  /\ ts_sz (count_ts F_start_ts 2 (count_ts F_d_start_ts 1 PageStats_new))
     + txn_sz (count_ts F_start_ts 2 (count_ts F_d_start_ts 1 PageStats_new))
     = ts_sz PageStats_new + txn_sz PageStats_new
       + (Z.of_nat (position (res_file (process_timestamps 0x0a PageStats_new
                                          (BytesIO [x85; xc1; x07; x09]))))
          - Z.of_nat (position (BytesIO [x85; xc1; x07; x09])))
  /\ same_keys PageStats_new
       (count_ts F_start_ts 2 (count_ts F_d_start_ts 1 PageStats_new))
  /\ (0x0a = 0 ->
      res_file (process_timestamps 0x0a PageStats_new
                  (BytesIO [x85; xc1; x07; x09]))
      = BytesIO [x85; xc1; x07; x09]
      /\ count_ts F_start_ts 2 (count_ts F_d_start_ts 1 PageStats_new)
         = PageStats_new).
Proof.
  apply (process_timestamps_accounting 0x0a PageStats_new
           (count_ts F_start_ts 2 (count_ts F_d_start_ts 1 PageStats_new))
           (BytesIO [x85; xc1; x07; x09])).
  reflexivity.
Defined.

(** ** The headers of a block *)

Ltac rejected :=
  run_done;
  split; [eexists; reflexivity |];
  intros ? ?; split;
  [ discriminate
  | intros (? & ? & ? & ? & ? & ? & ?); first [contradiction | lia | congruence] ].

(** X8. [block_headers] never raises, whatever the bytes it is given. It
    accepts a header exactly when the unused byte of the page header (offset
    26) and the three unused bytes of the block header (offsets 37 to 39) are
    zero, the page type (offset 24) is not zero and the disk size (offset 28)
    is between 40 and 17 MiB; the headers it returns are the little-endian
    fields at their fixed offsets. *)
Theorem block_headers_accepts (pd : bytes) :
  (exists h, res_val (block_headers (BytesIO pd)) = inr h)
  /\ forall (ph : PageHeader) (bh : BlockHeader),
       res_val (block_headers (BytesIO pd)) = inr (Some (ph, bh))
       <-> (field pd 26 1 = 0
            /\ field pd 24 1 <> 0
            /\ field pd 37 1 = 0 /\ field pd 38 1 = 0 /\ field pd 39 1 = 0
            /\ 40 <= field pd 28 4 <= 17 * 1024 * 1024
            /\ ph = mkPageHeader (field pd 0 8) (field pd 8 8) (field pd 16 4)
                      (field pd 20 4) (field pd 24 1) (field pd 25 1)
                      (field pd 27 1)
               /\ bh = mkBlockHeader (field pd 28 4) (field pd 32 4)
                         (field pd 36 1)).
Proof.
  change (BytesIO pd) with (cursor pd 0). unfold block_headers.
  repeat run_step.
  destruct (Z.eqb_spec (field pd 26 1) 0) as [Eu | Eu]; cbn [negb];
    [| repeat run_step; rejected].
  destruct (Z.eqb_spec (field pd 24 1) 0) as [Et | Et];
    [repeat run_step; rejected |].
  repeat run_step.
  destruct (Z.eqb_spec (field pd 37 1) 0) as [E1 | E1]; cbn [negb];
    [| repeat run_step; rejected].
  repeat run_step.
  destruct (Z.eqb_spec (field pd 38 1) 0) as [E2 | E2]; cbn [negb];
    [| repeat run_step; rejected].
  repeat run_step.
  destruct (Z.eqb_spec (field pd 39 1) 0) as [E3 | E3]; cbn [negb];
    [| repeat run_step; rejected].
  destruct (Z.gtb_spec (field pd 28 4) (17 * 1024 * 1024)) as [Hbig | Hbig];
    [repeat run_step; rejected |].
  destruct (Z.ltb_spec (field pd 28 4) 40) as [Hsmall | Hsmall];
    [rejected |].
  repeat run_step. run_done.
  split; [eexists; reflexivity |].
  intros ph bh. split.
  - intros H. injection H as <- <-.
    repeat (split; [first [assumption | lia | reflexivity] |]). reflexivity.
  - intros (_ & _ & _ & _ & _ & _ & -> & ->). reflexivity.
Qed.

(** ** The position of the file stream *)

Lemma sa_ret {A} (p : Z) (a : A) (Q : A -> Prop) :
  Q a -> stays_above p (ret a) Q.
Proof.
  intros H b Hb. cbn. split; [reflexivity |]. split; [exact Hb |].
  intros a' E. injection E as <-. exact H.
Qed.

Lemma sa_raise {A} (p : Z) (e : exn) (Q : A -> Prop) :
  stays_above p (raise e) Q.
Proof.
  intros b Hb. cbn. split; [reflexivity |]. split; [exact Hb |].
  intros a' E. discriminate E.
Qed.

Lemma sa_lift {A} (p : Z) (x : exn + A) :
  stays_above p (lift x) (fun _ => True).
Proof. destruct x; [apply sa_raise | apply sa_ret; exact I]. Qed.

Lemma sa_emit (p : Z) (e : event) : stays_above p (emit e) (fun _ => True).
Proof.
  intros b Hb. cbn. split; [reflexivity |]. split; [exact Hb |].
  intros; exact I.
Qed.

Lemma sa_tell (p : Z) : stays_above p tell (fun v => p <= v).
Proof.
  intros b Hb. cbn. split; [reflexivity |]. split; [exact Hb |].
  intros a E. injection E as <-. exact Hb.
Qed.

Lemma sa_seek (p n : Z) : p <= n -> stays_above p (seek n) (fun _ => True).
Proof.
  intros H b Hb. unfold seek. destruct (Z.ltb_spec n 0); cbn.
  - split; [reflexivity |]. split; [exact Hb |]. intros; exact I.
  - split; [reflexivity |]. split; [lia |]. intros; exact I.
Qed.

Lemma sa_read (p n : Z) : stays_above p (read n) (fun _ => True).
Proof.
  intros b Hb. unfold read.
  destruct (n <? 0); [| destruct (n >? sys_maxsize)]; cbn;
    (split; [reflexivity |]); (split; [lia |]); intros; exact I.
Qed.

Lemma sa_bind {A B} (p : Z) (m : M A) (k : A -> M B)
    (Q1 : A -> Prop) (Q2 : B -> Prop) :
  stays_above p m Q1 -> (forall a, Q1 a -> stays_above p (k a) Q2) ->
  stays_above p (bind m k) Q2.
Proof.
  intros Hm Hk b Hb. destruct (Hm b Hb) as (F & P & V).
  unfold bind. cbv zeta. destruct (res_val (m b)) as [e | a] eqn:E.
  - cbn. split; [exact F |]. split; [exact P |]. intros a' E'. discriminate E'.
  - destruct (Hk a (V a eq_refl) (res_file (m b)) P) as (F' & P' & V').
    cbn. split; [congruence |]. split; [exact P' |]. exact V'.
Qed.

Lemma sa_weaken {A} (p : Z) (m : M A) (Q1 Q2 : A -> Prop) :
  stays_above p m Q1 -> (forall a, Q1 a -> Q2 a) -> stays_above p m Q2.
Proof.
  intros H HQ b Hb. destruct (H b Hb) as (F & P & V).
  split; [exact F |]. split; [exact P |]. intros a E. exact (HQ a (V a E)).
Qed.

Lemma sa_try_except {A} (p : Z) (m h : M A) (handled : exn -> bool)
    (Q : A -> Prop) :
  stays_above p m Q -> stays_above p h Q ->
  stays_above p (try_except m handled h) Q.
Proof.
  intros Hm Hh b Hb. destruct (Hm b Hb) as (F & P & V).
  unfold try_except. cbv zeta. destruct (res_val (m b)) as [e | a] eqn:E.
  - destruct (handled e).
    + destruct (Hh (res_file (m b)) P) as (F' & P' & V').
      cbn. split; [congruence |]. split; [exact P' |]. exact V'.
    + split; [exact F |]. split; [exact P |]. rewrite E. intros a E'.
      discriminate E'.
  - split; [exact F |]. split; [exact P |]. rewrite E. exact V.
Qed.

Lemma sa_on_page {A} (p : Z) (bp : BinFile) (m : M A) (Q : A -> Prop) :
  post m Q -> stays_above p (on_page bp m) Q.
Proof.
  intros H b Hb. unfold on_page. cbn.
  split; [reflexivity |]. split; [exact Hb |]. intros a E. exact (H bp a E).
Qed.

Lemma sa_uint (p n : Z) :
  stays_above p (x <- read n ;; ret (from_bytes_little x)) (fun _ => True).
Proof.
  eapply sa_bind; [apply sa_read | intros x _; apply sa_ret; exact I].
Qed.

Ltac sa_step :=
  first [ apply sa_ret; try exact I
        | apply sa_emit | apply sa_read | apply sa_lift | apply sa_uint
        | apply sa_tell
        | eapply sa_bind; [| intros ? ?] ].

(** The disk size of an accepted header, on any stream. *)
Lemma post_block_headers :
  post block_headers
    (fun h => match h with
              | Some (_, bh) => 40 <= disk_size bh
              | None => True
              end).
Proof.
  unfold block_headers.
  eapply post_bind; [apply post_any | intros recno' _].
  eapply post_bind; [apply post_any | intros writegen' _].
  eapply post_bind; [apply post_any | intros memsize' _].
  eapply post_bind; [apply post_any | intros ncells' _].
  eapply post_bind; [apply post_any | intros type' _].
  eapply post_bind; [apply post_any | intros flags' _].
  eapply post_bind; [apply post_any | intros unused _].
  eapply post_bind; [apply post_any | intros version' _].
  destruct (negb (unused =? 0)); [repeat post_step; exact I |].
  destruct (type' =? 0); [repeat post_step; exact I |].
  do 8 post_step.
  eapply post_bind; [apply post_any | intros disk_size' _].
  eapply post_bind; [apply post_any | intros checksum' _].
  eapply post_bind; [apply post_any | intros bflags _].
  eapply post_bind; [apply post_any | intros u1 _].
  eapply post_bind; [apply post_any | intros g _].
  destruct g; [repeat post_step; exact I |].
  destruct (disk_size' >? 17 * 1024 * 1024); [repeat post_step; exact I |].
  destruct (Z.ltb_spec disk_size' 40); [repeat post_step; exact I |].
  repeat post_step. exact H.
Qed.

Lemma sa_verify_checksum (crc32c : bytes -> Z) (p disk_pos : Z)
    (blockhead : BlockHeader) :
  p <= disk_pos ->
  stays_above p (verify_checksum crc32c disk_pos blockhead) (fun _ => True).
Proof.
  intros Hd. unfold verify_checksum.
  eapply sa_bind; [apply sa_tell | intros savepos Hs].
  eapply sa_bind; [apply sa_seek; exact Hd | intros _ _].
  eapply sa_bind; [apply sa_read | intros data _].
  eapply sa_bind; [apply sa_seek; exact Hs | intros _ _].
  eapply sa_bind; [apply sa_lift | intros d1 _].
  eapply sa_bind; [apply sa_lift | intros d2 _].
  eapply sa_bind; [apply sa_lift | intros d3 _].
  eapply sa_bind; [apply sa_lift | intros d4 _].
  destruct (Z.of_nat (List.length d4) <? _); [repeat sa_step |].
  cbv zeta. destruct (negb _); repeat sa_step.
Qed.

Lemma sa_read_payload (have_snappy : bool)
    (snappy_uncompress : bytes -> exn + bytes) (p disk_pos header_length : Z)
    (pagehead : PageHeader) (blockhead : BlockHeader) :
  p <= disk_pos -> 0 <= disk_size blockhead ->
  stays_above p
    (read_payload have_snappy snappy_uncompress disk_pos header_length
       pagehead blockhead)
    (fun _ => True).
Proof.
  intros Hd Hs. unfold read_payload.
  destruct (negb (Z.land (flags pagehead) 1 =? 0)).
  - destruct (negb have_snappy); [repeat sa_step |].
    apply sa_try_except; [| repeat sa_step].
    cbv zeta.
    eapply sa_bind; [apply sa_read | intros payload_data _].
    eapply sa_bind; [apply sa_uint | intros u _].
    eapply sa_bind; [apply sa_read | intros compressed_data _].
    eapply sa_bind; [apply sa_seek; lia | intros _ _].
    repeat sa_step.
  - eapply sa_bind; [apply sa_read | intros payload_data _].
    eapply sa_bind; [apply sa_seek; lia | intros _ _].
    repeat sa_step.
Qed.

Lemma sa_block_decode (have_crc32c : bool) (crc32c : bytes -> Z)
    (have_snappy : bool) (snappy_uncompress : bytes -> exn + bytes)
    (opts : Opts) (p : Z) :
  stays_above p
    (block_decode have_crc32c crc32c have_snappy snappy_uncompress opts)
    (fun _ => True).
Proof.
  unfold block_decode.
  eapply sa_bind; [apply sa_tell | intros disk_pos Hd].
  cbv beta in Hd.
  eapply sa_bind; [apply sa_read | intros page_data _].
  eapply sa_bind; [apply sa_on_page, post_block_headers | intros hdrs Hh].
  destruct hdrs as [[pagehead blockhead] |]; [| apply sa_ret; exact I].
  cbv beta iota in Hh. cbv zeta.
  eapply sa_bind with (Q1 := fun _ => True).
  { destruct have_crc32c;
      [apply sa_verify_checksum; exact Hd | apply sa_ret; exact I]. }
  intros ok _.
  destruct (negb ok); [apply sa_ret; exact I |].
  destruct (skip_data opts); [apply sa_seek; lia |].
  eapply sa_bind; [apply sa_tell | intros payload_pos _].
  cbv zeta.
  eapply sa_bind; [apply sa_read_payload; [exact Hd | lia] | intros payload _].
  destruct payload as [payload_data |]; [| apply sa_ret; exact I].
  eapply sa_bind; [apply sa_on_page, post_any | intros pagestats' _].
  unfold outfile_stats_end. destruct (output opts); repeat sa_step.
Qed.

(** X9. Whatever the bytes of the file and the options, and whether it
    returns or raises, [block_decode] leaves the file stream at or after the
    position where it found it: the checksum check and the seek to the end
    of the block never take the stream back before the start of the block. *)
Theorem block_decode_moves_forward (have_crc32c : bool) (crc32c : bytes -> Z)
    (have_snappy : bool) (snappy_uncompress : bytes -> exn + bytes)
    (opts : Opts) (b : BinFile) :
  fileobj (res_file (block_decode have_crc32c crc32c have_snappy
                       snappy_uncompress opts b))
  = fileobj b
  /\ (position b
      <= position (res_file (block_decode have_crc32c crc32c have_snappy
                               snappy_uncompress opts b)))%nat.
Proof.
  destruct (sa_block_decode have_crc32c crc32c have_snappy snappy_uncompress
              opts (Z.of_nat (position b)) b (Z.le_refl _)) as (F & P & _).
  split; [exact F | lia].
Qed.

Lemma align512_multiple (p : Z) : align512 p mod 512 = 0.
Proof.
  unfold align512. rewrite <- Z.ldiff_land.
  change (Z.ldiff (p + 511) 511) with (Z.ldiff (p + 511) (Z.ones 9)).
  rewrite Z.ldiff_ones_r by lia.
  rewrite Z.shiftl_mul_pow2 by lia.
  apply Z.mod_mul. discriminate.
Qed.

Lemma next_startblock (startblock pos : Z) :
  startblock <= pos ->
  startblock < (if startblock =? align512 pos then startblock + 0x200
                else align512 pos)
  /\ (if startblock =? align512 pos then startblock + 0x200
      else align512 pos) mod 512 = 0.
Proof.
  intros Hp.
  pose proof (align512_ge pos). pose proof (align512_multiple pos) as Hm.
  destruct (Z.eqb_spec startblock (align512 pos)) as [E | E].
  - split; [clear Hm; lia |]. rewrite E.
    replace (align512 pos + 0x200) with (align512 pos + 1 * 512)
      by reflexivity.
    rewrite Z.mod_add by discriminate. exact Hm.
  - split; [clear Hm; lia | exact Hm].
Qed.

(** Two actions that leave the stream alone, a seek to [p], then an action
    that stays at [p] or beyond. *)
Lemma seek_then_stay {A} (pre1 pre2 : M unit) (rest : M A) (p : Z)
    (Q : A -> Prop) (b : BinFile) :
  (forall b0, res_file (pre1 b0) = b0 /\ res_val (pre1 b0) = inr tt) ->
  (forall b0, res_file (pre2 b0) = b0 /\ res_val (pre2 b0) = inr tt) ->
  0 <= p ->
  stays_above p rest Q ->
  fileobj (res_file ((pre1 ;; pre2 ;; seek p ;; rest) b)) = fileobj b
  /\ forall a, res_val ((pre1 ;; pre2 ;; seek p ;; rest) b) = inr a -> Q a.
Proof.
  intros H1 H2 Hp Hrest.
  destruct (H1 b) as [F1 V1]. destruct (H2 b) as [F2 V2].
  destruct (Hrest (mkBinFile (fileobj b) (Z.to_nat p))) as (F & _ & V).
  { cbn [position]. rewrite Z2Nat.id by exact Hp. apply Z.le_refl. }
  assert (E : forall k : unit -> M A,
             res_file (bind pre1 k b) = res_file (k tt b)
             /\ res_val (bind pre1 k b) = res_val (k tt b)).
  { intros k. unfold bind. cbv zeta. rewrite V1, F1. split; reflexivity. }
  assert (E' : forall k : unit -> M A,
             res_file (bind pre2 k b) = res_file (k tt b)
             /\ res_val (bind pre2 k b) = res_val (k tt b)).
  { intros k. unfold bind. cbv zeta. rewrite V2, F2. split; reflexivity. }
  assert (E'' : res_file (bind (seek p) (fun _ => rest) b)
                = res_file (rest (mkBinFile (fileobj b) (Z.to_nat p)))
                /\ res_val (bind (seek p) (fun _ => rest) b)
                   = res_val (rest (mkBinFile (fileobj b) (Z.to_nat p)))).
  { unfold bind. cbv zeta. rewrite (seek_run p b Hp). split; reflexivity. }
  destruct (E (fun _ => pre2 ;; seek p ;; rest)) as [-> ->].
  destruct (E' (fun _ => seek p ;; rest)) as [-> ->].
  destruct E'' as [-> ->].
  split; [exact F | exact V].
Qed.

Lemma scan_block_progress (have_crc32c : bool) (crc32c : bytes -> Z)
    (have_snappy : bool) (snappy_uncompress : bytes -> exn + bytes)
    (opts : Opts) (startblock : Z) (b : BinFile) :
  0 <= startblock ->
  exists next,
    res_val (scan_block have_crc32c crc32c have_snappy snappy_uncompress
               opts startblock b) = inr next
    /\ startblock < next
    /\ next mod 512 = 0
    /\ fileobj (res_file (scan_block have_crc32c crc32c have_snappy
                            snappy_uncompress opts startblock b))
       = fileobj b.
Proof.
  intros Hs.
  destruct (scan_block_returns have_crc32c crc32c have_snappy
              snappy_uncompress opts startblock Hs b) as [next Hn].
  exists next. split; [exact Hn |].
  revert Hn. unfold scan_block. intros Hn.
  eapply seek_then_stay
    with (Q := fun n => startblock < n /\ n mod 512 = 0) (b := b) in Hs
    as [F V].
  - split; [| split]; [apply (V next Hn) | apply (V next Hn) | exact F].
  - intros b0. unfold outfile_stats_start.
    destruct (output opts); split; reflexivity.
  - intros b0. split; reflexivity.
  - eapply sa_bind with (Q1 := fun _ => True).
    { apply sa_try_except; [apply sa_block_decode | apply sa_emit]. }
    intros _ _.
    eapply sa_bind; [apply sa_emit | intros _ _].
    eapply sa_bind; [apply sa_tell | intros pos Hp].
    cbv beta in Hp. apply sa_ret. apply next_startblock. exact Hp.
Qed.



(** ** The scan loop ends, or does not *)

Lemma wtdecode_loop_ends (have_crc32c : bool) (crc32c : bytes -> Z)
    (have_snappy : bool) (snappy_uncompress : bytes -> exn + bytes)
    (opts : Opts) (nbytes : Z) (fuel : nat) :
  forall (startblock pagecount : Z) (b : BinFile),
    0 <= startblock ->
    (nbytes <> 0
     /\ nbytes - 512 * (startblock / 512) <= 512 * Z.of_nat fuel)
    \/ (pages opts <> 0 /\ pages opts - pagecount <= Z.of_nat fuel) ->
    res_val (wtdecode_loop have_crc32c crc32c have_snappy snappy_uncompress
               fuel opts nbytes startblock pagecount b) = inr true.
Proof.
  induction fuel as [| fuel IH]; intros startblock pagecount b Hs Hb.
  - cbn [wtdecode_loop].
    destruct (Z.eqb_spec nbytes 0) as [En | En];
      destruct (Z.ltb_spec startblock nbytes) as [Hl | Hl];
      destruct (Z.eqb_spec (pages opts) 0) as [Ep | Ep];
      destruct (Z.ltb_spec pagecount (pages opts)) as [Hp | Hp];
      cbn [orb andb]; try reflexivity; exfalso;
      pose proof (Z.mul_div_le startblock 512 eq_refl); lia.
  - cbn [wtdecode_loop].
    destruct (((nbytes =? 0) || (startblock <? nbytes))
              && ((pages opts =? 0) || (pagecount <? pages opts))) eqn:C;
      [| reflexivity].
    destruct (scan_block_progress have_crc32c crc32c have_snappy
                snappy_uncompress opts startblock b Hs)
      as (next & Hn & Hlt & Hm & _).
    rewrite (bind_val _ _ b next Hn).
    apply IH; [lia |].
    destruct Hb as [[Hz Hb] | [Hz Hb]]; [left | right; split; [exact Hz | lia]].
    split; [exact Hz |].
    assert (512 * (startblock / 512) + 512 <= 512 * (next / 512)).
    { clear - Hlt Hm Hs. Z.to_euclidean_division_equations. lia. }
    lia.
Qed.

Lemma wtdecode_loop_goes_on (have_crc32c : bool) (crc32c : bytes -> Z)
    (have_snappy : bool) (snappy_uncompress : bytes -> exn + bytes)
    (opts : Opts) (fuel : nat) :
  pages opts = 0 ->
  forall (startblock pagecount : Z) (b : BinFile),
    0 <= startblock ->
    res_val (wtdecode_loop have_crc32c crc32c have_snappy snappy_uncompress
               fuel opts 0 startblock pagecount b) = inr false.
Proof.
  intros Hp.
  induction fuel as [| fuel IH]; intros startblock pagecount b Hs;
    cbn [wtdecode_loop]; rewrite Hp; cbn [Z.eqb orb andb].
  - reflexivity.
  - destruct (scan_block_progress have_crc32c crc32c have_snappy
                snappy_uncompress opts startblock b Hs)
      as (next & Hn & Hlt & _).
    rewrite (bind_val _ _ b next Hn). apply IH. lia.
Qed.

Lemma returns_read (n : Z) : 0 <= n <= sys_maxsize -> returns (read n).
Proof.
  intros H b. unfold read.
  destruct (Z.ltb_spec n 0); [lia |].
  destruct (Z.gtb_spec n sys_maxsize); [lia |]. eexists. reflexivity.
Qed.

Lemma returns_uint (n : Z) :
  0 <= n <= sys_maxsize ->
  returns (x <- read n ;; ret (from_bytes_little x)).
Proof.
  intros H. apply returns_bind; [apply returns_read; exact H |].
  intros x. apply returns_ret.
Qed.

(** The offset of the first block: the next 512-byte boundary after the
    file header, or the offset option. *)
Lemma first_block (opts : Opts) (b : BinFile) :
  0 <= offset opts ->
  exists startblock,
    res_val ((if (offset opts =? 0) && negb (fragment opts) then
                file_header_decode ;;
                pos <- tell ;;
                ret (align512 pos)
              else ret (offset opts)) b) = inr startblock
    /\ 0 <= startblock.
Proof.
  intros Ho. destruct ((offset opts =? 0) && negb (fragment opts)).
  - assert (R : returns (file_header_decode ;; pos <- tell ;; ret (align512 pos))).
    { apply returns_bind.
      - unfold file_header_decode, uint32, uint16, rint.
        repeat (apply returns_bind;
                [first [ apply returns_uint; unfold sys_maxsize; lia
                       | apply returns_emit ] | intros ?]).
        repeat match goal with
               | |- returns (if ?c then _ else _) => destruct c
               end; apply returns_emit.
      - intros _. apply returns_bind; [apply returns_tell |].
        intros pos. apply returns_ret. }
    destruct (R b) as [startblock Hsb]. exists startblock.
    split; [exact Hsb |].
    assert (S : stays_above 0 (file_header_decode ;; pos <- tell ;; ret (align512 pos))
                  (fun v => 0 <= v)).
    { eapply sa_bind with (Q1 := fun _ => True).
      - unfold file_header_decode, uint32, uint16, rint.
        repeat (eapply sa_bind; [first [apply sa_uint | apply sa_emit] | intros ? _]).
        repeat match goal with
               | |- stays_above _ (if ?c then _ else _) _ => destruct c
               end; apply sa_emit.
      - intros _ _. eapply sa_bind; [apply sa_tell | intros pos Hp].
        cbv beta in Hp. apply sa_ret. pose proof (align512_ge pos). lia. }
    destruct (S b (Zle_0_nat _)) as (_ & _ & V). exact (V startblock Hsb).
  - exists (offset opts). split; [reflexivity | exact Ho].
Qed.

Lemma outfile_header_val (opts : Opts) (b : BinFile) :
  res_val (outfile_header opts b) = inr tt.
Proof. unfold outfile_header. destruct (output opts); reflexivity. Qed.

Lemma wtdecode_blocks_val (have_crc32c : bool) (crc32c : bytes -> Z)
    (have_snappy : bool) (snappy_uncompress : bytes -> exn + bytes)
    (opts : Opts) (nbytes startblock : Z) (fuel : nat) (v : bool) :
  (forall b, res_val (wtdecode_loop have_crc32c crc32c have_snappy
                        snappy_uncompress fuel opts nbytes startblock 0 b)
             = inr v) ->
  forall b,
    res_val (wtdecode_blocks have_crc32c crc32c have_snappy snappy_uncompress
               fuel opts nbytes startblock b) = inr v.
Proof.
  intros H b. unfold wtdecode_blocks.
  rewrite (bind_val _ _ b tt (outfile_header_val opts b)).
  rewrite (bind_val _ _ _ v (H _)).
  destruct v.
  - rewrite (bind_val (rint (Text "")) _ _ tt eq_refl). reflexivity.
  - rewrite (bind_val (ret tt) _ _ tt eq_refl). reflexivity.
Qed.





(** ** The fixed-width readers *)

Lemma from_bytes_little_range (bs : bytes) :
  0 <= from_bytes_little bs < 2 ^ (8 * Z.of_nat (List.length bs)).
Proof.
  induction bs as [| x r IH]; cbn [from_bytes_little List.length].
  - cbn. lia.
  - pose proof (_ord_range x).
    replace (8 * Z.of_nat (S (List.length r)))
      with (8 + 8 * Z.of_nat (List.length r)) by lia.
    rewrite Z.pow_add_r by lia. change (2 ^ 8) with 256. nia.
Qed.

Lemma uint_run (n : nat) (b : BinFile) :
  (Z.of_nat n <= sys_maxsize) ->
  (x <- read (Z.of_nat n) ;; ret (from_bytes_little x)) b
  = mkResult
      (mkBinFile (fileobj b)
         (position b + Nat.min n (List.length (unread b))))
      [] (inr (from_bytes_little (firstn n (unread b))))
  /\ 0 <= from_bytes_little (firstn n (unread b)) < 2 ^ (8 * Z.of_nat n)
  /\ (unread b = [] ->
      (x <- read (Z.of_nat n) ;; ret (from_bytes_little x)) b
      = mkResult b [] (inr 0)).
Proof.
  intros Hn.
  assert (E : (x <- read (Z.of_nat n) ;; ret (from_bytes_little x)) b
              = mkResult
                  (mkBinFile (fileobj b)
                     (position b + Nat.min n (List.length (unread b))))
                  [] (inr (from_bytes_little (firstn n (unread b))))).
  { erewrite bind_run_eq by (apply read_run; lia).
    rewrite Nat2Z.id, ret_run. unfold prepend.
    cbn [res_file res_out res_val app]. rewrite length_firstn. reflexivity. }
  split; [exact E |]. split.
  - pose proof (from_bytes_little_range (firstn n (unread b))) as R.
    rewrite length_firstn in R.
    assert (2 ^ (8 * Z.of_nat (Nat.min n (List.length (unread b))))
            <= 2 ^ (8 * Z.of_nat n))
      by (apply Z.pow_le_mono_r; lia).
    lia.
  - intros Hu. rewrite E, Hu. cbn [List.length firstn].
    rewrite Nat.min_0_r, Nat.add_0_r.
    destruct n; cbn [firstn from_bytes_little]; destruct b; reflexivity.
Qed.

(** X13. [uint8], [uint16], [uint32] and [uint64] never raise and print
    nothing: each returns the little-endian value of the bytes it could
    read, at most 1, 2, 4 or 8 of them, so a number below 2^8, 2^16, 2^32 or
    2^64, and leaves the stream after those bytes. At the end of the stream
    they return 0 and leave the stream where it is: a field cut short by
    the end of the input reads as a smaller number, not as an error. *)
Theorem uint_never_fails (b : BinFile) :
  Forall
    (fun un : M Z * nat =>
       fst un b
       = mkResult
           (mkBinFile (fileobj b)
              (position b + Nat.min (snd un) (List.length (unread b))))
           [] (inr (from_bytes_little (firstn (snd un) (unread b))))
       /\ 0 <= from_bytes_little (firstn (snd un) (unread b))
            < 2 ^ (8 * Z.of_nat (snd un))
       /\ (unread b = [] -> fst un b = mkResult b [] (inr 0)))
    [(uint8, 1%nat); (uint16, 2%nat); (uint32, 4%nat); (uint64, 8%nat)].
Proof.
  repeat constructor; cbn [fst snd];
    first [ apply (uint_run 1 b) | apply (uint_run 2 b)
          | apply (uint_run 4 b) | apply (uint_run 8 b) ];
    unfold sys_maxsize; lia.
Qed.

(** ** Bit fields *)

(** X14. For [0 <= end <= start], [getbits(x, start, end)] is the field of
    the bits of [x] from bit [end] up to, not including, bit [start]: the
    number [(x / 2^end) mod 2^(start - end)], between 0 and
    [2^(start - end) - 1], also for a negative [x]. *)
Theorem getbits_field (x start end_ : Z) :
  0 <= end_ <= start ->
  getbits x start end_ = (x / 2 ^ end_) mod 2 ^ (start - end_)
  /\ 0 <= getbits x start end_ < 2 ^ (start - end_).
Proof.
  intros H.
  assert (E : getbits x start end_ = (x / 2 ^ end_) mod 2 ^ (start - end_)).
  { unfold getbits. rewrite Z.shiftl_1_l.
    replace (2 ^ start - 1) with (Z.ones start)
      by (rewrite Z.ones_equiv; lia).
    rewrite <- Z.shiftr_div_pow2 by lia.
    rewrite <- Z.land_ones by lia.
    apply Z.bits_inj'. intros n Hn.
    rewrite Z.shiftr_spec, !Z.land_spec, Z.shiftr_spec by lia.
    f_equal.
    destruct (Z.lt_ge_cases (n + end_) start).
    - rewrite !Z.ones_spec_low by lia. reflexivity.
    - rewrite !Z.ones_spec_high by lia. reflexivity. }
  split; [exact E |]. rewrite E. apply Z.mod_pos_bound.
  apply Z.pow_pos_nonneg; lia.
Qed.

Lemma getbits_field_witness :
  getbits (-3) 6 2 = (-3 / 2 ^ 2) mod 2 ^ (6 - 2)
  /\ 0 <= getbits (-3) 6 2 < 2 ^ (6 - 2).
Proof. apply (getbits_field (-3) 6 2). lia. Defined.

(** ** Cells cut short by the end of the page *)

Lemma short_length_range (desc : Z) :
  0 <= Z.shiftr (Z.land desc 0xfc) 2 <= 63.
Proof.
  rewrite Z.shiftr_land. change (Z.shiftr 252 2) with (Z.ones 6).
  rewrite Z.land_ones by lia.
  pose proof (Z.mod_pos_bound (Z.shiftr desc 2) (2 ^ 6) eq_refl).
  change (2 ^ 6) with 64 in *. lia.
Qed.

(** X15. A short key or short value cell is decoded without any check that
    its data is there: the length [l] is taken from the descriptor byte, the
    data is whatever is left of the [l] bytes, and for a key [keys_sz] grows
    by the declared [l], also when fewer bytes could be read. Nothing is
    printed and nothing is raised. *)
Theorem short_cell_declared_length (s : PageStats) (b : BinFile) (d : byte)
    (rest : bytes) :
  unread b = d :: rest ->
  let desc := _ord d in
  let l := Z.shiftr (Z.land desc 0xfc) 2 in
  let x := firstn (Z.to_nat l) rest in
  let b' := mkBinFile (fileobj b) (position b + 1 + List.length x) in
  0 <= l <= 63
  /\ (Z.land desc 3 = 1 ->
      cell_read s b
      = mkResult b' [] (inr (Some desc, Some (s_short_key l, x), count_key l s)))
  /\ (Z.land desc 3 = 3 ->
      cell_read s b
      = mkResult b' [] (inr (Some desc, Some (s_short_val l, x), s))).
Proof.
  intros Hun desc l x b'.
  pose proof (short_length_range desc) as Hl. fold l in Hl.
  split; [exact Hl |].
  assert (Hread : read l (mkBinFile (fileobj b) (position b + 1))
                  = mkResult b' [] (inr x)).
  { rewrite read_run by (unfold sys_maxsize; lia).
    rewrite unread_advance, Hun. cbn [skipn fileobj position].
    reflexivity. }
  split; intros Hs; unfold cell_read;
    (erewrite bind_run_eq by (eapply uint8_cons; exact Hun)); cbv beta;
    unfold cell_body; cbv zeta; fold desc; rewrite Hs; fold l;
    cbn [Z.eqb Pos.eqb];
    (erewrite bind_run_eq by exact Hread); cbv beta;
    rewrite ret_run; reflexivity.
Qed.

Lemma short_cell_declared_length_witness :
  0 <= Z.shiftr (Z.land (_ord x15) 0xfc) 2 <= 63
  /\ (Z.land (_ord x15) 3 = 1 ->
      cell_read PageStats_new (BytesIO [x15; x61])
      = mkResult (mkBinFile [x15; x61] 2) []
          (inr (Some 21, Some (s_short_key 5, [x61]),
                count_key 5 PageStats_new)))
  /\ (Z.land (_ord x15) 3 = 3 ->
      cell_read PageStats_new (BytesIO [x15; x61])
      = mkResult (mkBinFile [x15; x61] 2) []
          (inr (Some 21, Some (s_short_val 5, [x61]), PageStats_new))).
Proof.
  apply (short_cell_declared_length PageStats_new (BytesIO [x15; x61]) x15
           [x61]).
  reflexivity.
Defined.

Lemma dumpraw_at_end (b : BinFile) :
  unread b = [] ->
  dumpraw (Z.of_nat (position b)) b = mkResult b [] (inr tt).
Proof.
  intros Hun. destruct b as [f p]. cbn [position]. unfold dumpraw.
  erewrite bind_run_eq by apply tell_run. cbv beta.
  erewrite bind_run_eq by (apply seek_run; lia). cbv beta.
  cbn [position fileobj]. rewrite Nat2Z.id.
  erewrite bind_run_eq by (apply read_run; unfold sys_maxsize; lia). cbv beta.
  rewrite Hun. change (Z.to_nat 256) with 256%nat.
  cbn [firstn List.length dump_lines fileobj position].
  erewrite bind_run_eq by apply ret_run. cbv beta.
  rewrite seek_run by lia. cbn [fileobj]. rewrite Nat2Z.id. reflexivity.
Qed.

Lemma decode_cell_at_end (cellnum : Z) (s : PageStats) (b : BinFile) :
  unread b = [] ->
  decode_cell cellnum (Z.of_nat (position b)) s b
  = mkResult b
      [ Begin_cell cellnum (Z.of_nat (position b));
        Rint (CellNotImplemented (Some 0) 0 "WT_CELL_ADDR_DEL");
        End_cell ]
      (inr s).
Proof.
  intros Hun.
  assert (Hu : uint8 b = mkResult b [] (inr 0)).
  { destruct (uint_run 1 b) as (_ & _ & H);
      [unfold sys_maxsize; lia | exact (H Hun)]. }
  assert (Hr : cell_read s b
               = mkResult b
                   [Rint (CellNotImplemented (Some 0) 0 "WT_CELL_ADDR_DEL")]
                   (inr (None, None, s))).
  { unfold cell_read. erewrite bind_run_eq by exact Hu. reflexivity. }
  assert (Hs : cell_show (Z.of_nat (position b)) None None b
               = mkResult b [] (inr tt)).
  { unfold cell_show. apply try_except_run. apply dumpraw_at_end. exact Hun. }
  rewrite (decode_cell_run cellnum _ s s b None None).
  - rewrite Hr. cbn [res_val res_file res_out]. rewrite Hs. reflexivity.
  - rewrite Hr. reflexivity.
  - rewrite Hr. cbn [res_file]. rewrite Hs. reflexivity.
Qed.

Lemma row_decode_loop_at_end (pagehead : PageHeader) (s : PageStats)
    (b : BinFile) (n : nat) :
  unread b = [] ->
  Z.of_nat (position b) < memsize pagehead ->
  forall cellnum,
    row_decode_loop n cellnum pagehead s b
    = mkResult b (cells_at_end (Z.of_nat (position b)) cellnum n) (inr s).
Proof.
  intros Hun Hpos. induction n as [| n IH]; intros cellnum.
  - reflexivity.
  - cbn [row_decode_loop cells_at_end].
    erewrite bind_run_eq by apply tell_run. cbv beta.
    destruct (Z.geb_spec (Z.of_nat (position b)) (memsize pagehead)); [lia |].
    erewrite bind_run_eq by (apply decode_cell_at_end; exact Hun). cbv beta.
    rewrite IH. reflexivity.
Qed.

(** X16. When the page stream is at its end before [memsize] is reached,
    [row_decode] does not stop: each of the [ncells] cells still announced
    reads a descriptor of 0 and is reported as cell type 0,
    [WT_CELL_ADDR_DEL], not implemented; nothing is raised, nothing is
    counted and the stream stays where it is. *)
Theorem row_decode_past_the_end (pagehead : PageHeader)
    (blockhead : BlockHeader) (s : PageStats) (b : BinFile) :
  unread b = [] ->
  Z.of_nat (position b) < memsize pagehead ->
  row_decode pagehead blockhead s b
  = mkResult b
      (cells_at_end (Z.of_nat (position b)) 0 (Z.to_nat (ncells pagehead)))
      (inr s).
Proof.
  intros Hun Hpos. unfold row_decode.
  apply row_decode_loop_at_end; assumption.
Qed.

Lemma row_decode_past_the_end_witness :
  row_decode (mkPageHeader 0 0 100 2 7 0 1) (mkBlockHeader 100 0 0)
    PageStats_new (mkBinFile empty_leaf_block 40)
  = mkResult (mkBinFile empty_leaf_block 40)
      (cells_at_end 40 0 2)
      (inr PageStats_new).
Proof.
  apply (row_decode_past_the_end (mkPageHeader 0 0 100 2 7 0 1)
           (mkBlockHeader 100 0 0) PageStats_new
           (mkBinFile empty_leaf_block 40)).
  - reflexivity.
  - simpl. lia.
Defined.

(** ** What the decoding of a cell and of a page puts out *)

Create HintDb walk_db.

Ltac walk :=
  repeat first
    [ solve [auto 1 with walk_db nocore]
    | apply emits_ret
    | apply emits_raise
    | apply emits_lift
    | apply emits_tell
    | apply emits_seek
    | apply emits_read
    | apply emits_unpack_uint64_with_sz
    | apply emits_emit; reflexivity
    | apply emits_bind; [| intros ?]
    | apply emits_try_except
    | apply emits_try_finally
    | match goal with
      | |- emits _ (if ?c then _ else _) => destruct c
      | |- emits _ (match ?x with _ => _ end) => destruct x
      | |- emits _ (let '(_, _) := ?x in _) => destruct x
      end ].

Lemma quiet_on_page {A} (P : event -> Prop) (bp : BinFile) (m : M A) :
  emits P m -> emits P (on_page bp m).
Proof. intros H b. unfold on_page. cbn. apply H. Qed.

Lemma only_dump_lines (fuel : nat) : forall (addr : Z) (data : bytes),
  emits cell_only (dump_lines fuel addr data).
Proof.
  induction fuel as [| fuel IH]; intros addr data; cbn [dump_lines].
  - apply emits_ret.
  - destruct data; [apply emits_ret |].
    apply emits_bind; [apply emits_emit; reflexivity | intros _; apply IH].
Qed.
#[local] Hint Resolve only_dump_lines : walk_db.

Lemma only_dumpraw (pos : Z) : emits cell_only (dumpraw pos).
Proof. unfold dumpraw. walk. Qed.
#[local] Hint Resolve only_dumpraw : walk_db.

Lemma only_timestamp_field (extra mask : Z) (f : ts_field) (label : string)
    (s : PageStats) :
  emits cell_only (timestamp_field extra mask f label s).
Proof. unfold timestamp_field. unfold_actions. walk. Qed.
#[local] Hint Resolve only_timestamp_field : walk_db.

Lemma only_process_timestamps (extra : Z) (s : PageStats) :
  emits cell_only (process_timestamps extra s).
Proof. unfold process_timestamps. unfold_actions. walk. Qed.
#[local] Hint Resolve only_process_timestamps : walk_db.

Lemma only_cell_long_fields (desc : Z) (s : PageStats) :
  emits cell_only (cell_long_fields desc s).
Proof. unfold cell_long_fields. unfold_actions. walk. Qed.
#[local] Hint Resolve only_cell_long_fields : walk_db.

Lemma only_cell_long_type (desc extra : Z) (d : option Z) (s : PageStats) :
  emits cell_only (cell_long_type desc extra d s).
Proof. unfold cell_long_type. cbv zeta. unfold_actions. walk. Qed.
#[local] Hint Resolve only_cell_long_type : walk_db.

Lemma only_cell_body (desc : Z) (s : PageStats) :
  emits cell_only (cell_body desc s).
Proof. unfold cell_body. cbv zeta. unfold_actions. walk. Qed.
#[local] Hint Resolve only_cell_body : walk_db.

Lemma only_cell_read (s : PageStats) : emits cell_only (cell_read s).
Proof. unfold cell_read. unfold_actions. walk. Qed.
#[local] Hint Resolve only_cell_read : walk_db.

Lemma only_show_raw (x : bytes) :
  emits cell_only (l <- lift (raw_bytes x) ;; emit (Rint_v l)).
Proof.
  intros b. unfold raw_bytes, bind, lift. cbv zeta.
  destruct (raw_bytes_loop (List.length x) x); cbn; repeat constructor.
Qed.
#[local] Hint Resolve only_show_raw : walk_db.

Lemma only_cell_show (cellpos : Z) (d : option Z)
    (sx : option (cell_s * bytes)) :
  emits cell_only (cell_show cellpos d sx).
Proof. unfold cell_show. unfold_actions. walk. Qed.
#[local] Hint Resolve only_cell_show : walk_db.

Lemma emits_weaken {A} (P Q : event -> Prop) (m : M A) :
  (forall e, P e -> Q e) -> emits P m -> emits Q m.
Proof. intros H Hm b. eapply Forall_impl; [exact H | apply Hm]. Qed.

Lemma cell_only_rint (e : event) : cell_only e -> rint_only e.
Proof. destruct e; intros H; try reflexivity; discriminate H. Qed.

Lemma rint_only_quiet (e : event) : rint_only e -> quiet e.
Proof. destruct e; intros H; try reflexivity; discriminate H. Qed.

Lemma cell_only_quiet (e : event) : cell_only e -> quiet e.
Proof. intros H. apply rint_only_quiet, cell_only_rint, H. Qed.

Lemma rint_cell_read (s : PageStats) : emits rint_only (cell_read s).
Proof. apply (emits_weaken _ _ _ cell_only_rint), only_cell_read. Qed.
#[local] Hint Resolve rint_cell_read : walk_db.

Lemma rint_cell_show (cellpos : Z) (d : option Z)
    (sx : option (cell_s * bytes)) :
  emits rint_only (cell_show cellpos d sx).
Proof. apply (emits_weaken _ _ _ cell_only_rint), only_cell_show. Qed.
#[local] Hint Resolve rint_cell_show : walk_db.

Lemma quiet_cell_read (s : PageStats) : emits quiet (cell_read s).
Proof. apply (emits_weaken _ _ _ cell_only_quiet), only_cell_read. Qed.
#[local] Hint Resolve quiet_cell_read : walk_db.

Lemma quiet_cell_show (cellpos : Z) (d : option Z)
    (sx : option (cell_s * bytes)) :
  emits quiet (cell_show cellpos d sx).
Proof. apply (emits_weaken _ _ _ cell_only_quiet), only_cell_show. Qed.
#[local] Hint Resolve quiet_cell_show : walk_db.

Lemma quiet_show_raw (x : bytes) :
  emits quiet (l <- lift (raw_bytes x) ;; emit (Rint_v l)).
Proof. apply (emits_weaken _ _ _ cell_only_quiet), only_show_raw. Qed.
#[local] Hint Resolve quiet_show_raw : walk_db.

Lemma quiet_decode_cell (cellnum cellpos : Z) (s : PageStats) :
  emits quiet (decode_cell cellnum cellpos s).
Proof. unfold decode_cell. unfold_actions. walk. Qed.
#[local] Hint Resolve quiet_decode_cell : walk_db.

Lemma quiet_row_decode_loop (n : nat) :
  forall (cellnum : Z) (ph : PageHeader) (s : PageStats),
    emits quiet (row_decode_loop n cellnum ph s).
Proof.
  induction n as [| n IH]; intros cellnum ph s; cbn [row_decode_loop].
  - apply emits_ret.
  - unfold_actions. walk.
Qed.
#[local] Hint Resolve quiet_row_decode_loop : walk_db.

Lemma quiet_page_decode (pagehead : PageHeader) (blockhead : BlockHeader)
    (payload_data : bytes) (s : PageStats) :
  emits quiet (page_decode pagehead blockhead payload_data s).
Proof.
  unfold page_decode, row_decode. unfold_actions. walk.
Qed.

Lemma quiet_block_headers : emits quiet block_headers.
Proof. unfold block_headers. unfold_actions. walk. Qed.

Lemma quiet_verify_checksum (crc32c : bytes -> Z) (disk_pos : Z)
    (blockhead : BlockHeader) :
  emits quiet (verify_checksum crc32c disk_pos blockhead).
Proof. unfold verify_checksum. cbv zeta. unfold_actions. walk. Qed.

Lemma quiet_read_payload (have_snappy : bool)
    (snappy_uncompress : bytes -> exn + bytes) (disk_pos header_length : Z)
    (pagehead : PageHeader) (blockhead : BlockHeader) :
  emits quiet
    (read_payload have_snappy snappy_uncompress disk_pos header_length
       pagehead blockhead).
Proof. unfold read_payload. cbv zeta. unfold_actions. walk. Qed.

(** ** The CSV file *)

Lemma outputs_app (t u : list event) :
  outputs (t ++ u) = outputs t ++ outputs u.
Proof. unfold outputs. apply flat_map_app. Qed.

Lemma outputs_quiet (t : list event) : Forall quiet t -> outputs t = [].
Proof.
  unfold outputs. induction 1 as [| e t He _ IH]; [reflexivity |].
  cbn [flat_map]. rewrite IH. destruct e; try reflexivity. discriminate He.
Qed.

Lemma er_quiet {A} (m : M A) : emits quiet m -> ends_row m.
Proof. intros H b. left. apply outputs_quiet, H. Qed.

Lemma er_bind {A B} (m : M A) (k : A -> M B) :
  emits quiet m -> (forall a, ends_row (k a)) -> ends_row (bind m k).
Proof.
  intros Hm Hk b. unfold bind. cbv zeta.
  destruct (res_val (m b)) as [e | a]; cbn [res_out].
  - left. apply outputs_quiet, Hm.
  - rewrite outputs_app, (outputs_quiet _ (Hm b)). apply Hk.
Qed.

Lemma er_then_quiet {A B} (m : M A) (k : A -> M B) :
  ends_row m -> (forall a, emits quiet (k a)) -> ends_row (bind m k).
Proof.
  intros Hm Hk b. unfold bind. cbv zeta.
  destruct (res_val (m b)) as [e | a]; cbn [res_out].
  - apply Hm.
  - rewrite outputs_app, (outputs_quiet _ (Hk a _)), app_nil_r. apply Hm.
Qed.

Lemma er_try_except {A} (m h : M A) (handled : exn -> bool) :
  ends_row m -> emits quiet h -> ends_row (try_except m handled h).
Proof.
  intros Hm Hh b. unfold try_except. cbv zeta.
  destruct (res_val (m b)) as [e | a]; [| apply Hm].
  destruct (handled e); [| apply Hm].
  cbn [res_out]. rewrite outputs_app, (outputs_quiet _ (Hh _)), app_nil_r.
  apply Hm.
Qed.

Lemma er_block_decode (have_crc32c : bool) (crc32c : bytes -> Z)
    (have_snappy : bool) (snappy_uncompress : bytes -> exn + bytes)
    (opts : Opts) :
  ends_row (block_decode have_crc32c crc32c have_snappy snappy_uncompress opts).
Proof.
  unfold block_decode.
  apply er_bind; [apply emits_tell | intros disk_pos].
  apply er_bind; [apply emits_read | intros page_data].
  apply er_bind; [apply quiet_on_page, quiet_block_headers | intros hdrs].
  destruct hdrs as [[pagehead blockhead] |]; [| apply er_quiet, emits_ret].
  cbv zeta.
  apply er_bind.
  { destruct have_crc32c; [apply quiet_verify_checksum | apply emits_ret]. }
  intros ok.
  destruct (negb ok); [apply er_quiet, emits_ret |].
  destruct (skip_data opts); [apply er_quiet, emits_seek |].
  apply er_bind; [apply emits_tell | intros payload_pos].
  cbv zeta.
  apply er_bind; [apply quiet_read_payload | intros payload].
  destruct payload as [payload_data |]; [| apply er_quiet, emits_ret].
  apply er_bind; [apply quiet_on_page, quiet_page_decode | intros pagestats'].
  intros b. unfold outfile_stats_end.
  destruct (output opts); [right | left; reflexivity].
  do 5 eexists. reflexivity.
Qed.



(** ** The checksum of a block *)

(** X18. Where at least the 36 bytes up to the end of the checksum field can
    be read at [disk_pos], the checksum check never raises and leaves the
    stream where it found it. It passes exactly when the whole range could
    be read ([disk_size] bytes when bit 0 of the block flags is set, 64
    bytes otherwise) and the CRC32C of the range, with its bytes 32 to 35
    replaced by zeros, is the checksum of the block header; it prints one
    line when it fails and nothing when it passes. *)
Theorem checksum_check (crc32c : bytes -> Z) (disk_pos : Z)
    (blockhead : BlockHeader) (b : BinFile) :
  0 <= disk_pos ->
  let check_size := if negb (Z.land (block_flags blockhead) 1 =? 0)
                    then disk_size blockhead else 64 in
  0 <= check_size <= sys_maxsize ->
  let data := firstn (Z.to_nat check_size)
                (skipn (Z.to_nat disk_pos) (fileobj b)) in
  (36 <= List.length data)%nat ->
  let zeroed := firstn 32 data ++ [x00; x00; x00; x00] ++ skipn 36 data in
  let r := verify_checksum crc32c disk_pos blockhead b in
  res_file r = b
  /\ (exists ok, res_val r = inr ok)
  /\ (res_val r = inr true
      <-> Z.of_nat (List.length data) = check_size
          /\ crc32c zeroed = checksum blockhead)
  /\ (res_val r = inr true -> res_out r = [])
  /\ (res_val r = inr false -> List.length (res_out r) = 1%nat).
Proof.
  intros Hpos check_size Hcs data Hlen zeroed r.
  pose proof (verify_checksum_run crc32c disk_pos blockhead b Hpos Hcs Hlen)
    as E.
  cbv zeta in E. fold check_size data zeroed in E. fold r in E.
  assert (Hle : Z.of_nat (List.length data) <= check_size).
  { unfold data. rewrite length_firstn. lia. }
  destruct (Z.ltb_spec (Z.of_nat (List.length data)) check_size) as [Hlt | Hge].
  - rewrite E. cbn [res_file res_val res_out].
    split; [reflexivity |]. split; [eexists; reflexivity |].
    split; [split; [discriminate | lia] |].
    split; [discriminate | reflexivity].
  - destruct (Z.eqb_spec (crc32c zeroed) (checksum blockhead)) as [Ec | Ec];
      rewrite E; cbn [res_file res_val res_out].
    + split; [reflexivity |]. split; [eexists; reflexivity |].
      split; [split; [intros _; split; [lia | exact Ec] | reflexivity] |].
      split; [reflexivity | discriminate].
    + split; [reflexivity |]. split; [eexists; reflexivity |].
      split; [split; [discriminate | intros [_ H]; contradiction] |].
      split; [discriminate | reflexivity].
Qed.

Lemma checksum_check_witness :
  res_file (verify_checksum (fun _ => 7) 0 (mkBlockHeader 40 7 1)
              (BytesIO empty_leaf_block))
  = BytesIO empty_leaf_block
  /\ (exists ok,
        res_val (verify_checksum (fun _ => 7) 0 (mkBlockHeader 40 7 1)
              (BytesIO empty_leaf_block))
        = inr ok)
  /\ (res_val (verify_checksum (fun _ => 7) 0 (mkBlockHeader 40 7 1)
              (BytesIO empty_leaf_block))
      = inr true
      <-> Z.of_nat (List.length (firstn (Z.to_nat 40)
                                   (skipn (Z.to_nat 0) empty_leaf_block)))
          = 40
          /\ 7 = 7)
  /\ (res_val (verify_checksum (fun _ => 7) 0 (mkBlockHeader 40 7 1)
              (BytesIO empty_leaf_block))
      = inr true ->
      res_out (verify_checksum (fun _ => 7) 0 (mkBlockHeader 40 7 1)
              (BytesIO empty_leaf_block))
      = [])
  /\ (res_val (verify_checksum (fun _ => 7) 0 (mkBlockHeader 40 7 1)
              (BytesIO empty_leaf_block))
      = inr false ->
      List.length
        (res_out (verify_checksum (fun _ => 7) 0 (mkBlockHeader 40 7 1)
              (BytesIO empty_leaf_block)))
      = 1%nat).
Proof.
  apply (checksum_check (fun _ => 7) 0 (mkBlockHeader 40 7 1)
           (BytesIO empty_leaf_block)).
  - lia.
  - simpl. unfold sys_maxsize. lia.
  - simpl. lia.
Defined.

(** ** The saved bytes of [BinFile] *)

Lemma firstn_plus (p k : nat) : forall f : bytes,
  firstn (p + k) f = firstn p f ++ firstn k (skipn p f).
Proof.
  induction p as [| p IH]; intros f; [reflexivity |].
  destruct f as [| x f]; cbn [Nat.add firstn skipn app].
  - rewrite firstn_nil. reflexivity.
  - rewrite IH. reflexivity.
Qed.

Lemma do_call_saved (f : bytes) (s : BinFile_saved) (c : call) :
  (fileobj (binfile s) = f
   /\ exists pre,
        firstn (position (binfile s)) f = pre ++ saved s
        /\ (saved s = [] \/ (position (binfile s) <= List.length f)%nat)) ->
  fileobj (binfile (do_call s c)) = f
  /\ exists pre,
       firstn (position (binfile (do_call s c))) f = pre ++ saved (do_call s c)
       /\ (saved (do_call s c) = []
           \/ (position (binfile (do_call s c)) <= List.length f)%nat).
Proof.
  intros (Hf & pre & Hpre & Hs).
  destruct s as [[f0 p] sv]. cbn [binfile saved fileobj position] in *.
  subst f0.
  destruct c as [n | n | |]; cbn [do_call binfile saved].
  - unfold read. cbn [fileobj position].
    destruct (n <? 0); [| destruct (n >? sys_maxsize)];
      cbn [res_file res_val fileobj position];
      try (split; [reflexivity | exists pre; split; assumption]).
    split; [reflexivity |].
    unfold unread. cbn [fileobj position].
    set (r := firstn (Z.to_nat n) (skipn p f)).
    assert (Hr : firstn (p + List.length r) f = firstn p f ++ r).
    { rewrite firstn_plus. f_equal. unfold r. rewrite length_firstn.
      destruct (Nat.le_gt_cases (Z.to_nat n) (List.length (skipn p f))).
      - rewrite Nat.min_l by assumption. reflexivity.
      - rewrite Nat.min_r by lia. rewrite firstn_all, firstn_all2 by lia.
        reflexivity. }
    exists pre. split; [rewrite Hr, Hpre, app_assoc; reflexivity |].
    destruct r as [| x r'] eqn:Er.
    + rewrite app_nil_r, Nat.add_0_r. exact Hs.
    + right.
      assert (Hl : (List.length r <= List.length (skipn p f))%nat).
      { unfold r. rewrite length_firstn. lia. }
      rewrite length_skipn in Hl. rewrite Er in Hl. cbn [List.length] in *.
      lia.
  - split.
    + unfold seek. destruct (n <? 0); reflexivity.
    + eexists. split; [symmetry; apply app_nil_r | left; reflexivity].
  - split; [reflexivity | exists pre; split; assumption].
  - split; [reflexivity |].
    eexists. split; [symmetry; apply app_nil_r | left; reflexivity].
Qed.

Lemma calls_saved (f : bytes) (calls : list call) :
  forall s,
    (fileobj (binfile s) = f
     /\ exists pre,
          firstn (position (binfile s)) f = pre ++ saved s
          /\ (saved s = [] \/ (position (binfile s) <= List.length f)%nat)) ->
    let s' := fold_left do_call calls s in
    fileobj (binfile s') = f
    /\ exists pre,
         firstn (position (binfile s')) f = pre ++ saved s'
         /\ (saved s' = [] \/ (position (binfile s') <= List.length f)%nat).
Proof.
  induction calls as [| c calls IH]; intros s H; cbn [fold_left].
  - exact H.
  - apply IH, do_call_saved, H.
Qed.

(** X19. After any sequence of [read], [seek], [tell] and [saved_bytes]
    calls on a [BinFile], whether they raise or not, the bytes
    [saved_bytes()] returns are the bytes of the file that end at the
    current position: they start at [tell() - len(saved)], the position the
    printer computes for its split view. *)
Theorem saved_bytes_end_at_tell (f : bytes) (calls : list call) :
  let s := fold_left do_call calls (BinFile_new f) in
  let pos := position (binfile s) in
  fileobj (binfile s) = f
  /\ (List.length (saved_bytes s) <= pos)%nat
  /\ saved_bytes s
     = firstn (List.length (saved_bytes s))
         (skipn (pos - List.length (saved_bytes s)) f).
Proof.
  intros s pos. unfold saved_bytes.
  destruct (calls_saved f calls (BinFile_new f)) as (Hf & pre & Hpre & Hs).
  { split; [reflexivity |]. exists []. split; [reflexivity |].
    left. reflexivity. }
  fold s in Hf, Hpre, Hs. fold pos in Hpre, Hs.
  split; [exact Hf |].
  destruct Hs as [Hs | Hs].
  - rewrite Hs. cbn [List.length firstn]. split; [lia | reflexivity].
  - assert (Hlen : (List.length pre + List.length (saved s) = pos)%nat).
    { rewrite <- length_app, <- Hpre, length_firstn. lia. }
    split; [lia |].
    replace (pos - List.length (saved s))%nat with (List.length pre) by lia.
    rewrite <- (firstn_skipn pos f) at 1. rewrite Hpre, <- app_assoc.
    rewrite skipn_app, skipn_all, Nat.sub_diag. cbn [skipn app].
    rewrite firstn_app, firstn_all, Nat.sub_diag. cbn [firstn].
    rewrite app_nil_r. reflexivity.
Qed.

(** ** The printer *)

Lemma Printer_run_body (v : bool) (tail : list event) (body : list event) :
  forall c : option Z,
    forallb is_rint body = true ->
    Printer_run (mkPrinter v c true) (body ++ tail)
    = cell_lines (match c with Some n => Pfx_cell n | None => Pfx_indent end)
        (shown v body)
      ++ Printer_run
           (mkPrinter v (match shown v body with [] => c | _ => None end) true)
           tail.
Proof.
  induction body as [| e body IH]; intros c Hb; [reflexivity |].
  cbn [forallb] in Hb. apply andb_prop in Hb as [He Hb].
  cbn [app Printer_run].
  destruct e as [l | l | l | | |]; try discriminate He;
    cbn [Printer_call Printer_rint p_verbose cellpfx in_cell fst snd shown
         flat_map printed].
  - rewrite (IH None Hb). fold (shown v body).
    cbn [app cell_lines]. f_equal.
    destruct (shown v body); reflexivity.
  - destruct v; cbn [Printer_rint p_verbose cellpfx in_cell fst snd app].
    + rewrite (IH None Hb). fold (shown true body).
      cbn [cell_lines app]. f_equal. destruct (shown true body); reflexivity.
    + rewrite (IH c Hb). reflexivity.
Qed.

(** X20. Without the split view, the lines printed between
    [begin_cell(n)] and [end_cell()] are laid out as the printer promises:
    the first line that is shown carries the cell number [n], every later
    one is indented by two spaces, and nothing of the cell is left in the
    printer afterwards. A cell that shows no line, as a decoded cell does
    without the verbose option, does not show its number either. *)
Theorem cell_number_on_first_line (p : Printer) (n pos : Z)
    (body rest : list event) :
  forallb is_rint body = true ->
  Printer_run p (Begin_cell n pos :: body ++ End_cell :: rest)
  = cell_lines (Pfx_cell n) (shown (p_verbose p) body)
    ++ Printer_run (mkPrinter (p_verbose p) None false) rest.
Proof.
  intros Hb. cbn [Printer_run Printer_call fst snd app].
  rewrite (Printer_run_body (p_verbose p) (End_cell :: rest) body (Some n) Hb).
  reflexivity.
Qed.

Lemma cell_number_on_first_line_witness :
  Printer_run (mkPrinter false None false)
    (Begin_cell 3 40
     :: [Rint_v (Text "hidden"); Rint (Text "one"); Rint (Text "two")]
     ++ End_cell :: [Rint (Text "after")])
  = cell_lines (Pfx_cell 3)
      (shown false [Rint_v (Text "hidden"); Rint (Text "one"); Rint (Text "two")])
    ++ Printer_run (mkPrinter false None false) [Rint (Text "after")].
Proof.
  apply (cell_number_on_first_line (mkPrinter false None false) 3 40
           [Rint_v (Text "hidden"); Rint (Text "one"); Rint (Text "two")]
           [Rint (Text "after")]).
  reflexivity.
Defined.

Lemma decode_cell_events (cellnum cellpos : Z) (s : PageStats) (b : BinFile) :
  exists body,
    res_out (decode_cell cellnum cellpos s b)
    = Begin_cell cellnum cellpos :: body ++ [End_cell]
    /\ forallb is_rint body = true.
Proof.
  unfold decode_cell.
  set (m := r <- cell_read s ;; _).
  assert (Hm : emits rint_only m).
  { unfold m. unfold_actions. walk. }
  exists (res_out (m b)). split.
  - unfold begin_cell, end_cell, emit, try_finally, bind. reflexivity.
  - apply forallb_forall. intros e He.
    pose proof (Hm b) as H. rewrite Forall_forall in H. exact (H e He).
Qed.

Lemma shown_app (v : bool) (t u : list event) :
  shown v (t ++ u) = shown v t ++ shown v u.
Proof. unfold shown. apply flat_map_app. Qed.

(** X21. Whatever a cell holds and whether its decoding returns or raises,
    what [row_decode] prints for it is laid out as one cell: the first line
    shown carries the number of the cell, the later ones are indented, and
    the printer is out of the cell afterwards, so the lines that follow an
    exception are not indented. *)
Theorem decoded_cell_layout (p : Printer) (cellnum cellpos : Z)
    (s : PageStats) (b : BinFile) (rest : list event) :
  Printer_run p (res_out (decode_cell cellnum cellpos s b) ++ rest)
  = cell_lines (Pfx_cell cellnum)
      (shown (p_verbose p) (res_out (decode_cell cellnum cellpos s b)))
    ++ Printer_run (mkPrinter (p_verbose p) None false) rest.
Proof.
  destruct (decode_cell_events cellnum cellpos s b) as (body & -> & Hb).
  cbn [app]. rewrite <- app_assoc.
  cbn [Printer_run Printer_call fst snd app].
  rewrite (Printer_run_body (p_verbose p) (End_cell :: rest) body
             (Some cellnum) Hb).
  cbn [app Printer_run Printer_call fst snd].
  f_equal. f_equal.
  change (Begin_cell cellnum cellpos :: body ++ [End_cell])
    with ([Begin_cell cellnum cellpos] ++ body ++ [End_cell]).
  rewrite !shown_app. cbn. rewrite app_nil_r. reflexivity.
Qed.

(** ** Negative lengths *)

Ltac decide_tests :=
  repeat match goal with
         | |- context [if ?c then _ else _] =>
             let v := eval vm_compute in c in
             match v with
             | true => change c with true
             | false => change c with false
             end; cbv iota
         end.

Lemma unpack_uint64_run (b : BinFile) (v : Z) (rest : bytes) :
  unpack_int (unread b) = inr (v, rest) ->
  unpack_uint64 b
  = mkResult
      (mkBinFile (fileobj b)
         (position b + (List.length (unread b) - List.length rest)))
      [] (inr v).
Proof.
  intros H. unfold unpack_uint64, bind, unpack_uint64_with_sz. cbv zeta.
  rewrite H. reflexivity.
Qed.

Lemma long_length_negative {A} (k : Z -> bytes -> M A) (b : BinFile) (v : Z)
    (rest : bytes) :
  unpack_int (unread b) = inr (v, rest) ->
  v + 64 < 0 ->
  (l <- long_length ;; x <- read l ;; k l x) b
  = mkResult
      (mkBinFile (fileobj b)
         (position b + (List.length (unread b) - List.length rest)))
      [Rint (Num "? unexpected negative length: " (v + 64))]
      (inl (Exception "The read length must be >= 0")).
Proof.
  intros H Hneg. unfold long_length.
  rewrite bind_assoc.
  erewrite bind_run_eq by (apply unpack_uint64_run; exact H). cbv beta zeta.
  destruct (Z.ltb_spec (v + 64) 0) as [_ | Hge]; [| lia].
  rewrite bind_assoc.
  erewrite bind_run_eq by apply rint_run. cbv beta.
  erewrite bind_run_eq by apply ret_run. cbv beta.
  erewrite bind_raise_eq.
  2:{ unfold read. destruct (Z.ltb_spec (v + 64) 0) as [_ | Hge]; [| lia].
      reflexivity. }
  reflexivity.
Qed.

Lemma cell_body_negative (desc : Z) (s : PageStats) (b : BinFile) (v : Z)
    (rest : bytes) :
  In desc [0x30; 0x50; 0x80] ->
  unpack_int (unread b) = inr (v, rest) ->
  v + 64 < 0 ->
  cell_body desc s b
  = mkResult
      (mkBinFile (fileobj b)
         (position b + (List.length (unread b) - List.length rest)))
      [Rint (Num "? unexpected negative length: " (v + 64))]
      (inl (Exception "The read length must be >= 0")).
Proof.
  intros Hd H Hneg.
  destruct Hd as [<- | [<- | [<- | []]]];
    unfold cell_body, cell_long_fields, cell_long_type; cbv zeta;
    decide_tests;
    repeat (erewrite bind_run_eq by apply ret_run; cbv beta iota zeta);
    decide_tests;
    rewrite (long_length_negative _ b v rest H Hneg); reflexivity.
Qed.

(** X22. A packed length can be negative. When the length of a long-form
    key (type 5), leaf address (type 3) or value (type 8) without optional
    fields unpacks to less than -64, the cell prints the warning about an
    unexpected negative length and then [read] refuses the length: the
    exception ends the cell and the loop of [row_decode], so the rest of
    the page is not decoded. *)
Theorem negative_length_ends_the_page (n : nat) (cellnum : Z)
    (pagehead : PageHeader) (s : PageStats) (b : BinFile) (desc v : Z)
    (packed rest : bytes) :
  In desc [0x30; 0x50; 0x80] ->
  unread b = byte_of_Z desc :: packed ->
  unpack_int packed = inr (v, rest) ->
  v + 64 < 0 ->
  Z.of_nat (position b) < memsize pagehead ->
  row_decode_loop (S n) cellnum pagehead s b
  = mkResult
      (mkBinFile (fileobj b)
         (position b + 1 + (List.length packed - List.length rest)))
      [ Begin_cell cellnum (Z.of_nat (position b));
        Rint (Num "? unexpected negative length: " (v + 64));
        End_cell ]
      (inl (Exception "The read length must be >= 0")).
Proof.
  intros Hd Hun Hp Hneg Hpos. cbn [row_decode_loop].
  erewrite bind_run_eq by apply tell_run. cbv beta.
  destruct (Z.geb_spec (Z.of_nat (position b)) (memsize pagehead)); [lia |].
  rewrite prepend_nil.
  assert (Hd' : _ord (byte_of_Z desc) = desc).
  { apply ord_byte_of_Z. destruct Hd as [<- | [<- | [<- | []]]]; lia. }
  assert (Hr : cell_read s b
               = mkResult
                   (mkBinFile (fileobj b)
                      (position b + 1
                       + (List.length packed - List.length rest)))
                   [Rint (Num "? unexpected negative length: " (v + 64))]
                   (inl (Exception "The read length must be >= 0"))).
  { unfold cell_read.
    erewrite bind_run_eq by (eapply uint8_cons; exact Hun). cbv beta.
    rewrite Hd', prepend_nil.
    erewrite (cell_body_negative desc s _ v rest Hd); [| | exact Hneg].
    - rewrite unread_advance, Hun. reflexivity.
    - rewrite unread_advance, Hun. exact Hp. }
  apply bind_raise_eq.
  unfold decode_cell, begin_cell, end_cell, emit, try_finally, bind at 1.
  cbv zeta. cbn [res_val res_file res_out].
  erewrite bind_raise_eq by exact Hr. reflexivity.
Qed.

Lemma negative_length_ends_the_page_witness :
  row_decode_loop 3 0 (mkPageHeader 0 0 100 3 7 0 1) PageStats_new
    (BytesIO [x50; x20; x00; x05])
  = mkResult (mkBinFile [x50; x20; x00; x05] 3)
      [ Begin_cell 0 0;
        Rint (Num "? unexpected negative length: " (- 8256 + 64));
        End_cell ]
      (inl (Exception "The read length must be >= 0")).
Proof.
  apply (negative_length_ends_the_page 2 0 (mkPageHeader 0 0 100 3 7 0 1)
           PageStats_new (BytesIO [x50; x20; x00; x05]) 0x50 (- 8256)
           [x20; x00; x05] [x05]).
  - simpl. right. left. reflexivity.
  - reflexivity.
  - reflexivity.
  - lia.
  - simpl. lia.
Defined.

(** ** From one block to the next *)

Lemma fileobj_seek (n : Z) (b : BinFile) :
  fileobj (res_file (seek n b)) = fileobj b.
Proof. unfold seek. destruct (n <? 0); reflexivity. Qed.

Lemma fileobj_read (n : Z) (b : BinFile) :
  fileobj (res_file (read n b)) = fileobj b.
Proof.
  unfold read. destruct (n <? 0); [| destruct (n >? sys_maxsize)]; reflexivity.
Qed.

Lemma result_eta {A} (r : result A) :
  r = mkResult (res_file r) (res_out r) (res_val r).
Proof. destruct r. reflexivity. Qed.

(** When the checksum check returns, the stream is back where it was. *)
Lemma verify_checksum_restores (crc32c : bytes -> Z) (disk_pos : Z)
    (blockhead : BlockHeader) (b : BinFile) (ok : bool) :
  res_val (verify_checksum crc32c disk_pos blockhead b) = inr ok ->
  res_file (verify_checksum crc32c disk_pos blockhead b) = b.
Proof.
  unfold verify_checksum. intros H.
  apply bind_inr_file in H as (savepos & Hs & H & F). rewrite F. clear F.
  cbn [tell res_val res_file] in Hs, H |- *. injection Hs as <-.
  apply bind_inr_file in H as (u1 & _ & H & F). rewrite F. clear F.
  set (b1 := res_file (seek disk_pos b)) in *.
  cbv zeta in H |- *.
  apply bind_inr_file in H as (data & _ & H & F). rewrite F. clear F.
  set (b2 := res_file (read _ b1)) in *.
  apply bind_inr_file in H as (u2 & _ & H & F). rewrite F. clear F.
  assert (E : res_file (seek (Z.of_nat (position b)) b2) = b).
  { rewrite seek_run by lia. rewrite Nat2Z.id. unfold b2, b1.
    rewrite fileobj_read, fileobj_seek. destruct b; reflexivity. }
  rewrite E in H |- *. clear E.
  apply bind_inr_file in H as (d1 & E1 & H & F). rewrite F. clear F.
  destruct (setitem data 32 x00) as [e | d1']; [discriminate E1 |].
  cbn [lift ret res_file] in H |- *.
  apply bind_inr_file in H as (d2 & E2 & H & F). rewrite F. clear F.
  destruct (setitem d1 33 x00) as [e | d2']; [discriminate E2 |].
  cbn [lift ret res_file] in H |- *.
  apply bind_inr_file in H as (d3 & E3 & H & F). rewrite F. clear F.
  destruct (setitem d2 34 x00) as [e | d3']; [discriminate E3 |].
  cbn [lift ret res_file] in H |- *.
  apply bind_inr_file in H as (d4 & E4 & H & F). rewrite F. clear F.
  destruct (setitem d3 35 x00) as [e | d4']; [discriminate E4 |].
  cbn [lift ret res_file] in H |- *.
  destruct (Z.of_nat (List.length d4) <? _); [reflexivity |].
  cbv zeta. destruct (negb (crc32c d4 =? checksum blockhead)); reflexivity.
Qed.

(** After the payload was read, nothing moves the file stream any more. *)
Lemma page_decode_keeps {A} (bp : BinFile) (m : M A) (opts : Opts)
    (pagehead : PageHeader) (blockhead : BlockHeader)
    (k : A -> PageStats) (b : BinFile) :
  res_file ((x <- on_page bp m ;;
             outfile_stats_end opts pagehead blockhead (k x)) b) = b.
Proof.
  unfold bind, on_page, outfile_stats_end. cbv zeta. cbn [res_val res_file].
  destruct (res_val (m bp)); [reflexivity |].
  destruct (output opts); reflexivity.
Qed.

(** The value of one turn of the scan loop, from where its block leaves the
    stream. *)
Lemma scan_turn_value (pre1 pre2 body h post : M unit) (k : Z -> Z) (p : Z)
    (b : BinFile) :
  (forall b0, res_file (pre1 b0) = b0 /\ res_val (pre1 b0) = inr tt) ->
  (forall b0, res_file (pre2 b0) = b0 /\ res_val (pre2 b0) = inr tt) ->
  (forall b0, res_file (h b0) = b0 /\ res_val (h b0) = inr tt) ->
  (forall b0, res_file (post b0) = b0 /\ res_val (post b0) = inr tt) ->
  0 <= p ->
  res_val ((pre1 ;; pre2 ;; seek p ;;
            try_except body (fun _ => true) h ;;
            post ;; pos <- tell ;; ret (k pos)) b)
  = inr (k (Z.of_nat
              (position (res_file (body (mkBinFile (fileobj b) (Z.to_nat p))))))).
Proof.
  intros H1 H2 Hh Hpost Hp.
  destruct (H1 b) as [F1 V1].
  rewrite (bind_val _ _ b tt V1), F1.
  destruct (H2 b) as [F2 V2].
  rewrite (bind_val _ _ b tt V2), F2.
  rewrite (bind_val _ _ b tt) by (rewrite seek_run by exact Hp; reflexivity).
  rewrite seek_run by exact Hp. cbn [res_file].
  set (b0 := mkBinFile (fileobj b) (Z.to_nat p)).
  assert (T : res_val (try_except body (fun _ => true) h b0) = inr tt
              /\ res_file (try_except body (fun _ => true) h b0)
                 = res_file (body b0)).
  { unfold try_except. cbv zeta.
    destruct (res_val (body b0)) as [e | []] eqn:E.
    - destruct (Hh (res_file (body b0))) as [Fh Vh]. cbn [res_val res_file].
      split; assumption.
    - split; [exact E | reflexivity]. }
  destruct T as [TV TF].
  rewrite (bind_val _ _ b0 tt TV), TF.
  destruct (Hpost (res_file (body b0))) as [Fp Vp].
  rewrite (bind_val _ _ _ tt Vp), Fp.
  reflexivity.
Qed.

Lemma block_decode_lands (have_crc32c : bool) (crc32c : bytes -> Z)
    (have_snappy : bool) (snappy_uncompress : bytes -> exn + bytes)
    (opts : Opts) (b0 : BinFile) (ph : PageHeader) (bh : BlockHeader) :
  res_val (block_headers (BytesIO (firstn 40 (unread b0)))) = inr (Some (ph, bh)) ->
  (have_crc32c = true ->
   res_val (verify_checksum crc32c (Z.of_nat (position b0)) bh
              (mkBinFile (fileobj b0)
                 (position b0 + List.length (firstn 40 (unread b0)))))
   = inr true) ->
  skip_data opts = true
  \/ (Z.land (flags ph) 1 = 0
      /\ Z.of_nat (List.length (firstn 40 (unread b0))) <= memsize ph
         <= sys_maxsize) ->
  Z.of_nat (position (res_file (block_decode have_crc32c crc32c have_snappy
                                  snappy_uncompress opts b0)))
  = Z.of_nat (position b0) + disk_size bh.
Proof.
  intros Hh Hcrc Hmode.
  pose proof (post_block_headers _ _ Hh) as Hds. cbv beta iota in Hds.
  set (pd := firstn 40 (unread b0)) in *.
  set (b1 := mkBinFile (fileobj b0) (position b0 + List.length pd)) in *.
  unfold block_decode.
  erewrite bind_run_eq by apply tell_run. cbv beta.
  erewrite bind_run_eq by (apply read_run; unfold sys_maxsize; lia). cbv beta.
  change (Z.to_nat 40) with 40%nat. fold pd. fold b1.
  erewrite bind_run_eq by (unfold on_page; rewrite Hh; reflexivity).
  cbv beta iota zeta.
  assert (Hok : exists o,
             (if have_crc32c
              then verify_checksum crc32c (Z.of_nat (position b0)) bh
              else ret true) b1 = mkResult b1 o (inr true)).
  { destruct have_crc32c.
    - specialize (Hcrc eq_refl).
      exists (res_out (verify_checksum crc32c (Z.of_nat (position b0)) bh b1)).
      rewrite (result_eta (verify_checksum crc32c (Z.of_nat (position b0)) bh b1))
        at 1.
      rewrite (verify_checksum_restores _ _ _ _ _ Hcrc), Hcrc. reflexivity.
    - exists []. reflexivity. }
  destruct Hok as [o Hok].
  erewrite bind_run_eq by exact Hok. cbv beta. cbn [negb].
  unfold prepend. cbn [res_file].
  destruct (skip_data opts) eqn:Hskip.
  - rewrite seek_run by lia. cbn [res_file position]. lia.
  - destruct Hmode as [Hm | [Hflag [Hlo Hhi]]]; [discriminate Hm |].
    erewrite bind_run_eq by apply tell_run. cbv beta zeta.
    unfold read_payload. rewrite Hflag. cbn [Z.eqb negb].
    rewrite bind_assoc.
    erewrite bind_run_eq
      by (apply read_run; unfold b1; cbn [position]; lia).
    cbv beta. rewrite bind_assoc.
    erewrite bind_run_eq by (apply seek_run; lia). cbv beta.
    erewrite bind_run_eq by apply ret_run. cbv beta iota.
    unfold prepend. cbn [res_file fileobj].
    rewrite (page_decode_keeps _ _ opts ph bh (fun x => x)).
    cbn [position]. lia.
Qed.

(** X23. The scan follows the blocks by their declared size. When the
    header at [startblock] is accepted, the checksum check passes or is not
    made, and the payload is skipped or is that of an uncompressed page
    whose [memsize] is not below the header bytes read, the next block is
    looked for at the first multiple of 512 at or after
    [startblock + disk_size]: the stream is moved there before the cells
    are decoded, so an exception in the decoding of the page changes
    nothing to it. *)
Theorem next_block_follows_disk_size (have_crc32c : bool)
    (crc32c : bytes -> Z) (have_snappy : bool)
    (snappy_uncompress : bytes -> exn + bytes)
    (opts : Opts) (startblock : Z) (b : BinFile)
    (ph : PageHeader) (bh : BlockHeader) :
  0 <= startblock ->
  let b0 := mkBinFile (fileobj b) (Z.to_nat startblock) in
  res_val (block_headers (BytesIO (firstn 40 (unread b0))))
  = inr (Some (ph, bh)) ->
  (have_crc32c = true ->
   res_val (verify_checksum crc32c startblock bh
              (mkBinFile (fileobj b)
                 (Z.to_nat startblock + List.length (firstn 40 (unread b0)))))
   = inr true) ->
  skip_data opts = true
  \/ (Z.land (flags ph) 1 = 0
      /\ Z.of_nat (List.length (firstn 40 (unread b0))) <= memsize ph
         <= sys_maxsize) ->
  res_val (scan_block have_crc32c crc32c have_snappy snappy_uncompress
             opts startblock b)
  = inr (align512 (startblock + disk_size bh)).
Proof.
  intros Hs b0 Hh Hcrc Hmode.
  pose proof (post_block_headers _ _ Hh) as Hds. cbv beta iota in Hds.
  assert (Hl : Z.of_nat (position
                 (res_file (block_decode have_crc32c crc32c have_snappy
                              snappy_uncompress opts b0)))
               = startblock + disk_size bh).
  { rewrite (block_decode_lands have_crc32c crc32c have_snappy
               snappy_uncompress opts b0 ph bh Hh).
    - unfold b0. cbn [position]. lia.
    - unfold b0. cbn [position fileobj]. rewrite Z2Nat.id by exact Hs.
      exact Hcrc.
    - exact Hmode. }
  unfold scan_block. cbv zeta.
  rewrite scan_turn_value with (p := startblock)
    (k := fun pos => if startblock =? align512 pos then startblock + 0x200
                     else align512 pos).
  - fold b0. rewrite Hl.
    pose proof (align512_ge (startblock + disk_size bh)).
    destruct (Z.eqb_spec startblock (align512 (startblock + disk_size bh)));
      [lia | reflexivity].
  - intros b1. unfold outfile_stats_start.
    destruct (output opts); split; reflexivity.
  - intros b1. split; reflexivity.
  - intros b1. split; reflexivity.
  - intros b1. split; reflexivity.
  - exact Hs.
Qed.

Lemma next_block_follows_disk_size_witness :
  res_val (scan_block false (fun _ => 0) false (fun _ => inl IndexError)
             no_opts 0 (BytesIO empty_leaf_block))
  = inr (align512 (0 + disk_size (mkBlockHeader 40 0 0))).
Proof.
  apply (next_block_follows_disk_size false (fun _ => 0) false
           (fun _ => inl IndexError) no_opts 0 (BytesIO empty_leaf_block)
           (mkPageHeader 0 0 40 0 7 0 1) (mkBlockHeader 40 0 0)).
  - lia.
  - reflexivity.
  - intros H. discriminate H.
  - right. split; [reflexivity |]. simpl. unfold sys_maxsize. lia.
Defined.

Lemma last_app_one (t : list event) (e d : event) : last (t ++ [e]) d = e.
Proof. apply last_last. Qed.

Lemma block_decode_compressed (have_crc32c : bool) (crc32c : bytes -> Z)
    (snappy_uncompress : bytes -> exn + bytes)
    (opts : Opts) (b0 : BinFile) (ph : PageHeader) (bh : BlockHeader) :
  res_val (block_headers (BytesIO (firstn 40 (unread b0)))) = inr (Some (ph, bh)) ->
  (have_crc32c = true ->
   res_val (verify_checksum crc32c (Z.of_nat (position b0)) bh
              (mkBinFile (fileobj b0)
                 (position b0 + List.length (firstn 40 (unread b0)))))
   = inr true) ->
  skip_data opts = false ->
  Z.land (flags ph) 1 <> 0 ->
  exists o,
    block_decode have_crc32c crc32c false snappy_uncompress opts b0
    = mkResult
        (mkBinFile (fileobj b0)
           (position b0 + List.length (firstn 40 (unread b0))))
        (o ++ [Rint (Text "? the page is compressed (install python-snappy to parse)")])
        (inr tt).
Proof.
  intros Hh Hcrc Hskip Hflag.
  set (pd := firstn 40 (unread b0)) in *.
  set (b1 := mkBinFile (fileobj b0) (position b0 + List.length pd)) in *.
  unfold block_decode.
  erewrite bind_run_eq by apply tell_run. cbv beta.
  erewrite bind_run_eq by (apply read_run; unfold sys_maxsize; lia). cbv beta.
  change (Z.to_nat 40) with 40%nat. fold pd. fold b1.
  erewrite bind_run_eq by (unfold on_page; rewrite Hh; reflexivity).
  cbv beta iota zeta.
  assert (Hok : exists o,
             (if have_crc32c
              then verify_checksum crc32c (Z.of_nat (position b0)) bh
              else ret true) b1 = mkResult b1 o (inr true)).
  { destruct have_crc32c.
    - specialize (Hcrc eq_refl).
      exists (res_out (verify_checksum crc32c (Z.of_nat (position b0)) bh b1)).
      rewrite (result_eta (verify_checksum crc32c (Z.of_nat (position b0)) bh b1))
        at 1.
      rewrite (verify_checksum_restores _ _ _ _ _ Hcrc), Hcrc. reflexivity.
    - exists []. reflexivity. }
  destruct Hok as [o Hok].
  erewrite bind_run_eq by exact Hok. cbv beta. cbn [negb].
  rewrite Hskip.
  erewrite bind_run_eq by apply tell_run. cbv beta zeta.
  unfold read_payload.
  destruct (Z.eqb_spec (Z.land (flags ph) 1) 0) as [E | _]; [contradiction |].
  cbn [negb]. rewrite bind_assoc.
  erewrite bind_run_eq by apply rint_run. cbv beta.
  erewrite bind_run_eq by apply ret_run. cbv beta iota.
  rewrite ret_run. rewrite !prepend_prepend. unfold prepend.
  cbn [res_file res_out res_val]. rewrite !app_nil_r, !app_nil_l.
  eexists. reflexivity.
Qed.

(** X24. Without python-snappy a compressed page is not skipped by its
    size. When the header at [startblock] is accepted, the checksum check
    passes or is not made, the data is not skipped and bit 0 of the page
    flags is set, [block_decode] ends on the line that asks for
    python-snappy and leaves the stream after the header bytes it read, so
    the next block is looked for at the first multiple of 512 after the
    header, not after [disk_size]. *)
Theorem compressed_block_is_not_skipped (have_crc32c : bool)
    (crc32c : bytes -> Z) (snappy_uncompress : bytes -> exn + bytes)
    (opts : Opts) (startblock : Z) (b : BinFile)
    (ph : PageHeader) (bh : BlockHeader) :
  0 <= startblock ->
  let b0 := mkBinFile (fileobj b) (Z.to_nat startblock) in
  res_val (block_headers (BytesIO (firstn 40 (unread b0))))
  = inr (Some (ph, bh)) ->
  (have_crc32c = true ->
   res_val (verify_checksum crc32c startblock bh
              (mkBinFile (fileobj b)
                 (Z.to_nat startblock + List.length (firstn 40 (unread b0)))))
   = inr true) ->
  skip_data opts = false ->
  Z.land (flags ph) 1 <> 0 ->
  res_val (scan_block have_crc32c crc32c false snappy_uncompress
             opts startblock b)
  = inr (align512 (startblock
                   + Z.of_nat (List.length (firstn 40 (unread b0)))))
  /\ last (res_out (block_decode have_crc32c crc32c false snappy_uncompress
                      opts b0)) End_cell
     = Rint (Text "? the page is compressed (install python-snappy to parse)")
  /\ 40 <= disk_size bh.
Proof.
  intros Hs b0 Hh Hcrc Hskip Hflag.
  pose proof (post_block_headers _ _ Hh) as Hds. cbv beta iota in Hds.
  destruct (block_decode_compressed have_crc32c crc32c snappy_uncompress
              opts b0 ph bh Hh) as [o Ho]; try assumption.
  { unfold b0. cbn [position fileobj]. rewrite Z2Nat.id by exact Hs.
    exact Hcrc. }
  assert (Hlen : (0 < List.length (firstn 40 (unread b0)))%nat).
  { destruct (firstn 40 (unread b0)) eqn:E; [| cbn; lia].
    exfalso. revert Hh. vm_compute. discriminate. }
  split; [| split; [| exact Hds]].
  - unfold scan_block. cbv zeta.
    rewrite scan_turn_value with (p := startblock)
      (k := fun pos => if startblock =? align512 pos then startblock + 0x200
                       else align512 pos).
    + fold b0. rewrite Ho. cbn [res_file position].
      assert (P : Z.of_nat (position b0
                            + List.length (firstn 40 (unread b0)))
                  = startblock
                    + Z.of_nat (List.length (firstn 40 (unread b0))))
        by (unfold b0 at 1; cbn [position]; lia).
      rewrite P.
      pose proof (align512_ge
                    (startblock
                     + Z.of_nat (List.length (firstn 40 (unread b0))))).
      destruct (Z.eqb_spec startblock
                  (align512 (startblock
                             + Z.of_nat (List.length (firstn 40 (unread b0))))));
        [lia | reflexivity].
    + intros b1. unfold outfile_stats_start.
      destruct (output opts); split; reflexivity.
    + intros b1. split; reflexivity.
    + intros b1. split; reflexivity.
    + intros b1. split; reflexivity.
    + exact Hs.
  - rewrite Ho. cbn [res_out]. apply last_app_one.
Qed.

Lemma compressed_block_is_not_skipped_witness :
  res_val (scan_block false (fun _ => 0) false (fun _ => inl IndexError)
             no_opts 0
             (BytesIO (repeat x00 16 ++ [x28; x00; x00; x00] ++ repeat x00 4
                       ++ [x07; x01; x00; x01] ++ [x00; x08; x00; x00]
                       ++ repeat x00 8)))
  = inr (align512 (0 + Z.of_nat 40))
  /\ last (res_out (block_decode false (fun _ => 0) false
                      (fun _ => inl IndexError) no_opts
                      (BytesIO (repeat x00 16 ++ [x28; x00; x00; x00]
                                ++ repeat x00 4 ++ [x07; x01; x00; x01]
                                ++ [x00; x08; x00; x00] ++ repeat x00 8))))
       End_cell
     = Rint (Text "? the page is compressed (install python-snappy to parse)")
  /\ 40 <= disk_size (mkBlockHeader 2048 0 0).
Proof.
  apply (compressed_block_is_not_skipped false (fun _ => 0)
           (fun _ => inl IndexError) no_opts 0
           (BytesIO (repeat x00 16 ++ [x28; x00; x00; x00] ++ repeat x00 4
                     ++ [x07; x01; x00; x01] ++ [x00; x08; x00; x00]
                     ++ repeat x00 8))
           (mkPageHeader 0 0 40 0 7 1 1) (mkBlockHeader 2048 0 0)).
  - lia.
  - reflexivity.
  - intros H. discriminate H.
  - reflexivity.
  - simpl. lia.
Defined.

(** ** The statistics only grow *)

Lemma stats_le_refl (s : PageStats) : stats_le s s.
Proof. repeat split; intros; lia. Qed.

Lemma stats_le_trans (s1 s2 s3 : PageStats) :
  stats_le s1 s2 -> stats_le s2 s3 -> stats_le s1 s3.
Proof.
  intros (A1 & A2 & A3 & A4) (B1 & B2 & B3 & B4).
  split; [lia |]. split; [lia |].
  split; intros f; [specialize (A3 f); specialize (B3 f)
                   | specialize (A4 f); specialize (B4 f)]; lia.
Qed.

Lemma stats_le_count_key (l : Z) (s : PageStats) :
  0 <= l -> stats_le s (count_key l s).
Proof.
  intros H. split; [cbn; lia |]. split; [cbn; lia |].
  split; intros f; destruct f; cbn; lia.
Qed.

Lemma stats_le_count_ts (f : ts_field) (sz : Z) (s : PageStats) :
  0 <= sz -> stats_le s (count_ts f sz s).
Proof.
  intros H. split; [destruct f; cbn; lia |]. split; [destruct f; cbn; lia |].
  split; intros g; destruct f, g; cbn; lia.
Qed.

Lemma post_read (n : Z) : post (read n) (fun _ => 0 <= n).
Proof.
  intros b x. unfold read. destruct (Z.ltb_spec n 0); [discriminate |].
  intros _. assumption.
Qed.

Lemma post_unpack_size : post unpack_uint64_with_sz (fun r => 0 <= snd r).
Proof.
  intros b r. unfold unpack_uint64_with_sz. cbv zeta.
  destruct (unpack_int (unread b)) as [[] | [v rest]];
    cbn [res_val]; try discriminate.
  intros H. injection H as <-. cbn [snd position]. lia.
Qed.

Lemma post_try_finally {A} (m : M A) (fin : M unit) (Q : A -> Prop) :
  post m Q -> post (try_finally m fin) Q.
Proof. intros H b a E. exact (H b a E). Qed.

Lemma post_on_page {A} (bp : BinFile) (m : M A) (Q : A -> Prop) :
  post m Q -> post (on_page bp m) Q.
Proof. intros H b a E. exact (H bp a E). Qed.

Lemma grows_timestamp_field (extra mask : Z) (f : ts_field) (label : string)
    (s s1 : PageStats) :
  stats_le s s1 ->
  post (timestamp_field extra mask f label s1) (stats_le s).
Proof.
  intros H. unfold timestamp_field.
  destruct (negb (Z.land extra mask =? 0)); [| apply post_ret; exact H].
  eapply post_bind; [apply post_unpack_size | intros r Hr].
  eapply post_bind; [apply post_any | intros _ _].
  apply post_ret. eapply stats_le_trans; [exact H |].
  apply stats_le_count_ts. exact Hr.
Qed.

Lemma grows_process_timestamps (extra : Z) (s : PageStats) :
  post (process_timestamps extra s) (stats_le s).
Proof.
  unfold process_timestamps.
  destruct (negb (extra =? 0)); [| apply post_ret, stats_le_refl].
  do 2 post_step.
  eapply post_bind;
    [apply grows_timestamp_field, stats_le_refl | intros s1 H1].
  eapply post_bind; [apply grows_timestamp_field; exact H1 | intros s2 H2].
  eapply post_bind; [apply grows_timestamp_field; exact H2 | intros s3 H3].
  eapply post_bind; [apply grows_timestamp_field; exact H3 | intros s4 H4].
  eapply post_bind; [apply grows_timestamp_field; exact H4 | intros s5 H5].
  eapply post_bind; [apply grows_timestamp_field; exact H5 | intros s6 H6].
  post_step. apply post_ret. exact H6.
Qed.

Lemma grows_cell_long_fields (desc : Z) (s : PageStats) :
  post (cell_long_fields desc s) (fun r => stats_le s (snd r)).
Proof.
  unfold cell_long_fields.
  eapply post_bind with (Q1 := fun r => stats_le s (snd r)).
  - destruct (negb (Z.land desc 8 =? 0)).
    + do 2 post_step.
      eapply post_bind; [apply grows_process_timestamps | intros s1 H1].
      apply post_ret. exact H1.
    + apply post_ret. apply stats_le_refl.
  - intros [[extra d] s1] H1. cbn [snd] in H1.
    post_step. apply post_ret. exact H1.
Qed.

Ltac sized_cell H :=
  eapply post_bind; [apply post_any | intros ? _];
  eapply post_bind; [apply post_read | intros ? ?];
  apply post_ret; cbn [snd];
  first [ exact H
        | eapply stats_le_trans;
          [exact H | apply stats_le_count_key; assumption] ].

Lemma grows_cell_long_type (desc extra : Z) (d : option Z)
    (s s1 : PageStats) :
  stats_le s s1 ->
  post (cell_long_type desc extra d s1) (fun r => stats_le s (snd r)).
Proof.
  intros H. unfold cell_long_type. cbv zeta.
  repeat match goal with
         | |- post (if ?c then _ else _) _ => destruct c
         end;
    try sized_cell H.
  - eapply post_bind; [apply post_any | intros prefix _]. sized_cell H.
  - post_step. exact H.
Qed.

Lemma grows_cell_body (desc : Z) (s : PageStats) :
  post (cell_body desc s) (fun r => stats_le s (snd r)).
Proof.
  unfold cell_body. cbv zeta.
  destruct (Z.land desc 3 =? 0).
  - eapply post_bind; [apply grows_cell_long_fields | intros [[extra d] s1] H1].
    cbn [snd] in H1. apply grows_cell_long_type. exact H1.
  - pose proof (short_length_range desc) as Hl.
    destruct (Z.land desc 3 =? 2); [| destruct (Z.land desc 3 =? 1)].
    + do 2 post_step. apply post_ret. cbn [snd].
      apply stats_le_count_key. lia.
    + post_step. apply post_ret. cbn [snd]. apply stats_le_count_key. lia.
    + post_step. apply post_ret. apply stats_le_refl.
Qed.

Lemma grows_decode_cell (cellnum cellpos : Z) (s s0 : PageStats) :
  stats_le s0 s ->
  post (decode_cell cellnum cellpos s) (stats_le s0).
Proof.
  intros H. unfold decode_cell.
  post_step. apply post_try_finally.
  eapply post_bind.
  { unfold cell_read. eapply post_bind; [apply post_any | intros desc _].
    apply grows_cell_body. }
  intros [[d sx] s1] H1. cbn [snd] in H1.
  post_step. apply post_ret. eapply stats_le_trans; eassumption.
Qed.

Lemma grows_row_decode_loop (n : nat) :
  forall (cellnum : Z) (ph : PageHeader) (s s0 : PageStats),
    stats_le s0 s ->
    post (row_decode_loop n cellnum ph s) (stats_le s0).
Proof.
  induction n as [| n IH]; intros cellnum ph s s0 H; cbn [row_decode_loop].
  - apply post_ret. exact H.
  - eapply post_bind; [apply post_any | intros cellpos _].
    destruct (cellpos >=? memsize ph).
    + post_step. exact H.
    + eapply post_bind; [apply grows_decode_cell; exact H | intros s1 H1].
      apply IH. exact H1.
Qed.

(** X25. The statistics of a page only grow while it is decoded: when
    [page_decode] returns, no counter and no byte total is below what it
    was, since a length that is added was first accepted by [read], which
    refuses negative lengths, and a timestamp adds the 1 to 16 bytes it
    took. A page starts from zero, so no statistic that reaches the CSV file
    is negative. *)
Theorem statistics_only_grow (pagehead : PageHeader)
    (blockhead : BlockHeader) (payload_data : bytes) (s s' : PageStats)
    (b : BinFile) :
  res_val (page_decode pagehead blockhead payload_data s b) = inr s' ->
  stats_le s s'
  /\ (s = PageStats_new -> Forall (fun v => 0 <= v) (to_csv_cols s')).
Proof.
  intros H.
  assert (Hle : stats_le s s').
  { revert b s' H. change (post (page_decode pagehead blockhead payload_data s)
                              (stats_le s)).
    unfold page_decode.
    repeat match goal with
           | |- post (if ?c then _ else _) _ => destruct c
           end;
      try (repeat post_step; apply post_ret || idtac; apply stats_le_refl).
    unfold row_decode. apply grows_row_decode_loop, stats_le_refl. }
  split; [exact Hle |].
  intros ->. destruct Hle as (A1 & A2 & A3 & A4).
  pose proof (A3 F_d_start_ts). pose proof (A3 F_d_stop_ts).
  pose proof (A3 F_start_ts). pose proof (A3 F_stop_ts).
  pose proof (A3 F_start_txn). pose proof (A3 F_stop_txn).
  pose proof (A4 F_d_start_ts). pose proof (A4 F_d_stop_ts).
  pose proof (A4 F_start_ts). pose proof (A4 F_stop_ts).
  pose proof (A4 F_start_txn). pose proof (A4 F_stop_txn).
  cbn in *. unfold to_csv_cols, num_ts, ts_sz, num_txn, txn_sz.
  repeat constructor; lia.
Qed.

Lemma statistics_only_grow_witness :
  stats_le PageStats_new (count_key 1 PageStats_new)
  /\ (PageStats_new = PageStats_new ->
      Forall (fun v => 0 <= v) (to_csv_cols (count_key 1 PageStats_new))).
Proof.
  apply (statistics_only_grow (mkPageHeader 0 0 100 1 7 0 1)
           (mkBlockHeader 100 0 0) [] PageStats_new
           (count_key 1 PageStats_new) (BytesIO [x05; x61])).
  reflexivity.
Defined.

(** ** What a page prints without the verbose option *)

Lemma cell_only_page (e : event) : cell_only e -> page_only e.
Proof. destruct e; intros H; try reflexivity; try discriminate H; exact H. Qed.

Lemma page_cell_read (s : PageStats) : emits page_only (cell_read s).
Proof. apply (emits_weaken _ _ _ cell_only_page), only_cell_read. Qed.
#[local] Hint Resolve page_cell_read : walk_db.

Lemma page_cell_show (cellpos : Z) (d : option Z)
    (sx : option (cell_s * bytes)) :
  emits page_only (cell_show cellpos d sx).
Proof. apply (emits_weaken _ _ _ cell_only_page), only_cell_show. Qed.
#[local] Hint Resolve page_cell_show : walk_db.

Lemma page_show_raw (x : bytes) :
  emits page_only (l <- lift (raw_bytes x) ;; emit (Rint_v l)).
Proof. apply (emits_weaken _ _ _ cell_only_page), only_show_raw. Qed.
#[local] Hint Resolve page_show_raw : walk_db.

Lemma page_decode_cell (cellnum cellpos : Z) (s : PageStats) :
  emits page_only (decode_cell cellnum cellpos s).
Proof. unfold decode_cell. unfold_actions. walk. Qed.
#[local] Hint Resolve page_decode_cell : walk_db.

Lemma page_row_decode_loop (n : nat) :
  forall (cellnum : Z) (ph : PageHeader) (s : PageStats),
    emits page_only (row_decode_loop n cellnum ph s).
Proof.
  induction n as [| n IH]; intros cellnum ph s; cbn [row_decode_loop].
  - apply emits_ret.
  - unfold_actions. walk.
Qed.
#[local] Hint Resolve page_row_decode_loop : walk_db.

Lemma shown_page_only (t : list event) :
  Forall page_only t -> Forall (fun l => anomaly l = true) (shown false t).
Proof.
  unfold shown. induction 1 as [| e t He _ IH]; [constructor |].
  cbn [flat_map]. apply Forall_app. split; [| exact IH].
  destruct e; cbn [printed]; try constructor; try discriminate He.
  - exact He.
  - constructor.
Qed.

(** X26. Without the verbose option, the decoding of a page prints nothing
    but its problems: every line shown is the report of a cell type that is
    not decoded or of a negative length. Keys, values, timestamps, raw
    bytes and the overflow of [memsize] are only shown with the verbose
    option. *)
Theorem without_verbose_only_problems_show (pagehead : PageHeader)
    (blockhead : BlockHeader) (payload_data : bytes) (s : PageStats)
    (b : BinFile) :
  Forall (fun l => anomaly l = true)
    (shown false (res_out (page_decode pagehead blockhead payload_data s b))).
Proof.
  apply shown_page_only.
  assert (H : emits page_only (page_decode pagehead blockhead payload_data s)).
  { unfold page_decode, row_decode. unfold_actions. walk. }
  apply H.
Qed.

(** ** Showing a cell *)

(** X27. Showing a cell never fails and never moves the stream: the
    exceptions that [raw_bytes] can raise on the data of a cell are
    [IndexError] and [ValueError], the two that the loop of [row_decode]
    swallows, and [dumpraw] puts the stream back where it was. *)
Theorem showing_a_cell_never_fails (cellpos : Z) (d : option Z)
    (sx : option (cell_s * bytes)) (b : BinFile) :
  0 <= cellpos ->
  res_val (cell_show cellpos d sx b) = inr tt
  /\ res_file (cell_show cellpos d sx b) = b
  /\ match sx with
     | Some (_, x) =>
         forall e, raw_bytes x = inl e ->
                   e = IndexError \/ exists msg, e = ValueError msg
     | None => True
     end.
Proof.
  intros Hpos. destruct sx as [[c x] |].
  - destruct (cell_show_Some cellpos d c x b) as [Hv Hf].
    split; [exact Hv |]. split; [exact Hf |].
    intros e. apply raw_bytes_exn.
  - destruct (cell_show_None cellpos d b Hpos) as [Hv Hf].
    split; [exact Hv |]. split; [exact Hf | exact I].
Qed.

Lemma showing_a_cell_never_fails_witness :
  res_val (cell_show 0 None (Some (s_short_key 2, [xe1; x00]))
             (BytesIO [xe1; x00])) = inr tt
  /\ res_file (cell_show 0 None (Some (s_short_key 2, [xe1; x00]))
                 (BytesIO [xe1; x00])) = BytesIO [xe1; x00]
  /\ (forall e, raw_bytes [xe1; x00] = inl e ->
                e = IndexError \/ exists msg, e = ValueError msg).
Proof.
  apply (showing_a_cell_never_fails 0 None (Some (s_short_key 2, [xe1; x00]))
           (BytesIO [xe1; x00])).
  lia.
Defined.

Lemma raw_bytes_loop_fuel (fuel : nat) : forall (s : bytes) (fuel' : nat),
  (List.length s <= fuel)%nat -> (List.length s <= fuel')%nat ->
  raw_bytes_loop fuel s = raw_bytes_loop fuel' s.
Proof.
  induction fuel as [| fuel IH]; intros s fuel' H H'.
  - destruct s; [| cbn in H; lia]. destruct fuel'; reflexivity.
  - destruct s as [| c r]; [destruct fuel'; reflexivity |].
    destruct fuel' as [| fuel']; [cbn in H'; lia |].
    cbn [raw_bytes_loop]. destruct (_ord c >=? 127); [| reflexivity].
    destruct (unpack_int (c :: r)) as [e | [v s']] eqn:E; [reflexivity |].
    apply unpack_int_inr_inv in E as (_ & _ & _ & ->).
    cbn [List.length] in H, H'.
    apply IH; rewrite length_skipn; lia.
Qed.

(** X28. The loop of [raw_bytes] over the leading packed integers of its
    argument always ends: every turn takes at least one byte, so when [b]
    has [len(b)] bytes no more than [len(b)] turns are made. An argument
    that is empty or starts with a byte below 0x7f is rendered without an
    exception. *)
Theorem raw_bytes_loop_ends (s : bytes) (more : nat) :
  raw_bytes_loop (List.length s + more) s = raw_bytes_loop (List.length s) s
  /\ match s with
     | [] => raw_bytes s = inr (Pretty s)
     | c :: _ => _ord c < 0x7f -> raw_bytes s = inr (Pretty s)
     end.
Proof.
  split; [apply raw_bytes_loop_fuel; lia |].
  destruct s as [| c r]; [reflexivity |].
  intros Hc. unfold raw_bytes. cbn [List.length raw_bytes_loop].
  destruct (Z.geb_spec (_ord c) 127); [lia | reflexivity].
Qed.

(** ** Hex dumps as input *)

Lemma after_last_colon_hex_byte (b : byte) (t : string) :
  after_last_colon (hex_byte b t) = after_last_colon t.
Proof.
  unfold hex_byte.
  destruct b; cbn; destruct (after_last_colon t); reflexivity.
Qed.

Lemma remove_space_hex_byte (b : byte) (t : string) :
  remove_char " "%char (hex_byte b t) = hex_byte b (remove_char " "%char t).
Proof. destruct b; reflexivity. Qed.

Lemma remove_newline_hex_byte (b : byte) (t : string) :
  remove_char "010"%char (hex_byte b t) = hex_byte b (remove_char "010"%char t).
Proof. destruct b; reflexivity. Qed.

Lemma a2b_hex_pairs_hex_byte (b : byte) (t : string) :
  a2b_hex_pairs (hex_byte b t)
  = match a2b_hex_pairs t with
    | inl e => inl e
    | inr bs => inr (b :: bs)
    end.
Proof.
  destruct b; cbn [hex_byte a2b_hex_pairs]; destruct (a2b_hex_pairs t);
    reflexivity.
Qed.

Lemma hex_byte_app (b : byte) (t u : string) :
  (hex_byte b t ++ u)%string = hex_byte b (t ++ u)%string.
Proof. reflexivity. Qed.

Lemma after_last_colon_hex_sep (bs : bytes) :
  after_last_colon (hex_sep bs ++ String "010"%char EmptyString) = None.
Proof.
  induction bs as [| b r IH]; [reflexivity |].
  destruct r as [| b' r'].
  - cbn [hex_sep]. rewrite hex_byte_app, after_last_colon_hex_byte.
    reflexivity.
  - change (hex_sep (b :: b' :: r'))
      with (hex_byte b (String " "%char (hex_sep (b' :: r')))).
    rewrite hex_byte_app, after_last_colon_hex_byte.
    cbn [String.append after_last_colon]. rewrite IH. reflexivity.
Qed.

Lemma after_last_colon_app (p t : string) :
  after_last_colon t = None ->
  after_last_colon (p ++ String ":"%char t) = Some t.
Proof.
  intros H. induction p as [| c p IH].
  - cbn [String.append after_last_colon]. rewrite H. reflexivity.
  - cbn [String.append after_last_colon]. rewrite IH. reflexivity.
Qed.

Lemma nospace_hex_sep (bs : bytes) :
  remove_char "010"%char
    (remove_char " "%char (hex_sep bs ++ String "010"%char EmptyString))
  = hex_cat bs.
Proof.
  induction bs as [| b r IH]; [reflexivity |].
  destruct r as [| b' r'].
  - cbn [hex_sep hex_cat].
    rewrite hex_byte_app, remove_space_hex_byte, remove_newline_hex_byte.
    reflexivity.
  - change (hex_sep (b :: b' :: r'))
      with (hex_byte b (String " "%char (hex_sep (b' :: r')))).
    rewrite hex_byte_app, remove_space_hex_byte, remove_newline_hex_byte.
    cbn [String.append]. change (hex_cat (b :: b' :: r'))
      with (hex_byte b (hex_cat (b' :: r'))).
    f_equal. cbn [remove_char Ascii.eqb Bool.eqb]. exact IH.
Qed.

Lemma length_hex_cat (bs : bytes) :
  String.length (hex_cat bs) = (2 * List.length bs)%nat.
Proof.
  induction bs as [| b r IH]; [reflexivity |].
  cbn [hex_cat hex_byte String.length List.length]. rewrite IH. lia.
Qed.

Lemma hex_decode_hex_cat (bs : bytes) : hex_decode (hex_cat bs) = inr bs.
Proof.
  unfold hex_decode. rewrite length_hex_cat.
  replace (Nat.odd (2 * List.length bs)) with false
    by (symmetry; rewrite <- Nat.negb_even, Nat.even_mul; reflexivity).
  induction bs as [| b r IH]; [reflexivity |].
  cbn [hex_cat]. rewrite a2b_hex_pairs_hex_byte, IH. reflexivity.
Qed.

(** X29. [encode_bytes] reads back what the split view of the printer
    writes: of every line it keeps what follows the last colon, drops
    spaces and the end of the line and decodes pairs of hexadecimal
    digits, so lines made of any text, a colon and bytes written as by
    [bytes.hex(' ')] give back those bytes, line after line, without an
    exception; a line with no byte gives none. *)
Theorem encode_bytes_reads_dump_lines (ls : list (string * bytes)) :
  encode_bytes (map (fun tb => dump_line (fst tb) (snd tb)) ls)
  = inr (List.concat (map snd ls)).
Proof.
  unfold encode_bytes.
  enough (H : forall allbytes,
             encode_bytes_loop
               (map (fun tb => dump_line (fst tb) (snd tb)) ls) allbytes
             = inr (allbytes ++ List.concat (map snd ls)))
    by apply (H []).
  induction ls as [| [text bs] ls IH]; intros allbytes.
  - cbn. rewrite app_nil_r. reflexivity.
  - cbn [map fst snd encode_bytes_loop List.concat]. unfold dump_line.
    change (text ++ ": " ++ hex_sep bs ++ String "010"%char EmptyString)%string
      with (text ++ String ":"%char
                      (String " "%char
                         (hex_sep bs ++ String "010"%char EmptyString)))%string.
    rewrite after_last_colon_app
      by (cbn [after_last_colon]; rewrite after_last_colon_hex_sep;
          reflexivity).
    cbn [remove_char Ascii.eqb Bool.eqb]. rewrite nospace_hex_sep.
    rewrite length_hex_cat, hex_decode_hex_cat.
    destruct bs as [| b r].
    + change (0 <? 2 * List.length (@nil byte))%nat with false. cbv iota.
      rewrite IH. reflexivity.
    + replace (0 <? 2 * List.length (b :: r))%nat with true
        by (symmetry; apply Nat.ltb_lt; cbn [List.length]; lia).
      rewrite IH, app_assoc. reflexivity.
Qed.
